(** * A shallow embedding of the PDF-to-Milvus ingestion pipeline

    The development follows the Python sources class by class:
    [config.py], [src/pdf_processor.py] ([PDFProcessor]),
    [archive/pdf_processor_memory_optimized.py] (the generator variant of the
    chunker), [src/embedding_generator.py], [src/milvus_client.py],
    [pdf_to_milvus_batch.py] and [pdf_page_processor.py].

    Python values are modelled as the code uses them: a [str] is a sequence
    of Unicode code points, an [int] is a [Z], a list is a [list], a [dict]
    with a fixed key set is a record whose optional keys are [option]
    fields, and the collections held by the Milvus server form a finite map
    from collection names.  A [while] loop takes fuel and answers [None]
    when the fuel runs out; a generator is a resumption machine. *)

From Stdlib Require Import ZArith NArith List Lia Bool Floats Sorted.
From stdpp Require Import gmap strings list fin_maps.
Import ListNotations.

#[local] Open Scope Z_scope.

(** ** Python primitives *)

Module Py.

(** A code point, and a [str] as the sequence of its code points. *)
Definition char := N.
Definition str := list char.

Definition of_string (s : string) : str :=
  map Ascii.N_of_ascii (String.list_ascii_of_string s).

Definition SPACE : char := 32%N.

(** [len(l)] *)
Definition len {A} (l : list A) : Z := Z.of_nat (length l).

(** [Py_UNICODE_ISSPACE]: the predicate behind [str.isspace], [str.split()],
    [str.strip()] and the [\s] class of [re] on [str] patterns. *)
Definition isspace (c : char) : bool :=
  ((9 <=? c) && (c <=? 13) || (28 <=? c) && (c <=? 32) || (c =? 133) || (c =? 160)
   || (c =? 5760) || (8192 <=? c) && (c <=? 8202) || (c =? 8232) || (c =? 8233)
   || (c =? 8239) || (c =? 8287) || (c =? 12288))%N.

(** The Unicode database's alphanumeric table ([Py_UNICODE_ISALNUM]) is not
    part of the repository: it is an interface of the platform. *)
Class UnicodeDB := { isalnum : char -> bool }.

(** [\w] of [re] on [str] patterns: alphanumeric or underscore. *)
Definition isword `{UnicodeDB} (c : char) : bool := isalnum c || (c =? 95)%N.

(** [s.split()]: the maximal runs of non-whitespace characters. *)
Fixpoint split (s : str) : list str :=
  match s with
  | [] => []
  | c :: s' =>
      if isspace c then split s'
      else match s' with
           | [] => [[c]]
           | d :: _ =>
               if isspace d then [c] :: split s'
               else match split s' with
                    | w :: ws => (c :: w) :: ws
                    | [] => [[c]]
                    end
           end
  end.

(** [sep.join(ws)] *)
Fixpoint join (sep : str) (ws : list str) : str :=
  match ws with
  | [] => []
  | w :: ws' =>
      match ws' with
      | [] => w
      | _ :: _ => w ++ sep ++ join sep ws'
      end
  end.

Fixpoint lstrip (s : str) : str :=
  match s with
  | [] => []
  | c :: s' => if isspace c then lstrip s' else s
  end.

Definition rstrip (s : str) : str := rev' (lstrip (rev' s)).

(** [s.strip()] *)
Definition strip (s : str) : str := rstrip (lstrip s).

(** Truth value of a [str] or a list: non-empty. *)
Definition truthy {A} (l : list A) : bool :=
  match l with [] => false | _ :: _ => true end.

(** [re.sub(r'\s+', ' ', s)]: every maximal run of whitespace becomes one
    space (the replacement is emitted at the run's last character). *)
Fixpoint re_sub_whitespace (s : str) : str :=
  match s with
  | [] => []
  | c :: s' =>
      if isspace c then
        match s' with
        | [] => [SPACE]
        | d :: _ => if isspace d then re_sub_whitespace s' else SPACE :: re_sub_whitespace s'
        end
      else c :: re_sub_whitespace s'
  end.

(** Normalisation of a slice bound against a sequence of length [n]. *)
Definition slice_index (n i : Z) : Z :=
  if i <? 0 then Z.max 0 (n + i) else Z.min i n.

(** [l[i:j]] *)
Definition slice {A} (l : list A) (i j : Z) : list A :=
  let lo := slice_index (len l) i in
  let hi := slice_index (len l) j in
  firstn (Z.to_nat (hi - lo)) (skipn (Z.to_nat lo) l).

(** [range(start, stop, step)]; [None] is the [ValueError] of a zero step. *)
Definition range (start stop step : Z) : option (list Z) :=
  if step =? 0 then None
  else
    let count :=
      if 0 <? step then (stop - start + step - 1) / step
      else (start - stop - step - 1) / (- step) in
    Some (map (fun k => start + Z.of_nat k * step) (seq 0 (Z.to_nat count))).

End Py.

Import Py.

(** ** [config.py] *)

Module Config.

Definition COLLECTION_NAME : string := "pdf_documents".
Definition CHUNK_SIZE : Z := 1000.
Definition CHUNK_OVERLAP : Z := 200.
Definition MAX_TEXT_LENGTH : Z := 8192.

(** [DIMENSION = 1536 if USE_OPENAI_EMBEDDINGS else 384]; the flag is read
    from the process environment. *)
Definition DIMENSION (USE_OPENAI_EMBEDDINGS : bool) : Z :=
  if USE_OPENAI_EMBEDDINGS then 1536 else 384.

End Config.

(** ** PyMuPDF ([fitz]) documents and the files they are opened from *)

Module Fitz.

(** A page of an opened document.  [get_text = None] stands for a page whose
    [load_page] or [get_text] raises. *)
Record Page := {
  get_text : option str;
  rect_width : float;
  rect_height : float
}.

(** What a path of the file system holds: a file [fitz.open] cannot read,
    or a PDF with its pages. *)
Inductive file :=
| Unreadable
| Pdf (pages : list Page).

Definition filesystem := gmap string file.

(** [os.path.exists(path)] *)
Definition path_exists (fs : gmap string file) (path : string) : bool :=
  match fs !! path with Some _ => true | None => false end.

(** [fitz.open(path)]; [None] when it raises. *)
Definition open (fs : gmap string file) (path : string) : option (list Page) :=
  match fs !! path with
  | Some (Pdf pages) => Some pages
  | _ => None
  end.

End Fitz.

(** ** [src/pdf_processor.py]: class [PDFProcessor] *)

Module PDFProcessor.

Record t := { chunk_size : Z; chunk_overlap : Z }.

(** [__init__] *)
Definition init : t :=
  {| chunk_size := Config.CHUNK_SIZE; chunk_overlap := Config.CHUNK_OVERLAP |}.

(** An element of an embedding vector as Python sees it: a [float], an
    [int], or an object that is neither. *)
Inductive number :=
| PyFloat (x : float)
| PyInt (n : Z)
| PyOther.

(** The [dict] a chunk is: [chunk_text] creates the first four keys,
    [process_pdf] adds the document's and the page's, the embedding step
    adds ["embedding"]. *)
Record Chunk := {
  chunk_id : Z;
  text : str;
  start_word : Z;
  end_word : Z;
  document_id : option str;
  page_number : option Z;
  page_width : option float;
  page_height : option float;
  embedding : option (list number)
}.

(** The [dict] of an extracted page. *)
Record PageText := {
  pt_page_number : Z;
  pt_text : str;
  pt_page_width : float;
  pt_page_height : float
}.

Definition new_page (page_number : Z) (text : str) (page : Fitz.Page) : PageText :=
  {| pt_page_number := page_number;
     pt_text := text;
     pt_page_width := Fitz.rect_width page;
     pt_page_height := Fitz.rect_height page |}.

(** The characters [re.sub(r'[^\w\s\.\,\!\?\;\:\-\(\)\[\]\{\}]', '', text)]
    keeps. *)
Definition kept `{UnicodeDB} (c : char) : bool :=
  isword c || isspace c || existsb (N.eqb c) (of_string ".,!?;:-()[]{}").

Definition _clean_text `{UnicodeDB} (text : str) : str :=
  let text := re_sub_whitespace text in
  let text := List.filter kept text in
  let text := join [SPACE] (split text) in
  strip text.

(** The [for page_num in range(len(doc))] loop of [extract_text_from_pdf];
    [None] when a page raises. *)
Fixpoint extract_pages `{UnicodeDB} (doc : list Fitz.Page) (page_num : Z)
    (pages : list PageText) : option (list PageText) :=
  match doc with
  | [] => Some pages
  | page :: rest =>
      match Fitz.get_text page with
      | None => None
      | Some text =>
          let text := _clean_text text in
          extract_pages rest (page_num + 1)
            (if truthy (strip text)
             then pages ++ [new_page (page_num + 1) text page]
             else pages)
      end
  end.

(** One [try] encloses the opening of the document and the whole loop: any
    exception is logged and the result is the empty list. *)
Definition extract_text_from_pdf `{UnicodeDB} (fs : gmap string Fitz.file)
    (pdf_path : string) : list PageText :=
  match Fitz.open fs pdf_path with
  | None => []
  | Some doc =>
      match extract_pages doc 0 [] with
      | None => []
      | Some pages => pages
      end
  end.

Definition new_chunk (chunk_id : Z) (text : str) (start_word end_word : Z) : Chunk :=
  {| chunk_id := chunk_id; text := text; start_word := start_word;
     end_word := end_word; document_id := None; page_number := None;
     page_width := None; page_height := None; embedding := None |}.

(** The [while start < len(words)] loop of [chunk_text], entered at its
    test; [None] when the fuel is spent before the loop is left. *)
Fixpoint chunk_loop (fuel : nat) (self : t) (words : list str) (chunk_id : Z)
    (start : Z) (chunks : list Chunk) : option (list Chunk) :=
  match fuel with
  | O => None
  | S fuel' =>
      if start <? len words then
        let end_ := Z.min (start + chunk_size self) (len words) in
        let chunk_text := join [SPACE] (slice words start end_) in
        let chunks := chunks ++ [new_chunk (chunk_id + len chunks) chunk_text start end_] in
        let start := end_ - chunk_overlap self in
        if start >=? len words then Some chunks
        else chunk_loop fuel' self words chunk_id start chunks
      else Some chunks
  end.

Definition chunk_text (fuel : nat) (self : t) (text : str) (chunk_id : Z)
    : option (list Chunk) :=
  let words := split text in
  if len words <=? chunk_size self then
    Some [new_chunk chunk_id text 0 (len words)]
  else chunk_loop fuel self words chunk_id 0 [].

(** [chunk.update({...})] in [process_pdf]. *)
Definition update (chunk : Chunk) (document_id : str) (page : PageText) : Chunk :=
  {| chunk_id := chunk_id chunk; text := text chunk;
     start_word := start_word chunk; end_word := end_word chunk;
     document_id := Some document_id;
     page_number := Some (pt_page_number page);
     page_width := Some (pt_page_width page);
     page_height := Some (pt_page_height page);
     embedding := embedding chunk |}.

(** The [for page in pages] loop of [process_pdf]. *)
Fixpoint process_pages (fuel : nat) (self : t) (document_id : str)
    (pages : list PageText) (chunk_counter : Z) (all_chunks : list Chunk)
    : option (list Chunk) :=
  match pages with
  | [] => Some all_chunks
  | page :: rest =>
      match chunk_text fuel self (pt_text page) chunk_counter with
      | None => None
      | Some page_chunks =>
          process_pages fuel self document_id rest
            (chunk_counter + len page_chunks)
            (all_chunks ++ map (fun chunk => update chunk document_id page) page_chunks)
      end
  end.

Definition process_pdf `{UnicodeDB} (fuel : nat) (self : t)
    (fs : gmap string Fitz.file) (pdf_path : string) (document_id : str)
    : option (list Chunk) :=
  let pages := extract_text_from_pdf fs pdf_path in
  if negb (truthy pages) then Some []
  else process_pages fuel self document_id pages 0 [].

End PDFProcessor.

(** ** [archive/pdf_processor_memory_optimized.py]: the generator
    [chunk_text_streaming] of [UltraMemoryOptimizedPDFProcessor] *)

Module UltraMemoryOptimizedPDFProcessor.

Import PDFProcessor.

Record t := {
  chunk_size : Z;
  chunk_overlap : Z;
  max_pages_per_batch : Z;
  max_memory_mb : Z
}.

Definition init : t :=
  {| chunk_size := Config.CHUNK_SIZE; chunk_overlap := Config.CHUNK_OVERLAP;
     max_pages_per_batch := 5; max_memory_mb := 500 |}.

Definition _clean_text `{UnicodeDB} (text : str) : str :=
  if negb (truthy text) then []
  else
    let text := re_sub_whitespace text in
    let text := List.filter kept text in
    let text := join [SPACE] (split text) in
    strip text.

(** The pages [extract_text_from_pdf_streaming] yields from an opened
    document, pulled to the end.  Each page is read in a [try] of its own: a
    page that raises is logged and the loop goes on ([continue]).  The
    batches of [max_pages_per_batch] pages only group the same page numbers
    in the same order. *)
Fixpoint streaming_pages `{UnicodeDB} (doc : list Fitz.Page) (page_num : Z)
    : list PageText :=
  match doc with
  | [] => []
  | page :: rest =>
      match Fitz.get_text page with
      | None => streaming_pages rest (page_num + 1)
      | Some text =>
          let text := _clean_text text in
          if truthy (strip text) then
            new_page (page_num + 1) text page :: streaming_pages rest (page_num + 1)
          else streaming_pages rest (page_num + 1)
      end
  end.

Definition extract_text_from_pdf_streaming `{UnicodeDB} (fs : gmap string Fitz.file)
    (pdf_path : string) : list PageText :=
  match Fitz.open fs pdf_path with
  | None => []
  | Some doc => streaming_pages doc 0
  end.

(** Where the generator is suspended. *)
Inductive gen :=
| NotStarted
| AtSingleYield
| AtLoopYield (start end_ chunk_counter : Z)
| Finished.

(** From the test of [while start < len(words)] to the next [yield]. *)
Definition loop_test (self : t) (words : list str) (chunk_id start chunk_counter : Z)
    : option Chunk * gen :=
  if start <? len words then
    let end_ := Z.min (start + chunk_size self) (len words) in
    let chunk_text := join [SPACE] (slice words start end_) in
    (Some (new_chunk (chunk_id + chunk_counter) chunk_text start end_),
     AtLoopYield start end_ chunk_counter)
  else (None, Finished).

(** [next(g)]: the yielded chunk, or [None] for [StopIteration]. *)
Definition next (self : t) (text : str) (chunk_id : Z) (g : gen) : option Chunk * gen :=
  match g with
  | NotStarted =>
      if negb (truthy (strip text)) then (None, Finished)
      else
        let words := split text in
        if len words <=? chunk_size self then
          (Some (new_chunk chunk_id text 0 (len words)), AtSingleYield)
        else loop_test self words chunk_id 0 0
  | AtSingleYield => (None, Finished)
  | AtLoopYield start end_ chunk_counter =>
      let chunk_counter := chunk_counter + 1 in
      let start := end_ - chunk_overlap self in
      if start >=? len (split text) then (None, Finished)
      else loop_test self (split text) chunk_id start chunk_counter
  | Finished => (None, Finished)
  end.

(** [list(g)]: pulls until [StopIteration]; [None] when the fuel is spent
    first. *)
Fixpoint collect (fuel : nat) (self : t) (text : str) (chunk_id : Z) (g : gen)
    : option (list Chunk) :=
  match fuel with
  | O => None
  | S fuel' =>
      match next self text chunk_id g with
      | (None, _) => Some []
      | (Some chunk, g') =>
          match collect fuel' self text chunk_id g' with
          | Some chunks => Some (chunk :: chunks)
          | None => None
          end
      end
  end.

Definition chunk_text_streaming (fuel : nat) (self : t) (text : str) (chunk_id : Z)
    : option (list Chunk) :=
  collect fuel self text chunk_id NotStarted.

(** [list(itertools.islice(g, n))]: the first [n] chunks the generator
    yields, fewer when it stops before. *)
Fixpoint islice (n : nat) (self : t) (text : str) (chunk_id : Z) (g : gen) : list Chunk :=
  match n with
  | O => []
  | S n' =>
      match next self text chunk_id g with
      | (None, _) => []
      | (Some chunk, g') => chunk :: islice n' self text chunk_id g'
      end
  end.

(** The body of [for chunk in self.chunk_text_streaming(...)] in
    [process_pdf_ultra_optimized], on the chunks the generator yields: the
    batch under construction, the counter, and the batches yielded so far.
    [batch_size] is the local constant 20. *)
Fixpoint add_to_batch (document_id : str) (page : PageText) (chunks : list Chunk)
    (batch_chunks : list Chunk) (chunk_counter : Z) (yielded : list (list Chunk))
    : list Chunk * Z * list (list Chunk) :=
  match chunks with
  | [] => (batch_chunks, chunk_counter, yielded)
  | chunk :: rest =>
      let batch_chunks := batch_chunks ++ [update chunk document_id page] in
      let chunk_counter := chunk_counter + 1 in
      if len batch_chunks >=? 20 then
        add_to_batch document_id page rest [] chunk_counter (yielded ++ [batch_chunks])
      else add_to_batch document_id page rest batch_chunks chunk_counter yielded
  end.

(** [for page in self.extract_text_from_pdf_streaming(pdf_path)], and the
    final [if batch_chunks: yield batch_chunks]. *)
Fixpoint ultra_pages (fuel : nat) (self : t) (document_id : str) (pages : list PageText)
    (batch_chunks : list Chunk) (chunk_counter : Z) (yielded : list (list Chunk))
    : option (list (list Chunk)) :=
  match pages with
  | [] => Some (if truthy batch_chunks then yielded ++ [batch_chunks] else yielded)
  | page :: rest =>
      match chunk_text_streaming fuel self (pt_text page) chunk_counter with
      | None => None
      | Some chunks =>
          let '(batch_chunks, chunk_counter, yielded) :=
            add_to_batch document_id page chunks batch_chunks chunk_counter yielded in
          ultra_pages fuel self document_id rest batch_chunks chunk_counter yielded
      end
  end.

(** [list(process_pdf_ultra_optimized(pdf_path, document_id))]: the batches
    yielded; [None] when the fuel is spent inside a page's chunk generator. *)
Definition process_pdf_ultra_optimized `{UnicodeDB} (fuel : nat) (self : t)
    (fs : gmap string Fitz.file) (pdf_path : string) (document_id : str)
    : option (list (list Chunk)) :=
  ultra_pages fuel self document_id (extract_text_from_pdf_streaming fs pdf_path) [] 0 [].

End UltraMemoryOptimizedPDFProcessor.

Module Streaming := UltraMemoryOptimizedPDFProcessor.

(** ** [src/embedding_generator.py] *)

Module EmbeddingGenerator.

Import PDFProcessor.

(** The model behind the generator ([SentenceTransformer.encode], or the
    OpenAI endpoint of [OpenAIEmbeddingGenerator]): an external collaborator
    that maps texts to vectors, or raises ([None]). *)
Class Model := { encode : list str -> option (list (list number)) }.

Definition generate_embeddings `{Model} (texts : list str) : list (list number) :=
  match encode texts with
  | Some embeddings => embeddings
  | None => []
  end.

Definition generate_single_embedding `{Model} (text : str) : list number :=
  match encode [text] with
  | Some (embedding :: _) => embedding
  | _ => []
  end.

Definition get_embedding_dimension `{Model} : Z :=
  len (generate_single_embedding (of_string "test")).

(** [isinstance(x, (int, float))] *)
Definition is_number (x : number) : bool :=
  match x with PyFloat _ | PyInt _ => true | PyOther => false end.

Definition validate_embedding `{Model} (embedding : list number) : bool :=
  if negb (truthy embedding) then false
  else if negb (forallb is_number embedding) then false
  else
    let expected_dim := get_embedding_dimension in
    if (expected_dim >? 0) && negb (len embedding =? expected_dim) then false
    else true.

End EmbeddingGenerator.

(** ** [src/milvus_client.py]: class [MilvusClient] and the server it talks to *)

Module MilvusClient.

Import PDFProcessor.

Inductive DataType := INT64 | VARCHAR | FLOAT_VECTOR.

Record FieldSchema := {
  name : string;
  dtype : DataType;
  is_primary : bool;
  auto_id : bool;
  max_length : option Z;
  dim : option Z
}.

Record CollectionSchema := { fields : list FieldSchema; description : string }.

(** A stored row (the auto-assigned [id] is left to the server). *)
Record Entity := {
  e_document_id : str;
  e_page_number : Z;
  e_chunk_id : Z;
  e_text : str;
  e_embedding : list number
}.

Record Index := {
  field_name : string;
  metric_type : string;
  index_type : string;
  nlist : Z
}.

Record Collection := {
  schema : CollectionSchema;
  entities : list Entity;
  index : option Index
}.

(** The server's behaviour on [collection.insert(rows)] followed by
    [collection.flush()]: both go through; or the insert goes through, so
    that the rows are with the server, and the flush raises; or the insert
    itself raises and nothing is sent. *)
Inductive outcome := Stored | FlushRaised | InsertRaised.

Class Server := { insert_flush : Collection -> list Entity -> outcome }.

(** The server takes the rows: insert and flush both go through. *)
Definition accepts `{Server} (c : Collection) (rows : list Entity) : bool :=
  match insert_flush c rows with
  | Stored => true
  | FlushRaised | InsertRaised => false
  end.

Record t := {
  collection_name : string;
  dimension : Z;
  collection : option string   (* the handle [Collection(name)], by the name it is bound to *)
}.

(** [__init__] *)
Definition init (USE_OPENAI_EMBEDDINGS : bool) : t :=
  {| collection_name := Config.COLLECTION_NAME;
     dimension := Config.DIMENSION USE_OPENAI_EMBEDDINGS;
     collection := None |}.

Definition with_collection (self : t) (handle : string) : t :=
  {| collection_name := collection_name self; dimension := dimension self;
     collection := Some handle |}.

Definition expected_fields (self : t) : list FieldSchema :=
  [ {| name := "id"; dtype := INT64; is_primary := true; auto_id := true;
       max_length := None; dim := None |};
    {| name := "document_id"; dtype := VARCHAR; is_primary := false; auto_id := false;
       max_length := Some 100; dim := None |};
    {| name := "page_number"; dtype := INT64; is_primary := false; auto_id := false;
       max_length := None; dim := None |};
    {| name := "chunk_id"; dtype := INT64; is_primary := false; auto_id := false;
       max_length := None; dim := None |};
    {| name := "text"; dtype := VARCHAR; is_primary := false; auto_id := false;
       max_length := Some Config.MAX_TEXT_LENGTH; dim := None |};
    {| name := "embedding"; dtype := FLOAT_VECTOR; is_primary := false; auto_id := false;
       max_length := None; dim := Some (dimension self) |} ].

Definition expected_field_names : list string :=
  ["id"; "document_id"; "page_number"; "chunk_id"; "text"; "embedding"].

(** [Collection(name=..., schema=schema)] for a name the server does not
    hold: an empty collection with that schema. *)
Definition new_collection (schema : CollectionSchema) : Collection :=
  {| schema := schema; entities := []; index := None |}.

(** [collection.create_index(...)]: builds the index when the collection has
    none; the call on an indexed collection is the one whose exception
    [create_collection] swallows. *)
Definition create_index (idx : Index) (c : Collection) : Collection :=
  match index c with
  | Some _ => c
  | None => {| schema := schema c; entities := entities c; index := Some idx |}
  end.

(** [create_collection] on a server all of whose calls go through: the body
    of its [try] up to [return True].  The run in which a server call raises
    is [try_create_collection] below. *)
Definition create_collection (self : t) (server : gmap string Collection)
    : bool * t * gmap string Collection :=
  let schema := {| fields := expected_fields self;
                   description := "PDF document chunks with embeddings" |} in
  let server :=
    match server !! collection_name self with
    | Some existing =>
        let existing_field_names := map name (fields (MilvusClient.schema existing)) in
        if bool_decide (existing_field_names <> expected_field_names) then
          <[collection_name self := new_collection schema]>
            (delete (collection_name self) server)
        else server
    | None => <[collection_name self := new_collection schema]> server
    end in
  let idx := {| field_name := "embedding"; metric_type := "COSINE";
                index_type := "IVF_FLAT"; nlist := 1024 |} in
  (true, with_collection self (collection_name self),
   alter (create_index idx) (collection_name self) server).

(** The server calls of [create_collection] that its outer [try] guards:
    [utility.has_collection], [Collection(name)], [utility.drop_collection]
    and [Collection(name=..., schema=...)].  ([create_index] has a [try] of
    its own.) *)
Inductive call := HasCollection | OpenCollection | DropCollection | CreateCollection.

(** [create_collection] with its [except] branch.  [raising] is the call
    that raises when it is reached, if any; [create_collection] above is the
    run in which none does.  What was done before the call that raises
    stays done: the handle is bound once [Collection(name)] has returned,
    and a collection dropped for its schema is gone when its re-creation
    raises. *)
Definition try_create_collection (raising : option call) (self : t)
    (server : gmap string Collection) : bool * t * gmap string Collection :=
  match raising with
  | None => create_collection self server
  | Some HasCollection => (false, self, server)
  | Some failing =>
      match server !! collection_name self with
      | Some existing =>
          match failing with
          | OpenCollection => (false, self, server)
          | _ =>
              let bound := with_collection self (collection_name self) in
              let existing_field_names :=
                map name (fields (MilvusClient.schema existing)) in
              if bool_decide (existing_field_names <> expected_field_names) then
                match failing with
                | DropCollection => (false, bound, server)
                | _ => (false, bound, delete (collection_name self) server)
                end
              else create_collection self server
          end
      | None =>
          match failing with
          | CreateCollection => (false, self, server)
          | _ => create_collection self server
          end
      end
  end.

(** A document [dict] as [insert_documents] receives it: each of the five
    keys it reads may be absent.  The values have the types the pipeline
    gives them, so [str(...)] and [int(...)] are the identity. *)
Record Document := {
  d_document_id : option str;
  d_page_number : option Z;
  d_chunk_id : option Z;
  d_text : option str;
  d_embedding : option (list number)
}.

(** The chunk [dict] read as a document (the keys [insert_documents] does not
    read are forgotten). *)
Definition as_document (chunk : Chunk) : Document :=
  {| d_document_id := document_id chunk;
     d_page_number := page_number chunk;
     d_chunk_id := Some (chunk_id chunk);
     d_text := Some (text chunk);
     d_embedding := embedding chunk |}.

(** The validation loop of [insert_documents]: a document missing a key is
    logged and skipped ([continue]). *)
Fixpoint valid_documents (documents : list Document) (valid : list Entity) : list Entity :=
  match documents with
  | [] => valid
  | doc :: rest =>
      match d_document_id doc, d_page_number doc, d_chunk_id doc, d_text doc,
            d_embedding doc with
      | Some document_id, Some page_number, Some chunk_id, Some text, Some embedding =>
          let doc_id := if len document_id >? 100 then slice document_id 0 100
                        else document_id in
          valid_documents rest
            (valid ++ [{| e_document_id := doc_id;
                          e_page_number := page_number;
                          e_chunk_id := chunk_id;
                          e_text := slice text 0 Config.MAX_TEXT_LENGTH;
                          e_embedding := embedding |}])
      | _, _, _, _, _ => valid_documents rest valid
      end
  end.

Definition insert_documents `{Server} (self : t) (server : gmap string Collection)
    (documents : list Document) : bool * gmap string Collection :=
  match collection self with
  | None => (false, server)
  | Some handle =>
      if negb (truthy documents) then (true, server)
      else
        let valid := valid_documents documents [] in
        if negb (truthy valid) then (false, server)
        else
          match server !! handle with
          | None => (false, server)
          | Some c =>
              let sent := <[handle := {| schema := schema c;
                                         entities := entities c ++ valid;
                                         index := index c |}]> server in
              match insert_flush c valid with
              | Stored => (true, sent)
              | FlushRaised => (false, sent)
              | InsertRaised => (false, server)
              end
          end
  end.

(** [get_collection_stats]: the [dict] with the row count and the name, or
    one of the two [{"error": ...}] answers (no handle; the server raises,
    which it does for a handle whose collection is gone). *)
Inductive stats :=
| Stats (row_count : Z) (name : string)
| NotInitialized
| StatsFailed.

Definition get_collection_stats (self : t) (server : gmap string Collection) : stats :=
  match collection self with
  | None => NotInitialized
  | Some handle =>
      match server !! handle with
      | Some c => Stats (len (entities c)) (collection_name self)
      | None => StatsFailed
      end
  end.


End MilvusClient.

(** ** What the runtime supplies: a fresh [uuid.uuid4()] rendered as a
    string, and [Path(p).stem] *)

Class Runtime := { uuid4 : str; stem : string -> str }.

(** ** [pdf_to_milvus_batch.py]: class [PDFToMilvusBatch] *)

Module PDFToMilvusBatch.

Import PDFProcessor EmbeddingGenerator.

Record t := {
  milvus_client : MilvusClient.t;
  pdf_processor : PDFProcessor.t;
  batch_size : Z;
  embedding_batch_size : Z
}.

(** [__init__] with its default batch sizes. *)
Definition init (USE_OPENAI_EMBEDDINGS : bool) : t :=
  {| milvus_client := MilvusClient.init USE_OPENAI_EMBEDDINGS;
     pdf_processor := PDFProcessor.init;
     batch_size := 100;
     embedding_batch_size := 50 |}.

(** A line of the log at level WARNING. *)
Inductive warning :=
| MissingEmbedding (chunk_id : Z)
| InvalidEmbedding (chunk_id : Z).

(** [chunk["embedding"] = e] *)
Definition set_embedding (chunk : Chunk) (e : list number) : Chunk :=
  {| chunk_id := chunk_id chunk; text := text chunk;
     start_word := start_word chunk; end_word := end_word chunk;
     document_id := document_id chunk; page_number := page_number chunk;
     page_width := page_width chunk; page_height := page_height chunk;
     embedding := Some e |}.

(** [for j, chunk in enumerate(batch)]: the chunk gets [embeddings[j]] when
    [j < len(embeddings)], and a warning otherwise. *)
Fixpoint add_embeddings (j : nat) (batch : list Chunk) (embeddings : list (list number))
    (chunks_with_embeddings : list Chunk) (log : list warning)
    : list Chunk * list warning :=
  match batch with
  | [] => (chunks_with_embeddings, log)
  | chunk :: rest =>
      match embeddings !! j with
      | Some e =>
          add_embeddings (S j) rest embeddings
            (chunks_with_embeddings ++ [set_embedding chunk e]) log
      | None =>
          add_embeddings (S j) rest embeddings
            chunks_with_embeddings (log ++ [MissingEmbedding (chunk_id chunk)])
      end
  end.

(** [for i in range(0, len(chunks), self.embedding_batch_size)] *)
Fixpoint embedding_batches `{Model} (self : t) (chunks : list Chunk) (starts : list Z)
    (chunks_with_embeddings : list Chunk) (log : list warning)
    : list Chunk * list warning :=
  match starts with
  | [] => (chunks_with_embeddings, log)
  | i :: rest =>
      let batch := slice chunks i (i + embedding_batch_size self) in
      let texts := map text batch in
      let embeddings := generate_embeddings texts in
      let '(chunks_with_embeddings, log) :=
        add_embeddings 0 batch embeddings chunks_with_embeddings log in
      embedding_batches self chunks rest chunks_with_embeddings log
  end.

(** The result and the warnings logged on the way.  A zero batch size makes
    [range] raise, which the enclosing [try] turns into the empty list. *)
Definition generate_embeddings_in_batches `{Model} (self : t) (chunks : list Chunk)
    : list Chunk * list warning :=
  match range 0 (len chunks) (embedding_batch_size self) with
  | None => ([], [])
  | Some starts => embedding_batches self chunks starts [] []
  end.

(** [chunk.get("embedding", [])] *)
Definition get_embedding (chunk : Chunk) : list number :=
  match embedding chunk with Some e => e | None => [] end.

(** The [for i in range(0, total_chunks, self.batch_size)] loop of
    [store_pdf_with_progress], on the counters and the server. *)
Fixpoint store_batches `{Model} `{MilvusClient.Server} (self : t)
    (all_chunks : list Chunk) (starts : list Z) (successful_chunks failed_chunks : Z)
    (server : gmap string MilvusClient.Collection)
    : Z * Z * gmap string MilvusClient.Collection :=
  match starts with
  | [] => (successful_chunks, failed_chunks, server)
  | i :: rest =>
      let batch := slice all_chunks i (i + batch_size self) in
      let chunks_with_embeddings := fst (generate_embeddings_in_batches self batch) in
      if negb (truthy chunks_with_embeddings) then
        store_batches self all_chunks rest successful_chunks
          (failed_chunks + len batch) server
      else
        let valid_chunks :=
          List.filter (fun chunk => validate_embedding (get_embedding chunk))
            chunks_with_embeddings in
        if negb (truthy valid_chunks) then
          store_batches self all_chunks rest successful_chunks
            (failed_chunks + len batch) server
        else
          let '(stored, server') :=
            MilvusClient.insert_documents (milvus_client self) server
              (map MilvusClient.as_document valid_chunks) in
          if stored then
            store_batches self all_chunks rest
              (successful_chunks + len valid_chunks) failed_chunks server'
          else
            store_batches self all_chunks rest successful_chunks
              (failed_chunks + len valid_chunks) server'
  end.

(** [store_pdf_with_progress]: the returned flag and the server afterwards;
    [None] only when the chunker's loop runs out of fuel.  Every exception
    ends in [return False]: the [ValueError] of a zero batch size, and the
    [ZeroDivisionError] of the success rate when no chunk was counted. *)
Definition store_pdf_with_progress `{UnicodeDB} `{Model} `{MilvusClient.Server} `{Runtime}
    (fuel : nat) (self : t) (fs : gmap string Fitz.file)
    (server : gmap string MilvusClient.Collection)
    (pdf_path : string) (document_id : option str)
    : option (bool * gmap string MilvusClient.Collection) :=
  if negb (Fitz.path_exists fs pdf_path) then Some (false, server)
  else
    let document_id :=
      match document_id with
      | Some (_ :: _ as id) => id
      | _ => uuid4
      end in
    match process_pdf fuel (pdf_processor self) fs pdf_path document_id with
    | None => None
    | Some all_chunks =>
        if negb (truthy all_chunks) then Some (false, server)
        else
          let total_chunks := len all_chunks in
          match range 0 total_chunks (batch_size self) with
          | None => Some (false, server)
          | Some starts =>
              let '(successful_chunks, failed_chunks, server') :=
                store_batches self all_chunks starts 0 0 server in
              if successful_chunks + failed_chunks =? 0 then Some (false, server')
              else Some (successful_chunks >? 0, server')
          end
    end.

Definition with_client (self : t) (client : MilvusClient.t) : t :=
  {| milvus_client := client; pdf_processor := pdf_processor self;
     batch_size := batch_size self;
     embedding_batch_size := embedding_batch_size self |}.

(** [initialize]: [connect()] reaches the server or not ([reachable]); then
    [create_collection()], in which the server call [raising] raises, if
    any. *)
Definition initialize (reachable : bool) (raising : option MilvusClient.call) (self : t)
    (server : gmap string MilvusClient.Collection)
    : bool * t * gmap string MilvusClient.Collection :=
  if negb reachable then (false, self, server)
  else
    let '(created, client, server') :=
      MilvusClient.try_create_collection raising (milvus_client self) server in
    if negb created then (false, with_client self client, server')
    else (true, with_client self client, server').



End PDFToMilvusBatch.

(** ** [src/embedding_generator.py]: [add_embeddings_to_chunks], which sets
    the same ["embedding"] key as the batch pipeline *)

Module EmbeddingGeneratorChunks.

Import PDFProcessor EmbeddingGenerator.

(** [for i, chunk in enumerate(chunks)]: the chunk gets [embeddings[i]], or
    the empty list and a warning naming [i] when there is none. *)
Fixpoint add_all (i : nat) (chunks : list Chunk) (embeddings : list (list number))
    : list Chunk * list nat :=
  match chunks with
  | [] => ([], [])
  | chunk :: rest =>
      let '(chunks', warned) := add_all (S i) rest embeddings in
      match embeddings !! i with
      | Some e => (PDFToMilvusBatch.set_embedding chunk e :: chunks', warned)
      | None => (PDFToMilvusBatch.set_embedding chunk [] :: chunks', i :: warned)
      end
  end.

(** The returned chunks and the indices warned about. *)
Definition add_embeddings_to_chunks `{Model} (chunks : list Chunk)
    : list Chunk * list nat :=
  if negb (truthy chunks) then ([], [])
  else
    let texts := map text chunks in
    let embeddings := generate_embeddings texts in
    if negb (truthy embeddings) then ([], [])
    else add_all 0 chunks embeddings.

End EmbeddingGeneratorChunks.

(** ** [archive/pdf_to_milvus.py]: class [PDFToMilvus] *)

Module PDFToMilvus.

Import PDFProcessor EmbeddingGenerator.

Record t := {
  milvus_client : MilvusClient.t;
  pdf_processor : PDFProcessor.t
}.

(** [store_pdf]: one embedding call and one insert for the whole
    document. *)
Definition store_pdf `{UnicodeDB} `{Model} `{MilvusClient.Server} `{Runtime}
    (fuel : nat) (self : t) (fs : gmap string Fitz.file)
    (server : gmap string MilvusClient.Collection)
    (pdf_path : string) (document_id : option str)
    : option (bool * gmap string MilvusClient.Collection) :=
  if negb (Fitz.path_exists fs pdf_path) then Some (false, server)
  else
    let document_id :=
      match document_id with
      | Some (_ :: _ as id) => id
      | _ => uuid4
      end in
    match process_pdf fuel (pdf_processor self) fs pdf_path document_id with
    | None => None
    | Some chunks =>
        if negb (truthy chunks) then Some (false, server)
        else
          let chunks_with_embeddings :=
            fst (EmbeddingGeneratorChunks.add_embeddings_to_chunks chunks) in
          if negb (truthy chunks_with_embeddings) then Some (false, server)
          else
            let valid_chunks :=
              List.filter
                (fun chunk => validate_embedding (PDFToMilvusBatch.get_embedding chunk))
                chunks_with_embeddings in
            if negb (truthy valid_chunks) then Some (false, server)
            else
              let '(stored, server') :=
                MilvusClient.insert_documents (milvus_client self) server
                  (map MilvusClient.as_document valid_chunks) in
              if negb stored then Some (false, server') else Some (true, server')
    end.

End PDFToMilvus.

(** ** [pdf_page_processor.py]: class [PDFPageProcessor] *)

Module PDFPageProcessor.

Import PDFProcessor EmbeddingGenerator.

(** LangChain's [RecursiveCharacterTextSplitter.split_text], an external
    collaborator; [None] when it raises. *)
Class TextSplitter := { split_text : str -> option (list str) }.

Record t := { milvus_client : MilvusClient.t }.

Definition _clean_text `{UnicodeDB} (text : str) : str :=
  if negb (truthy text) then []
  else
    let text := re_sub_whitespace text in
    let text := List.filter kept text in
    let text := join [SPACE] (split text) in
    strip text.

(** Falls back to the whole text as one chunk when the splitter raises. *)
Definition _chunk_text_langchain `{TextSplitter} (text : str) (page_num : Z) : list str :=
  match split_text text with
  | Some chunks => chunks
  | None => [text]
  end.

(** [for chunk_idx, chunk_text in enumerate(page_chunks)] *)
Fixpoint process_chunks `{Model} `{MilvusClient.Server} (self : t)
    (document_id : str) (page_num : Z) (chunk_idx : Z) (page_chunks : list str)
    (total_embeddings : Z) (server : gmap string MilvusClient.Collection)
    : Z * gmap string MilvusClient.Collection :=
  match page_chunks with
  | [] => (total_embeddings, server)
  | chunk_text :: rest =>
      let embedding := generate_single_embedding chunk_text in
      if truthy embedding then
        let chunk_id := page_num * 1000 + chunk_idx in
        let data :=
          {| MilvusClient.d_document_id := Some document_id;
             MilvusClient.d_page_number := Some (page_num + 1);
             MilvusClient.d_chunk_id := Some chunk_id;
             MilvusClient.d_text := Some chunk_text;
             MilvusClient.d_embedding := Some embedding |} in
        let '(success, server') :=
          MilvusClient.insert_documents (milvus_client self) server [data] in
        process_chunks self document_id page_num (chunk_idx + 1) rest
          (if success then total_embeddings + 1 else total_embeddings) server'
      else
        process_chunks self document_id page_num (chunk_idx + 1) rest
          total_embeddings server
  end.

(** [for page_num in range(total_pages)], each page in a [try] of its own: a
    page that raises is logged and the loop goes on. *)
Fixpoint process_pages `{UnicodeDB} `{TextSplitter} `{Model} `{MilvusClient.Server}
    (self : t) (document_id : str) (doc : list Fitz.Page) (page_num : Z)
    (total_embeddings : Z) (server : gmap string MilvusClient.Collection)
    : Z * gmap string MilvusClient.Collection :=
  match doc with
  | [] => (total_embeddings, server)
  | page :: rest =>
      match Fitz.get_text page with
      | None => process_pages self document_id rest (page_num + 1) total_embeddings server
      | Some text =>
          let text := _clean_text text in
          if truthy (strip text) then
            let page_chunks := _chunk_text_langchain text page_num in
            let '(total_embeddings, server) :=
              process_chunks self document_id page_num 0 page_chunks
                total_embeddings server in
            process_pages self document_id rest (page_num + 1) total_embeddings server
          else
            process_pages self document_id rest (page_num + 1) total_embeddings server
      end
  end.

Definition process_pdf_page_by_page `{UnicodeDB} `{TextSplitter} `{Model}
    `{MilvusClient.Server} `{Runtime}
    (self : t) (fs : gmap string Fitz.file)
    (server : gmap string MilvusClient.Collection)
    (pdf_path : string) (document_id : option str)
    : bool * gmap string MilvusClient.Collection :=
  if negb (Fitz.path_exists fs pdf_path) then (false, server)
  else
    let document_id :=
      match document_id with
      | Some id => id
      | None => stem pdf_path
      end in
    match Fitz.open fs pdf_path with
    | None => (false, server)
    | Some doc =>
        let '(_, server') := process_pages self document_id doc 0 0 server in
        (true, server')
    end.

End PDFPageProcessor.

(** ** Stand-ins for the collaborators, and sample documents, for running
    the pipeline on concrete inputs *)

Module Fixtures.

Import PDFProcessor.

(** An alphanumeric table that knows the ASCII letters and digits. *)
Definition ascii_isalnum (c : char) : bool :=
  ((48 <=? c) && (c <=? 57) || (65 <=? c) && (c <=? 90) || (97 <=? c) && (c <=? 122))%N.

Definition ascii_db : UnicodeDB := {| isalnum := ascii_isalnum |}.

(** A model whose vectors have [dim] components. *)
Definition constant_model (dim : nat) : EmbeddingGenerator.Model :=
  {| EmbeddingGenerator.encode :=
       fun texts => Some (map (fun _ => repeat (PyFloat 1%float) dim) texts) |}.

(** A model that answers with vectors for the first [n] texts only. *)
Definition short_model (n dim : nat) : EmbeddingGenerator.Model :=
  {| EmbeddingGenerator.encode :=
       fun texts => Some (map (fun _ => repeat (PyFloat 1%float) dim) (firstn n texts)) |}.

(** A server on which every insert goes through. *)
Definition accepting_server : MilvusClient.Server :=
  {| MilvusClient.insert_flush := fun _ _ => MilvusClient.Stored |}.

(** A server on which every insert raises, and one on which every insert
    goes through and every flush raises. *)
Definition refusing_server : MilvusClient.Server :=
  {| MilvusClient.insert_flush := fun _ _ => MilvusClient.InsertRaised |}.

Definition unflushed_server : MilvusClient.Server :=
  {| MilvusClient.insert_flush := fun _ _ => MilvusClient.FlushRaised |}.

Definition runtime : Runtime :=
  {| uuid4 := of_string "123e4567-e89b-42d3-a456-426614174000";
     stem := fun path => of_string path |}.

(** A splitter cutting windows of [size] characters, each starting
    [size - overlap] characters after the one before: what a character
    splitter does on a text without separators. *)
Fixpoint window_split (fuel : nat) (size overlap : nat) (text : str) : list str :=
  match fuel with
  | O => []
  | S fuel' =>
      if (length text <=? size)%nat then [text]
      else firstn size text :: window_split fuel' size overlap (skipn (size - overlap) text)
  end.

Definition window_splitter (size overlap : nat) : PDFPageProcessor.TextSplitter :=
  {| PDFPageProcessor.split_text :=
       fun text => Some (window_split (length text) size overlap text) |}.

Definition page (raw : string) : Fitz.Page :=
  {| Fitz.get_text := Some (of_string raw);
     Fitz.rect_width := 612%float; Fitz.rect_height := 792%float |}.

(** A page without a text layer (a scanned image). *)
Definition image_page : Fitz.Page :=
  {| Fitz.get_text := Some [];
     Fitz.rect_width := 612%float; Fitz.rect_height := 792%float |}.

(** A page whose text extraction raises. *)
Definition broken_page : Fitz.Page :=
  {| Fitz.get_text := None;
     Fitz.rect_width := 612%float; Fitz.rect_height := 792%float |}.

Definition one_file (path : string) (pages : list Fitz.Page) : gmap string Fitz.file :=
  {[ path := Fitz.Pdf pages ]}.

(** A client and a server after [connect()] and [create_collection()] on an
    empty server. *)
Definition ready_client : MilvusClient.t :=
  snd (fst (MilvusClient.create_collection (MilvusClient.init false) ∅)).

Definition ready_server : gmap string MilvusClient.Collection :=
  snd (MilvusClient.create_collection (MilvusClient.init false) ∅).

(** The rows of the pipeline's collection, as (page number, chunk id). *)
Definition stored_rows (server : gmap string MilvusClient.Collection) : list (Z * Z) :=
  match server !! Config.COLLECTION_NAME with
  | Some c =>
      map (fun e => (MilvusClient.e_page_number e, MilvusClient.e_chunk_id e))
        (MilvusClient.entities c)
  | None => []
  end.

(** The batch pipeline after [initialize()], with its default batch sizes. *)
Definition ready_batch : PDFToMilvusBatch.t :=
  {| PDFToMilvusBatch.milvus_client := ready_client;
     PDFToMilvusBatch.pdf_processor := PDFProcessor.init;
     PDFToMilvusBatch.batch_size := 100;
     PDFToMilvusBatch.embedding_batch_size := 50 |}.

(** Two pages, the first of which the splitter cuts into 1001 chunks.  The
    stand-in splitter of [crowded_splitter] cuts one chunk per character, so
    1001 letters do; LangChain's splitter with the shipped [CHUNK_SIZE] of
    1000 characters and [CHUNK_OVERLAP] of 200 does the same to a page of
    801,000 characters. *)
Definition crowded_doc : list Fitz.Page :=
  [ {| Fitz.get_text := Some (repeat 97%N 1001);
       Fitz.rect_width := 612%float; Fitz.rect_height := 792%float |};
    page "b" ].

Definition crowded_splitter : PDFPageProcessor.TextSplitter := window_splitter 1 0.

(** Three pages, the second a scanned image. *)
Definition scan_doc : list Fitz.Page := [page "Hello  world"; image_page; page " x "].

(** Three pages, the second of which cannot be read. *)
Definition damaged_doc : list Fitz.Page := [page "Hello  world"; broken_page; page " x "].

(** The model and the splitter of the sample runs: vectors of three
    components, and character windows with the shipped sizes. *)
Definition three_dim_model : EmbeddingGenerator.Model := constant_model 3.

Definition shipped_splitter : PDFPageProcessor.TextSplitter :=
  window_splitter (Z.to_nat Config.CHUNK_SIZE) (Z.to_nat Config.CHUNK_OVERLAP).

End Fixtures.

(** ** Notions the properties are stated with *)

Module Notions.

Import PDFProcessor.

(** A word as [split] produces them: non-empty and free of whitespace. *)
Definition nonblank (w : str) : Prop :=
  w <> [] /\ forallb (fun c => negb (isspace c)) w = true.

(** A text of [n] one-letter words. *)
Definition words_text (n : nat) : str := join [SPACE] (repeat (of_string "w") n).

(** The consecutive identifiers [id, id+1, ..., id+n-1]. *)
Definition ids_from (id : Z) (n : nat) : list Z :=
  map (fun k => id + Z.of_nat k) (seq 0 n).

(** The word windows of a list of chunks. *)
Definition windows (chunks : list Chunk) : list (Z * Z) :=
  map (fun chunk => (start_word chunk, end_word chunk)) chunks.

(** The row [insert_documents] builds from a document that has the five
    keys. *)
Definition truncated (document_id : str) (page_number chunk_id : Z) (text : str)
    (embedding : list number) : MilvusClient.Entity :=
  {| MilvusClient.e_document_id := firstn 100 document_id;
     MilvusClient.e_page_number := page_number;
     MilvusClient.e_chunk_id := chunk_id;
     MilvusClient.e_text := firstn (Z.to_nat Config.MAX_TEXT_LENGTH) text;
     MilvusClient.e_embedding := embedding |}.

Definition complete (document_id : str) (page_number chunk_id : Z) (text : str)
    (embedding : list number) : MilvusClient.Document :=
  {| MilvusClient.d_document_id := Some document_id;
     MilvusClient.d_page_number := Some page_number;
     MilvusClient.d_chunk_id := Some chunk_id;
     MilvusClient.d_text := Some text;
     MilvusClient.d_embedding := Some embedding |}.

(** The schema [create_collection] asks for. *)
Definition expected_schema (self : MilvusClient.t) : MilvusClient.CollectionSchema :=
  {| MilvusClient.fields := MilvusClient.expected_fields self;
     MilvusClient.description := "PDF document chunks with embeddings" |}.

(** The number of rows in the collection a client is bound to. *)
Definition row_count (self : MilvusClient.t)
    (server : gmap string MilvusClient.Collection) : Z :=
  match MilvusClient.collection self with
  | Some handle =>
      match server !! handle with
      | Some c => len (MilvusClient.entities c)
      | None => 0
      end
  | None => 0
  end.

(** A chunk with an embedding attached. *)
Definition embedded (chunk chunk' : Chunk) : Prop :=
  exists e, chunk' = PDFToMilvusBatch.set_embedding chunk e.

Section Batches.
Context `{EmbeddingGenerator.Model}.

(** What one sub-batch contributes: the chunks paired with the vectors the
    collaborator returned, and the warnings for the unmatched tail. *)
Definition kept_of (batch : list Chunk) : list Chunk :=
  zip_with PDFToMilvusBatch.set_embedding batch
    (EmbeddingGenerator.generate_embeddings (map text batch)).

Definition warned_of (batch : list Chunk) : list PDFToMilvusBatch.warning :=
  map (fun chunk => PDFToMilvusBatch.MissingEmbedding (chunk_id chunk))
    (drop (length (EmbeddingGenerator.generate_embeddings (map text batch))) batch).

End Batches.

(** The chunks of a text cut without overlap: window [k] covers the words
    from [k * chunk_size] up to [chunk_size] further, or to the last word. *)
Definition tiles (self : PDFProcessor.t) (words : list str) (chunk_id : Z)
    (first count : nat) : list Chunk :=
  map (fun k =>
         let start := Z.of_nat k * chunk_size self in
         let end_ := Z.min (start + chunk_size self) (len words) in
         new_chunk (chunk_id + Z.of_nat k) (join [SPACE] (slice words start end_))
           start end_)
    (seq first count).

(** A document has all five keys [insert_documents] reads. *)
Definition is_complete (doc : MilvusClient.Document) : bool :=
  match MilvusClient.d_document_id doc, MilvusClient.d_page_number doc,
        MilvusClient.d_chunk_id doc, MilvusClient.d_text doc,
        MilvusClient.d_embedding doc with
  | Some _, Some _, Some _, Some _, Some _ => true
  | _, _, _, _, _ => false
  end.

(** The rows of the collection a client is bound to. *)
Definition rows_of (self : MilvusClient.t)
    (server : gmap string MilvusClient.Collection) : list MilvusClient.Entity :=
  match MilvusClient.collection self with
  | Some handle =>
      match server !! handle with
      | Some c => MilvusClient.entities c
      | None => []
      end
  | None => []
  end.

(** The view of a list processor as a streaming one. *)
Definition streaming_of (self : PDFProcessor.t) : Streaming.t :=
  {| Streaming.chunk_size := chunk_size self;
     Streaming.chunk_overlap := chunk_overlap self;
     Streaming.max_pages_per_batch := 5;
     Streaming.max_memory_mb := 500 |}.

(** [server'] holds what [server] holds and possibly more rows: the same
    collection names, each with its schema, its index and its old rows
    first. *)
Definition extends (server server' : gmap string MilvusClient.Collection) : Prop :=
  forall name,
    match server !! name, server' !! name with
    | Some c, Some c' =>
        MilvusClient.schema c' = MilvusClient.schema c /\
        MilvusClient.index c' = MilvusClient.index c /\
        exists rows, MilvusClient.entities c' = MilvusClient.entities c ++ rows
    | None, None => True
    | _, _ => False
    end.

(** The chunks [process_pdf_page_by_page] cuts a page into: none for a page
    that cannot be read or that is blank after cleaning. *)
Definition page_chunks `{UnicodeDB} `{PDFPageProcessor.TextSplitter} (page : Fitz.Page)
    : list str :=
  match Fitz.get_text page with
  | None => []
  | Some text =>
      let text := PDFPageProcessor._clean_text text in
      if truthy (strip text) then PDFPageProcessor._chunk_text_langchain text 0 else []
  end.

(** The document id the batch pipeline works with: the one given, or a fresh
    UUID when none (or the empty string) is given. *)
Definition effective_id `{Runtime} (document_id : option str) : str :=
  match document_id with
  | Some (_ :: _ as id) => id
  | _ => uuid4
  end.

(** A chunk as [process_pdf] returns it carries its document and page. *)
Definition tagged (chunk : Chunk) : Prop :=
  (exists d, document_id chunk = Some d) /\ (exists p, page_number chunk = Some p).

(** The row [insert_documents] builds from a tagged chunk with an
    embedding. *)
Definition row_of (chunk : Chunk) : MilvusClient.Entity :=
  truncated (default [] (document_id chunk)) (default 0 (page_number chunk))
    (chunk_id chunk) (text chunk) (PDFToMilvusBatch.get_embedding chunk).


End Notions.

Import Notions.

(** ** Sample inputs for the properties that are run *)

Module Samples.

Import PDFProcessor MilvusClient PDFToMilvusBatch.

(** A server holding a collection of the pipeline's name with a single
    field and one row. *)
Definition legacy_server : gmap string MilvusClient.Collection :=
  {[ Config.COLLECTION_NAME :=
       {| schema := {| fields := [ {| name := "id"; dtype := INT64; is_primary := true;
                                      auto_id := true; max_length := None;
                                      dim := None |} ];
                       description := "legacy" |};
          entities := [truncated (of_string "old") 1 0 (of_string "row") []];
          index := None |} ]}.

(** A document with all five keys, an id of 120 characters and a text of
    9000. *)
Definition long_document : Document :=
  complete (repeat 100%N 120) 1 0 (repeat 116%N (Z.to_nat 9000)) [PyFloat 1%float].

(** Five chunks, and a pipeline that embeds them in sub-batches of four. *)
Definition sample_chunks : list Chunk :=
  map (fun k => new_chunk k (of_string "text") 0 1) [10; 11; 12; 13; 14].

Definition small_batches : PDFToMilvusBatch.t :=
  {| milvus_client := Fixtures.ready_client;
     pdf_processor := PDFProcessor.init;
     batch_size := 100;
     embedding_batch_size := 4 |}.

(** One page of 1001 one-letter words. *)
Definition long_doc : list Fitz.Page :=
  [ {| Fitz.get_text := Some (words_text 1001);
       Fitz.rect_width := 612%float; Fitz.rect_height := 792%float |} ].

End Samples.

Import Samples.

(** * Properties *)

(** ** Strings *)

Module PyFacts.

Lemma isspace_SPACE : isspace SPACE = true.
Proof. reflexivity. Qed.

Lemma split_cons_space c s : isspace c = true -> split (c :: s) = split s.
Proof. intros Hc. cbn [split]. now rewrite Hc. Qed.

Lemma split_cons_nonspace c s :
  isspace c = false ->
  split (c :: s) =
    match s with
    | [] => [[c]]
    | d :: _ => if isspace d then [c] :: split s
                else match split s with w :: ws => (c :: w) :: ws | [] => [[c]] end
    end.
Proof. intros Hc. cbn [split]. now rewrite Hc. Qed.

Lemma nonblank_cons_inv c w :
  nonblank (c :: w) -> isspace c = false /\ (w = [] \/ nonblank w).
Proof.
  intros [_ Hall]. cbn [forallb] in Hall.
  apply andb_true_iff in Hall as [Hc Hw].
  split; [now destruct (isspace c)|].
  destruct w as [|d w]; [now left|right]. split; [discriminate|exact Hw].
Qed.

Lemma nonblank_head w : nonblank w -> exists c w', w = c :: w' /\ isspace c = false.
Proof.
  destruct w as [|c w]; intros Hw; [now destruct Hw|].
  apply nonblank_cons_inv in Hw as [Hc _]. eauto.
Qed.

(** Splitting a word followed by a space and a rest. *)
Lemma split_word_space w r : nonblank w -> split (w ++ SPACE :: r) = w :: split r.
Proof.
  induction w as [|c w IH]; intros Hw; [now destruct Hw|].
  apply nonblank_cons_inv in Hw as [Hc [-> | Hw]].
  - cbn [app]. rewrite (split_cons_nonspace _ _ Hc), isspace_SPACE.
    now rewrite (split_cons_space _ _ isspace_SPACE).
  - destruct (nonblank_head _ Hw) as (d & w' & -> & Hd).
    cbn [app] in *. rewrite (split_cons_nonspace _ _ Hc), Hd.
    now rewrite (IH Hw).
Qed.

Lemma split_word w : nonblank w -> split w = [w].
Proof.
  induction w as [|c w IH]; intros Hw; [now destruct Hw|].
  apply nonblank_cons_inv in Hw as [Hc [-> | Hw]].
  - now rewrite (split_cons_nonspace _ _ Hc).
  - destruct (nonblank_head _ Hw) as (d & w' & -> & Hd).
    rewrite (split_cons_nonspace _ _ Hc), Hd. now rewrite (IH Hw).
Qed.

Lemma join_cons2 sep w w' ws :
  join sep (w :: w' :: ws) = w ++ sep ++ join sep (w' :: ws).
Proof. reflexivity. Qed.

(** [split] undoes [join] on words. *)
Lemma split_join ws : Forall nonblank ws -> split (join [SPACE] ws) = ws.
Proof.
  induction 1 as [|w ws Hw Hws IH]; [reflexivity|].
  destruct ws as [|w' ws]; [now apply split_word|].
  rewrite join_cons2. cbn [app]. rewrite (split_word_space _ _ Hw). now rewrite IH.
Qed.

(** Every element of [split s] is a word. *)
Lemma split_nonblank s : Forall nonblank (split s).
Proof.
  induction s as [|c s IH]; [constructor|].
  destruct (isspace c) eqn:Hc; [now rewrite (split_cons_space _ _ Hc)|].
  rewrite (split_cons_nonspace _ _ Hc).
  assert (H1 : nonblank [c]) by (split; [discriminate|cbn; now rewrite Hc]).
  destruct s as [|d s]; [now constructor|].
  destruct (isspace d) eqn:Hd; [now constructor|].
  destruct (split (d :: s)) as [|w ws]; [now constructor|].
  inversion IH as [|? ? [Hne Hall] Hws]; subst. constructor; [|exact Hws].
  split; [discriminate|]. cbn [forallb]. now rewrite Hc, Hall.
Qed.

(** [split] invents no character. *)
Lemma split_chars (P : char -> Prop) s : Forall P s -> Forall (Forall P) (split s).
Proof.
  induction s as [|c s IH]; intros Hs; [constructor|].
  inversion Hs as [|? ? Hc Hs']; subst. specialize (IH Hs').
  cbn [split]. destruct (isspace c); [exact IH|].
  destruct s as [|d s]; [now repeat constructor|].
  destruct (isspace d); [constructor; [now repeat constructor|exact IH]|].
  destruct (split (d :: s)) as [|w ws]; [now repeat constructor|].
  inversion IH; subst. constructor; [now constructor|assumption].
Qed.

(** Words joined by single spaces start and end with a non-space. *)
Lemma join_head w ws :
  Forall nonblank (w :: ws) ->
  exists c r, join [SPACE] (w :: ws) = c :: r /\ isspace c = false.
Proof.
  intros Hws. inversion Hws as [|? ? Hw _]; subst.
  destruct (nonblank_head _ Hw) as (c & w' & -> & Hc).
  destruct ws; cbn [join app]; eauto.
Qed.

Lemma nonblank_last w : nonblank w -> exists r c, w = r ++ [c] /\ isspace c = false.
Proof.
  intros [Hne Hall]. destruct (exists_last Hne) as (r & c & ->).
  exists r, c. split; [reflexivity|].
  rewrite forallb_app in Hall. apply andb_true_iff in Hall as [_ Hc].
  cbn in Hc. now destruct (isspace c).
Qed.

Lemma join_last w ws :
  Forall nonblank (w :: ws) ->
  exists r c, join [SPACE] (w :: ws) = r ++ [c] /\ isspace c = false.
Proof.
  revert w. induction ws as [|w' ws IH]; intros w Hws;
    inversion Hws as [|? ? Hw Hws']; subst.
  - now apply nonblank_last.
  - destruct (IH _ Hws') as (r & c & Hj & Hc).
    exists (w ++ [SPACE] ++ r), c. split; [|exact Hc].
    rewrite join_cons2, Hj. now rewrite <- !app_assoc.
Qed.

Lemma lstrip_nonspace c s : isspace c = false -> lstrip (c :: s) = c :: s.
Proof. intros Hc. cbn [lstrip]. now rewrite Hc. Qed.

Lemma rstrip_nonspace r c : isspace c = false -> rstrip (r ++ [c]) = r ++ [c].
Proof.
  intros Hc. unfold rstrip, rev'. rewrite <- !rev_alt, rev_app_distr. cbn [rev app].
  rewrite (lstrip_nonspace _ _ Hc). cbn [rev]. now rewrite rev_involutive.
Qed.

Lemma strip_join ws : Forall nonblank ws -> strip (join [SPACE] ws) = join [SPACE] ws.
Proof.
  intros Hws. destruct ws as [|w ws]; [reflexivity|]. unfold strip.
  destruct (join_head _ _ Hws) as (c & r & Hj & Hc).
  rewrite Hj, (lstrip_nonspace _ _ Hc), <- Hj.
  destruct (join_last _ _ Hws) as (r' & c' & Hj' & Hc').
  rewrite Hj'. now apply rstrip_nonspace.
Qed.

(** [re.sub(r'\s+', ' ', s)] leaves single spaces between words alone. *)
Lemma re_sub_whitespace_word w r :
  forallb (fun c => negb (isspace c)) w = true ->
  re_sub_whitespace (w ++ r) = w ++ re_sub_whitespace r.
Proof.
  induction w as [|c w IH]; intros Hall; [reflexivity|].
  cbn [forallb] in Hall. apply andb_true_iff in Hall as [Hc Hw].
  cbn [app re_sub_whitespace]. destruct (isspace c); [discriminate|].
  now rewrite (IH Hw).
Qed.

Lemma re_sub_whitespace_join ws :
  Forall nonblank ws -> re_sub_whitespace (join [SPACE] ws) = join [SPACE] ws.
Proof.
  induction 1 as [|w ws Hw Hws IH]; [reflexivity|].
  destruct ws as [|w' ws].
  - cbn [join]. rewrite <- (app_nil_r w) at 1.
    rewrite (re_sub_whitespace_word _ _ (proj2 Hw)). cbn. now rewrite app_nil_r.
  - rewrite join_cons2, (re_sub_whitespace_word _ _ (proj2 Hw)).
    destruct (join_head _ _ Hws) as (c & r & Hj & Hc).
    cbn [app]. rewrite Hj in IH |- *. cbn [re_sub_whitespace] in IH |- *.
    rewrite isspace_SPACE, Hc in *. now rewrite IH.
Qed.

Lemma join_Forall (P : char -> Prop) ws :
  P SPACE -> Forall (Forall P) ws -> Forall P (join [SPACE] ws).
Proof.
  intros Hsp. induction 1 as [|w ws Hw Hws IH]; [constructor|].
  destruct ws as [|w' ws]; [exact Hw|].
  rewrite join_cons2. apply Forall_app. split; [exact Hw|].
  constructor; [exact Hsp|exact IH].
Qed.

Lemma filter_all {A} (f : A -> bool) l :
  Forall (fun x => f x = true) l -> List.filter f l = l.
Proof.
  induction 1 as [|x l Hx _ IH]; [reflexivity|].
  cbn [List.filter]. now rewrite Hx, IH.
Qed.

Lemma filter_Forall {A} (f : A -> bool) l :
  Forall (fun x => f x = true) (List.filter f l).
Proof.
  induction l as [|x l IH]; [constructor|].
  cbn [List.filter]. destruct (f x) eqn:Hx; [now constructor|exact IH].
Qed.

End PyFacts.

(** ** The text cleaner *)

Module CleanerFacts.

Import PyFacts PDFProcessor.

Section Cleaner.
Context `{UnicodeDB}.

Lemma kept_SPACE : kept SPACE = true.
Proof. unfold kept. rewrite isspace_SPACE. now destruct (isword SPACE). Qed.

(** The cleaner's output is a list of kept-character words joined by single
    spaces. *)
Lemma clean_text_words text :
  exists ws,
    Forall nonblank ws /\ Forall (Forall (fun c => kept c = true)) ws /\
    _clean_text text = join [SPACE] ws.
Proof.
  exists (split (List.filter kept (re_sub_whitespace text))).
  split; [apply split_nonblank|]. split; [apply split_chars, filter_Forall|].
  unfold _clean_text. apply strip_join, split_nonblank.
Qed.

(** On such a text the cleaner changes nothing. *)
Lemma clean_text_join ws :
  Forall nonblank ws -> Forall (Forall (fun c => kept c = true)) ws ->
  _clean_text (join [SPACE] ws) = join [SPACE] ws.
Proof.
  intros Hws Hkept. unfold _clean_text.
  rewrite (re_sub_whitespace_join _ Hws).
  rewrite filter_all by (apply join_Forall; [apply kept_SPACE|exact Hkept]).
  rewrite (split_join _ Hws). now apply strip_join.
Qed.

Lemma strip_clean_text text : strip (_clean_text text) = _clean_text text.
Proof.
  destruct (clean_text_words text) as (ws & Hws & _ & ->). now apply strip_join.
Qed.

(** The page processor's cleaner differs by a guard on the empty text only. *)
Lemma page_clean_text text : PDFPageProcessor._clean_text text = _clean_text text.
Proof. now destruct text. Qed.

End Cleaner.

Example clean_text_sample :
  _clean_text (H := Fixtures.ascii_db) (of_string "  Hello,   w@rld #1!  ")
  = of_string "Hello, wrld 1!".
Proof. reflexivity. Qed.

(** C9.  The text-cleaning function is idempotent: cleaning a cleaned text
    gives it back, for [PDFProcessor._clean_text] and for
    [PDFPageProcessor._clean_text] alike. *)
Theorem clean_text_idempotent `{UnicodeDB} (t : str) :
  PDFProcessor._clean_text (PDFProcessor._clean_text t) = PDFProcessor._clean_text t /\
  PDFPageProcessor._clean_text (PDFPageProcessor._clean_text t)
    = PDFPageProcessor._clean_text t.
Proof.
  assert (Hidem : _clean_text (_clean_text t) = _clean_text t).
  { destruct (clean_text_words t) as (ws & Hws & Hkept & ->).
    now apply clean_text_join. }
  split; [exact Hidem|]. now rewrite !page_clean_text.
Qed.

End CleanerFacts.

(** ** The chunker *)

Module ChunkerFacts.

Import PyFacts PDFProcessor.

Lemma split_words_text n : split (words_text n) = repeat (of_string "w") n.
Proof.
  apply split_join, List.Forall_forall. intros w Hw.
  apply repeat_spec in Hw as ->. split; [discriminate|reflexivity].
Qed.

Lemma len_split_words_text n : len (split (words_text n)) = Z.of_nat n.
Proof. unfold len. now rewrite split_words_text, repeat_length. Qed.

(** A text of at most [chunk_size] words is one chunk, whatever the fuel. *)
Lemma chunk_text_short fuel self text chunk_id :
  len (split text) <= chunk_size self ->
  chunk_text fuel self text chunk_id
    = Some [new_chunk chunk_id text 0 (len (split text))].
Proof.
  intros Hle. unfold chunk_text.
  now destruct (Z.leb_spec (len (split text)) (chunk_size self)); [|lia].
Qed.

(** Inside the loop [start] never reaches [len(words)] when the overlap is
    positive: the window's end is clamped to [len(words)], and the next start
    is that end minus the overlap. *)
Lemma chunk_loop_diverges fuel self words chunk_id start chunks :
  0 < chunk_overlap self ->
  start < len words ->
  chunk_loop fuel self words chunk_id start chunks = None.
Proof.
  intros Hcfg. revert start chunks.
  induction fuel as [|fuel IH]; intros start chunks Hstart; [reflexivity|].
  cbn [chunk_loop].
  destruct (Z.ltb_spec start (len words)); [|lia].
  destruct (Z.geb_spec (Z.min (start + chunk_size self) (len words) - chunk_overlap self)
              (len words)); [lia|].
  apply IH. lia.
Qed.

Lemma chunk_text_diverges fuel self text chunk_id :
  0 < chunk_overlap self < chunk_size self ->
  chunk_size self < len (split text) ->
  chunk_text fuel self text chunk_id = None.
Proof.
  intros Hcfg Hlong. unfold chunk_text.
  destruct (Z.leb_spec (len (split text)) (chunk_size self)); [lia|].
  apply chunk_loop_diverges; lia.
Qed.

(** The identifiers the loop hands out continue the ones it was given. *)
Lemma chunk_loop_ids fuel self words chunk_id start chunks out :
  map PDFProcessor.chunk_id chunks = ids_from chunk_id (length chunks) ->
  chunk_loop fuel self words chunk_id start chunks = Some out ->
  map PDFProcessor.chunk_id out = ids_from chunk_id (length out).
Proof.
  revert start chunks.
  induction fuel as [|fuel IH]; intros start chunks Hids Hrun; [discriminate|].
  cbn [chunk_loop] in Hrun.
  destruct (start <? len words); [|now inversion Hrun; subst].
  set (end_ := Z.min (start + chunk_size self) (len words)) in *.
  set (c := new_chunk _ _ _ _) in *.
  assert (Hids' : map PDFProcessor.chunk_id (chunks ++ [c])
                  = ids_from chunk_id (length (chunks ++ [c]))).
  { rewrite map_app, Hids, length_app, Nat.add_1_r. unfold ids_from.
    rewrite seq_S, map_app. reflexivity. }
  destruct (end_ - chunk_overlap self >=? len words).
  - now inversion Hrun; subst.
  - exact (IH _ _ Hids' Hrun).
Qed.

Lemma chunk_text_ids fuel self text chunk_id out :
  chunk_text fuel self text chunk_id = Some out ->
  map PDFProcessor.chunk_id out = ids_from chunk_id (length out).
Proof.
  unfold chunk_text. destruct (len (split text) <=? chunk_size self).
  - intros [= <-]. cbn. unfold ids_from. cbn. now rewrite Z.add_0_r.
  - now apply chunk_loop_ids.
Qed.

(** The generator variant: a text with a word is not blank. *)
Lemma lstrip_nil s : lstrip s = [] -> Forall (fun c => isspace c = true) s.
Proof.
  induction s as [|c s IH]; [constructor|]. cbn [lstrip].
  destruct (isspace c) eqn:Hc; [|discriminate]. intros Hs. constructor; auto.
Qed.

Lemma split_spaces s : Forall (fun c => isspace c = true) s -> split s = [].
Proof.
  induction 1 as [|c s Hc _ IH]; [reflexivity|]. now rewrite (split_cons_space _ _ Hc).
Qed.

Lemma split_lstrip s : split (lstrip s) = split s.
Proof.
  induction s as [|c s IH]; [reflexivity|]. cbn [lstrip].
  destruct (isspace c) eqn:Hc; [|reflexivity]. now rewrite (split_cons_space _ _ Hc).
Qed.

Lemma strip_nil_split s : strip s = [] -> split s = [].
Proof.
  unfold strip, rstrip, rev'. rewrite <- !rev_alt. intros Hs.
  assert (Hl : lstrip (rev (lstrip s)) = []).
  { rewrite <- (rev_involutive (lstrip (rev (lstrip s)))), Hs. reflexivity. }
  apply lstrip_nil, List.Forall_rev in Hl. rewrite rev_involutive in Hl.
  rewrite <- split_lstrip. now apply split_spaces.
Qed.

(** Once suspended inside the loop, the generator yields at every [next]. *)
Lemma collect_loop_diverges fuel self text chunk_id start end_ chunk_counter :
  0 < Streaming.chunk_overlap self ->
  end_ <= len (split text) ->
  Streaming.collect fuel self text chunk_id (Streaming.AtLoopYield start end_ chunk_counter) = None.
Proof.
  intros Hcfg. revert start end_ chunk_counter.
  induction fuel as [|fuel IH]; intros start end_ chunk_counter Hend; [reflexivity|].
  cbn [Streaming.collect Streaming.next].
  destruct (Z.geb_spec (end_ - Streaming.chunk_overlap self) (len (split text))); [lia|].
  unfold Streaming.loop_test.
  destruct (Z.ltb_spec (end_ - Streaming.chunk_overlap self) (len (split text))); [|lia].
  rewrite IH; [reflexivity|lia].
Qed.

Lemma chunk_text_streaming_diverges fuel self text chunk_id :
  0 < Streaming.chunk_overlap self < Streaming.chunk_size self ->
  Streaming.chunk_size self < len (split text) ->
  Streaming.chunk_text_streaming fuel self text chunk_id = None.
Proof.
  intros Hcfg Hlong. unfold Streaming.chunk_text_streaming.
  destruct fuel as [|fuel]; [reflexivity|]. cbn [Streaming.collect Streaming.next].
  destruct (strip text) eqn:Hstrip.
  { apply strip_nil_split in Hstrip. rewrite Hstrip in Hlong. change (len (@nil str)) with 0 in Hlong. lia. }
  cbn [truthy negb].
  destruct (Z.leb_spec (len (split text)) (Streaming.chunk_size self)); [lia|].
  unfold Streaming.loop_test.
  destruct (Z.ltb_spec 0 (len (split text))); [|lia].
  rewrite collect_loop_diverges; [reflexivity|lia|lia].
Qed.

(** C2.  Under the precondition [0 < chunk_overlap < chunk_size] (the shipped
    configuration has 200 and 1000) chunking does not terminate on a text of
    more than [chunk_size] words: whatever the fuel, [chunk_text] has not
    returned, and [list(chunk_text_streaming(...))] has not seen the
    generator stop. *)
Theorem chunking_never_returns (fuel : nat) (chunk_size chunk_overlap : Z)
    (text : str) (chunk_id : Z) :
  0 < chunk_overlap < chunk_size ->
  chunk_size < len (split text) ->
  PDFProcessor.chunk_text fuel
    {| PDFProcessor.chunk_size := chunk_size;
       PDFProcessor.chunk_overlap := chunk_overlap |} text chunk_id = None /\
  Streaming.chunk_text_streaming fuel
    {| Streaming.chunk_size := chunk_size;
       Streaming.chunk_overlap := chunk_overlap;
       Streaming.max_pages_per_batch := 5;
       Streaming.max_memory_mb := 500 |} text chunk_id = None.
Proof.
  intros Hcfg Hlong. split.
  - now apply chunk_text_diverges.
  - now apply chunk_text_streaming_diverges.
Qed.

Lemma chunking_never_returns_witness :
  0 < Config.CHUNK_OVERLAP < Config.CHUNK_SIZE /\
  Config.CHUNK_SIZE < len (split (words_text 1001)) /\
  PDFProcessor.chunk_text 5000 PDFProcessor.init (words_text 1001) 0 = None /\
  Streaming.chunk_text_streaming 5000 Streaming.init (words_text 1001) 0 = None.
Proof.
  assert (Hcfg : 0 < Config.CHUNK_OVERLAP < Config.CHUNK_SIZE) by (split; reflexivity).
  assert (Hlong : Config.CHUNK_SIZE < len (split (words_text 1001)))
    by (vm_compute; reflexivity).
  split; [exact Hcfg|]. split; [exact Hlong|].
  exact (chunking_never_returns 5000 Config.CHUNK_SIZE Config.CHUNK_OVERLAP
           (words_text 1001) 0 Hcfg Hlong).
Defined.

(** Without overlap the loop does stop: five words in windows of two. *)
Example chunk_text_without_overlap :
  option_map windows
    (chunk_text 10 {| chunk_size := 2; chunk_overlap := 0 |} (of_string "a b c d e") 7)
  = Some [(0, 2); (2, 4); (4, 5)].
Proof. reflexivity. Qed.

(** C1.  A text of at most [chunk_size] words is exactly one chunk over all
    its words; with [CHUNK_SIZE = 1000] and [CHUNK_OVERLAP = 200] a 1000-word
    text is one chunk over words [0, 1000).  On a 1001-word text [chunk_text]
    never returns, and the loop (read off the generator, which runs the same
    loop) emits the windows [0, 1000), [800, 1001) and then [801, 1001) again
    and again, instead of stopping after the second. *)
Theorem chunk_text_at_the_boundary :
  (forall fuel self text chunk_id,
     len (split text) <= chunk_size self ->
     PDFProcessor.chunk_text fuel self text chunk_id
       = Some [new_chunk chunk_id text 0 (len (split text))]) /\
  (forall fuel,
     PDFProcessor.chunk_text fuel PDFProcessor.init (words_text 1000) 0
       = Some [new_chunk 0 (words_text 1000) 0 1000]) /\
  (forall fuel,
     PDFProcessor.chunk_text fuel PDFProcessor.init (words_text 1001) 0 = None) /\
  windows (Streaming.islice 5 Streaming.init (words_text 1001) 0 Streaming.NotStarted)
    = [(0, 1000); (800, 1001); (801, 1001); (801, 1001); (801, 1001)].
Proof.
  split; [exact chunk_text_short|]. split; [|split].
  - intros fuel. rewrite chunk_text_short; rewrite len_split_words_text.
    + reflexivity.
    + discriminate.
  - intros fuel. apply chunk_text_diverges; [split; reflexivity|].
    rewrite len_split_words_text. reflexivity.
  - vm_compute. reflexivity.
Qed.

End ChunkerFacts.

(** ** Page extraction *)

Module ExtractionFacts.

Import PyFacts CleanerFacts PDFProcessor.

Section Extraction.
Context `{UnicodeDB}.

Lemma streaming_clean_text text : Streaming._clean_text text = _clean_text text.
Proof. now destruct text. Qed.

Lemma truthy_strip_clean_text text :
  truthy (strip (_clean_text text)) = true <-> _clean_text text <> [].
Proof. rewrite strip_clean_text. now destruct (_clean_text text). Qed.

(** A page that raises makes the whole loop of [extract_text_from_pdf]
    raise. *)
Lemma extract_pages_raises doc page_num pages :
  Exists (fun page => Fitz.get_text page = None) doc ->
  extract_pages doc page_num pages = None.
Proof.
  intros Hex. revert page_num pages.
  induction Hex as [page rest Hpage|page rest _ IH]; intros page_num pages;
    cbn [extract_pages].
  - now rewrite Hpage.
  - destruct (Fitz.get_text page); [apply IH|reflexivity].
Qed.

(** When no page raises, the loop collects exactly the pages the streaming
    extractor yields. *)
Lemma extract_pages_readable doc page_num pages :
  Forall (fun page => Fitz.get_text page <> None) doc ->
  extract_pages doc page_num pages
    = Some (pages ++ Streaming.streaming_pages doc page_num).
Proof.
  intros Hdoc. revert page_num pages.
  induction Hdoc as [|page rest Hpage _ IH]; intros page_num pages;
    cbn [extract_pages Streaming.streaming_pages].
  - now rewrite app_nil_r.
  - destruct (Fitz.get_text page) as [raw|]; [|congruence].
    rewrite streaming_clean_text, IH.
    destruct (truthy (strip (_clean_text raw))); [|reflexivity].
    now rewrite <- app_assoc.
Qed.

(** The streaming extractor yields page [i + 1] exactly when page [i] can be
    read and its cleaned text is not empty. *)
Lemma streaming_pages_In doc page_num p :
  In p (Streaming.streaming_pages doc page_num) <->
  exists (i : nat) page raw,
    doc !! i = Some page /\ Fitz.get_text page = Some raw /\
    _clean_text raw <> [] /\
    p = new_page (page_num + Z.of_nat i + 1) (_clean_text raw) page.
Proof.
  revert page_num. induction doc as [|page rest IH]; intros page_num.
  { cbn. split; [tauto|]. now intros (i & ? & ? & Hi & _). }
  assert (Hrest : In p (Streaming.streaming_pages rest (page_num + 1)) <->
            exists (i : nat) page' raw,
              (page :: rest) !! S i = Some page' /\ Fitz.get_text page' = Some raw /\
              _clean_text raw <> [] /\
              p = new_page (page_num + Z.of_nat (S i) + 1) (_clean_text raw) page').
  { rewrite IH. split; intros (i & page' & raw & Hi & Hraw & Hne & ->);
      exists i, page', raw; repeat split; try assumption; f_equal; lia. }
  cbn [Streaming.streaming_pages].
  destruct (Fitz.get_text page) as [raw0|] eqn:Hraw0.
  - rewrite streaming_clean_text.
    destruct (truthy (strip (_clean_text raw0))) eqn:Htruthy.
    + apply truthy_strip_clean_text in Htruthy. cbn [In]. rewrite Hrest. split.
      * intros [<- | (i & ?)]; [|now exists (S i)].
        exists 0%nat, page, raw0. repeat split; try assumption. f_equal. lia.
      * intros ([|i] & page' & raw & Hi & Hraw & Hne & ->);
          [left|right; now exists i, page', raw].
        cbn in Hi. inversion Hi; subst page'.
        rewrite Hraw0 in Hraw. inversion Hraw; subst raw. f_equal. lia.
    + rewrite Hrest. split; [intros (i & ?); now exists (S i)|].
      intros ([|i] & page' & raw & Hi & Hraw & Hne & ->); [|now exists i, page', raw].
      cbn in Hi. inversion Hi; subst page'.
      rewrite Hraw0 in Hraw. inversion Hraw; subst raw.
      apply truthy_strip_clean_text in Hne. congruence.
  - rewrite Hrest. split; [intros (i & ?); now exists (S i)|].
    intros ([|i] & page' & raw & Hi & Hraw & Hne & ->); [|now exists i, page', raw].
    cbn in Hi. inversion Hi; subst page'. congruence.
Qed.

(** It yields them in ascending page order. *)
Lemma streaming_pages_sorted doc page_num :
  StronglySorted Z.lt (map pt_page_number (Streaming.streaming_pages doc page_num)) /\
  Forall (fun k => page_num < k) (map pt_page_number (Streaming.streaming_pages doc page_num)).
Proof.
  revert page_num. induction doc as [|page rest IH]; intros page_num.
  { cbn. split; constructor. }
  destruct (IH (page_num + 1)) as [Hsorted Hlarger].
  assert (Hweaker : Forall (fun k => page_num < k)
                      (map pt_page_number (Streaming.streaming_pages rest (page_num + 1)))).
  { eapply List.Forall_impl; [|exact Hlarger]. cbn. intros. lia. }
  cbn [Streaming.streaming_pages].
  destruct (Fitz.get_text page); [|now split].
  destruct (truthy _); [|now split].
  cbn [map new_page pt_page_number]. split.
  - constructor; [exact Hsorted|exact Hlarger].
  - constructor; [lia|exact Hweaker].
Qed.

End Extraction.

End ExtractionFacts.

(** ** From pages to chunks: [process_pdf] *)

Module ProcessFacts.

Import PyFacts CleanerFacts ChunkerFacts ExtractionFacts PDFProcessor.

Lemma map_seq_from {A} (f : nat -> A) n m :
  map f (seq n m) = map (fun k => f (n + k)%nat) (seq 0 m).
Proof.
  revert f n. induction m as [|m IH]; intros f n; [reflexivity|].
  cbn [seq map]. rewrite Nat.add_0_r. f_equal.
  rewrite (IH f (S n)), (IH (fun k => f (n + k)%nat) 1%nat).
  apply map_ext. intros k. f_equal. lia.
Qed.

Lemma ids_from_app id n m :
  ids_from id n ++ ids_from (id + Z.of_nat n) m = ids_from id (n + m).
Proof.
  unfold ids_from. rewrite seq_app, map_app. f_equal.
  cbn [Nat.add]. rewrite (map_seq_from _ n m).
  apply map_ext. intros k. lia.
Qed.

Lemma ids_from_sorted id n :
  StronglySorted Z.lt (ids_from id n) /\ Forall (fun k => id <= k) (ids_from id n).
Proof.
  revert id. induction n as [|n IH]; intros id; [split; constructor|].
  unfold ids_from. cbn [seq map]. rewrite (map_seq_from _ 1 n).
  destruct (IH (id + 1)) as [Hsorted Hlarger].
  assert (Heq : map (fun k => id + Z.of_nat (1 + k)) (seq 0 n) = ids_from (id + 1) n).
  { apply map_ext. intros k. lia. }
  rewrite Heq. split.
  - constructor; [exact Hsorted|].
    eapply List.Forall_impl; [|exact Hlarger]. cbn. intros. lia.
  - constructor; [lia|].
    eapply List.Forall_impl; [|exact Hlarger]. cbn. intros. lia.
Qed.

Lemma update_chunk_ids document_id page chunks :
  map chunk_id (map (fun chunk => update chunk document_id page) chunks)
    = map chunk_id chunks.
Proof. rewrite map_map. now apply map_ext. Qed.

(** [process_pdf] numbers the chunks of a document 0, 1, 2, ... in the order
    it appends them: page after page, window after window. *)
Lemma process_pages_ids fuel self document_id pages chunk_counter all_chunks out :
  map chunk_id all_chunks = ids_from 0 (length all_chunks) ->
  chunk_counter = len all_chunks ->
  process_pages fuel self document_id pages chunk_counter all_chunks = Some out ->
  map chunk_id out = ids_from 0 (length out).
Proof.
  revert chunk_counter all_chunks.
  induction pages as [|page rest IH]; intros chunk_counter all_chunks Hids Hcount Hrun;
    cbn [process_pages] in Hrun.
  { now inversion Hrun; subst. }
  destruct (chunk_text fuel self (pt_text page) chunk_counter) as [page_chunks|] eqn:Hpage;
    [|discriminate].
  apply chunk_text_ids in Hpage.
  refine (IH _ _ _ _ Hrun).
  - rewrite map_app, update_chunk_ids, Hids, Hpage, length_app, length_map.
    subst chunk_counter. apply (ids_from_app 0).
  - subst chunk_counter. unfold len. rewrite length_app, length_map. lia.
Qed.

Lemma process_pdf_ids `{UnicodeDB} fuel self fs pdf_path document_id chunks :
  process_pdf fuel self fs pdf_path document_id = Some chunks ->
  map chunk_id chunks = ids_from 0 (length chunks).
Proof.
  unfold process_pdf. destruct (negb (truthy _)).
  - now intros [= <-].
  - now apply process_pages_ids.
Qed.

(** Every chunk carries the number of the page it was cut from. *)
Lemma process_pages_page_numbers fuel self document_id pages chunk_counter all_chunks out :
  process_pages fuel self document_id pages chunk_counter all_chunks = Some out ->
  exists new,
    out = all_chunks ++ new /\
    Forall (fun chunk => exists p, In p pages /\
                           page_number chunk = Some (pt_page_number p)) new.
Proof.
  revert chunk_counter all_chunks.
  induction pages as [|page rest IH]; intros chunk_counter all_chunks Hrun;
    cbn [process_pages] in Hrun.
  { inversion Hrun; subst. exists []. now rewrite app_nil_r. }
  destruct (chunk_text fuel self (pt_text page) chunk_counter) as [page_chunks|];
    [|discriminate].
  destruct (IH _ _ Hrun) as (new & -> & Hnew).
  exists (map (fun chunk => update chunk document_id page) page_chunks ++ new).
  split; [now rewrite app_assoc|]. apply Forall_app. split.
  - apply List.Forall_forall. intros chunk Hchunk.
    apply in_map_iff in Hchunk as (c & <- & _). exists page. now split; [left|].
  - eapply List.Forall_impl; [|exact Hnew].
    intros chunk (p & Hp & Hnum). exists p. now split; [right|].
Qed.

Lemma process_pdf_page_numbers `{UnicodeDB} fuel self fs pdf_path document_id chunks :
  process_pdf fuel self fs pdf_path document_id = Some chunks ->
  forall chunk, In chunk chunks ->
    exists p, In p (extract_text_from_pdf fs pdf_path) /\
              page_number chunk = Some (pt_page_number p).
Proof.
  unfold process_pdf. destruct (negb (truthy _)).
  - now intros [= <-].
  - intros Hrun chunk Hchunk.
    destruct (process_pages_page_numbers _ _ _ _ _ _ _ Hrun) as (new & -> & Hnew).
    cbn [app] in Hchunk. now apply (proj1 (List.Forall_forall _ _) Hnew).
Qed.

Lemma extract_text_from_pdf_readable `{UnicodeDB} fs pdf_path doc :
  Fitz.open fs pdf_path = Some doc ->
  Forall (fun page => Fitz.get_text page <> None) doc ->
  extract_text_from_pdf fs pdf_path = Streaming.streaming_pages doc 0.
Proof.
  intros Hopen Hdoc. unfold extract_text_from_pdf.
  now rewrite Hopen, (extract_pages_readable _ _ _ Hdoc).
Qed.

End ProcessFacts.

(** ** The page stream *)

Module PageStreamFacts.

Import PyFacts CleanerFacts ChunkerFacts ExtractionFacts ProcessFacts PDFProcessor.

(** One page that raises empties the result of [extract_text_from_pdf]. *)
Lemma extract_text_from_pdf_raises `{UnicodeDB} fs pdf_path doc :
  Fitz.open fs pdf_path = Some doc ->
  Exists (fun page => Fitz.get_text page = None) doc ->
  extract_text_from_pdf fs pdf_path = [].
Proof.
  intros Hopen Hex. unfold extract_text_from_pdf.
  now rewrite Hopen, (extract_pages_raises _ _ _ Hex).
Qed.

(** What [extract_text_from_pdf] yields when no page raises. *)
Lemma extract_text_from_pdf_In `{UnicodeDB} fs pdf_path doc p :
  Fitz.open fs pdf_path = Some doc ->
  Forall (fun page => Fitz.get_text page <> None) doc ->
  In p (extract_text_from_pdf fs pdf_path) <->
  exists (i : nat) page raw,
    doc !! i = Some page /\ Fitz.get_text page = Some raw /\
    _clean_text raw <> [] /\
    p = new_page (Z.of_nat i + 1) (_clean_text raw) page.
Proof.
  intros Hopen Hdoc.
  rewrite (extract_text_from_pdf_readable _ _ _ Hopen Hdoc), streaming_pages_In.
  reflexivity.
Qed.

(** C7.  The claim holds of [extract_text_from_pdf] on a document in which
    no page raises: page [i + 1] is yielded if and only if the cleaned text
    of page [i] is not empty, in ascending page order, and every chunk
    [process_pdf] returns is tagged with the number of such a page; for the
    three pages of which the second is blank the yielded pages are 1 and 3
    and the chunks are tagged 1 and 3.  It fails as soon as one page raises:
    then nothing is yielded at all.  In the three-page document whose second
    page raises, the cleaned texts of pages 1 and 3 are not empty and neither
    page is yielded. *)
Theorem page_stream_skips_blank_pages :
  (forall (db : UnicodeDB) (fs : gmap string Fitz.file) (pdf_path : string)
          (doc : list Fitz.Page),
     Fitz.open fs pdf_path = Some doc ->
     Forall (fun page => Fitz.get_text page <> None) doc ->
     (forall p, In p (extract_text_from_pdf fs pdf_path) <->
        exists (i : nat) page raw,
          doc !! i = Some page /\ Fitz.get_text page = Some raw /\
          _clean_text raw <> [] /\
          p = new_page (Z.of_nat i + 1) (_clean_text raw) page) /\
     StronglySorted Z.lt (map pt_page_number (extract_text_from_pdf fs pdf_path)) /\
     (forall fuel self document_id chunks,
        process_pdf fuel self fs pdf_path document_id = Some chunks ->
        forall chunk, In chunk chunks ->
          exists (i : nat) page raw,
            doc !! i = Some page /\ Fitz.get_text page = Some raw /\
            _clean_text raw <> [] /\ page_number chunk = Some (Z.of_nat i + 1)) /\
     (forall p1 p2 p3,
        doc = [p1; p2; p3] ->
        (forall raw, Fitz.get_text p2 = Some raw -> _clean_text raw = []) ->
        forall fuel self document_id chunks,
          process_pdf fuel self fs pdf_path document_id = Some chunks ->
          forall chunk, In chunk chunks ->
            page_number chunk = Some 1 \/ page_number chunk = Some 3)) /\
  map pt_page_number
    (extract_text_from_pdf (H := Fixtures.ascii_db)
       (Fixtures.one_file "scan.pdf" Fixtures.scan_doc) "scan.pdf") = [1; 3] /\
  (forall (db : UnicodeDB) (fs : gmap string Fitz.file) (pdf_path : string)
          (doc : list Fitz.Page),
     Fitz.open fs pdf_path = Some doc ->
     Exists (fun page => Fitz.get_text page = None) doc ->
     forall p, ~ In p (extract_text_from_pdf fs pdf_path)) /\
  (exists page1 raw1 page3 raw3,
     Fixtures.damaged_doc !! 0%nat = Some page1 /\ Fitz.get_text page1 = Some raw1 /\
     _clean_text (H := Fixtures.ascii_db) raw1 <> [] /\
     Fixtures.damaged_doc !! 2%nat = Some page3 /\ Fitz.get_text page3 = Some raw3 /\
     _clean_text (H := Fixtures.ascii_db) raw3 <> [] /\
     extract_text_from_pdf (H := Fixtures.ascii_db)
       (Fixtures.one_file "doc.pdf" Fixtures.damaged_doc) "doc.pdf" = []).
Proof.
  split; [|split; [vm_compute; reflexivity|split]].
  - intros db fs pdf_path doc Hopen Hdoc.
    pose proof (extract_text_from_pdf_readable _ _ _ Hopen Hdoc) as Hpages.
    assert (Htag : forall fuel self document_id chunks,
              process_pdf fuel self fs pdf_path document_id = Some chunks ->
              forall chunk, In chunk chunks ->
                exists (i : nat) page raw,
                  doc !! i = Some page /\ Fitz.get_text page = Some raw /\
                  _clean_text raw <> [] /\ page_number chunk = Some (Z.of_nat i + 1)).
    { intros fuel self document_id chunks Hrun chunk Hchunk.
      destruct (process_pdf_page_numbers _ _ _ _ _ _ Hrun _ Hchunk) as (p & Hp & Hnum).
      apply (extract_text_from_pdf_In _ _ _ _ Hopen Hdoc) in Hp
        as (i & page & raw & Hi & Hraw & Hne & ->).
      now exists i, page, raw. }
    split; [intros p; now apply extract_text_from_pdf_In|].
    split; [|split; [exact Htag|]].
    + rewrite Hpages. apply streaming_pages_sorted.
    + intros p1 p2 p3 -> Hblank fuel self document_id chunks Hrun chunk Hchunk.
      destruct (Htag _ _ _ _ Hrun _ Hchunk) as (i & page & raw & Hi & Hraw & Hne & ->).
      destruct i as [|[|[|i]]]; cbn in Hi; [now left| |now right|discriminate].
      inversion Hi; subst page. now rewrite (Hblank _ Hraw) in Hne.
  - intros db fs pdf_path doc Hopen Hraises p.
    now rewrite (extract_text_from_pdf_raises _ _ _ Hopen Hraises).
  - do 4 eexists. split; [reflexivity|]. split; [reflexivity|].
    split; [vm_compute; discriminate|]. split; [reflexivity|]. split; [reflexivity|].
    split; [vm_compute; discriminate|].
    apply (extract_text_from_pdf_raises _ _ Fixtures.damaged_doc); [reflexivity|].
    right. left. reflexivity.
Qed.

(** The same document, run: two chunks, numbered 0 and 1, tagged with pages
    1 and 3. *)
Example scan_doc_chunks :
  option_map (map (fun chunk => (chunk_id chunk, page_number chunk)))
    (process_pdf (H := Fixtures.ascii_db) 0 PDFProcessor.init
       (Fixtures.one_file "scan.pdf" Fixtures.scan_doc) "scan.pdf" (of_string "doc"))
  = Some [(0, Some 1); (1, Some 3)].
Proof. vm_compute. reflexivity. Qed.

Section Damaged.

#[local] Existing Instance Fixtures.ascii_db.
#[local] Existing Instance Fixtures.accepting_server.
#[local] Existing Instance Fixtures.runtime.
#[local] Existing Instance Fixtures.three_dim_model.
#[local] Existing Instance Fixtures.shipped_splitter.

(** C3.  On a three-page document whose second page raises,
    [extract_text_from_pdf] returns the empty list, so [process_pdf] has no
    chunk at all: pages 1 and 3 are lost with page 2.  The sibling
    extractors skip the page only: [extract_text_from_pdf_streaming] yields
    pages 1 and 3, and [process_pdf_page_by_page] stores a row for each. *)
Theorem failing_page_loses_every_page :
  extract_text_from_pdf (Fixtures.one_file "doc.pdf" Fixtures.damaged_doc) "doc.pdf" = [] /\
  (forall fuel,
     process_pdf fuel PDFProcessor.init
       (Fixtures.one_file "doc.pdf" Fixtures.damaged_doc) "doc.pdf" (of_string "doc")
     = Some []) /\
  map pt_page_number
    (Streaming.extract_text_from_pdf_streaming
       (Fixtures.one_file "doc.pdf" Fixtures.damaged_doc) "doc.pdf") = [1; 3] /\
  (let '(success, server) :=
     PDFPageProcessor.process_pdf_page_by_page
       {| PDFPageProcessor.milvus_client := Fixtures.ready_client |}
       (Fixtures.one_file "doc.pdf" Fixtures.damaged_doc) Fixtures.ready_server
       "doc.pdf" None in
   (success, map fst (Fixtures.stored_rows server))) = (true, [1; 3]).
Proof.
  assert (Hnone : extract_text_from_pdf
                    (Fixtures.one_file "doc.pdf" Fixtures.damaged_doc) "doc.pdf" = []).
  { apply (extract_text_from_pdf_raises _ _ Fixtures.damaged_doc); [reflexivity|].
    right. left. reflexivity. }
  split; [exact Hnone|]. split; [|split].
  - intros fuel. unfold process_pdf. now rewrite Hnone.
  - vm_compute. reflexivity.
  - vm_compute. reflexivity.
Qed.

End Damaged.

End PageStreamFacts.

(** ** The Milvus client *)

Module MilvusFacts.

Import PDFProcessor MilvusClient.

(** [l[:k]] is the first [k] elements. *)
Lemma slice_prefix {A} (l : list A) k :
  0 <= k -> slice l 0 k = firstn (Z.to_nat k) l.
Proof.
  intros Hk. unfold slice, slice_index.
  destruct (Z.ltb_spec 0 0); [lia|]. destruct (Z.ltb_spec k 0); [lia|].
  assert (Hlen : 0 <= len l) by (unfold len; lia).
  rewrite (Z.min_l 0 (len l)) by exact Hlen. change (skipn (Z.to_nat 0) l) with l. rewrite Z.sub_0_r.
  destruct (Z.le_ge_cases k (len l)) as [Hle|Hge].
  - now rewrite Z.min_l.
  - rewrite Z.min_r by exact Hge. unfold len in *.
    rewrite Nat2Z.id, firstn_all. symmetry. apply firstn_all2. lia.
Qed.

Lemma truncate_document_id (document_id : str) :
  (if len document_id >? 100 then slice document_id 0 100 else document_id)
    = firstn 100 document_id.
Proof.
  destruct (Z.gtb_spec (len document_id) 100) as [Hlong|Hshort].
  - now rewrite slice_prefix.
  - symmetry. apply firstn_all2. unfold len in Hshort. lia.
Qed.

Lemma valid_documents_acc documents valid :
  valid_documents documents valid = valid ++ valid_documents documents [].
Proof.
  revert valid. induction documents as [|doc rest IH]; intros valid.
  { cbn. now rewrite app_nil_r. }
  cbn [valid_documents].
  destruct (d_document_id doc), (d_page_number doc), (d_chunk_id doc), (d_text doc),
    (d_embedding doc); try apply IH.
  rewrite IH, (IH ([] ++ _)). now rewrite <- app_assoc.
Qed.

Lemma valid_documents_cons doc rest :
  valid_documents (doc :: rest) [] =
    match d_document_id doc, d_page_number doc, d_chunk_id doc, d_text doc,
          d_embedding doc with
    | Some d, Some p, Some k, Some t, Some e =>
        truncated d p k t e :: valid_documents rest []
    | _, _, _, _, _ => valid_documents rest []
    end.
Proof.
  cbn [valid_documents].
  destruct (d_document_id doc), (d_page_number doc), (d_chunk_id doc), (d_text doc),
    (d_embedding doc); try reflexivity.
  rewrite valid_documents_acc. cbn [app]. unfold truncated.
  rewrite truncate_document_id, slice_prefix by discriminate. reflexivity.
Qed.

(** The validated rows are exactly the truncated images of the documents
    that have all five keys. *)
Lemma valid_documents_In documents e :
  In e (valid_documents documents []) <->
  exists d p k t v, In (complete d p k t v) documents /\ e = truncated d p k t v.
Proof.
  induction documents as [|doc rest IH].
  { cbn. split; [tauto|]. now intros (? & ? & ? & ? & ? & [] & _). }
  rewrite valid_documents_cons.
  assert (Hrest : In e (valid_documents rest []) ->
            exists d p k t v, In (complete d p k t v) (doc :: rest) /\
                              e = truncated d p k t v).
  { intros He. apply IH in He as (d & p & k & t & v & Hin & ->).
    exists d, p, k, t, v. now split; [right|]. }
  assert (Hskip : forall d p k t v,
            doc <> complete d p k t v ->
            In (complete d p k t v) (doc :: rest) -> e = truncated d p k t v ->
            In e (valid_documents rest [])).
  { intros d p k t v Hne [Heq|Hin] ->; [congruence|].
    apply IH. now exists d, p, k, t, v. }
  destruct doc as [[d0|] [p0|] [k0|] [t0|] [v0|]]; cbn [d_document_id d_page_number
    d_chunk_id d_text d_embedding];
    try (split; [exact Hrest|];
         intros (d & p & k & t & v & Hin & He);
         apply (Hskip d p k t v); [discriminate|exact Hin|exact He]).
  split.
  - intros [<-|He]; [|now apply Hrest].
    exists d0, p0, k0, t0, v0. now split; [left|].
  - intros (d & p & k & t & v & [Heq|Hin] & ->).
    + left. unfold complete in Heq. now inversion Heq.
    + right. apply IH. now exists d, p, k, t, v.
Qed.

Lemma expected_fields_names self :
  map name (fields (expected_schema self)) = expected_field_names.
Proof. reflexivity. Qed.




Section Insertion.
Context `{Server}.

Lemma insert_documents_uninitialised self server documents :
  collection self = None -> insert_documents self server documents = (false, server).
Proof. intros Hnone. unfold insert_documents. now rewrite Hnone. Qed.

(** The server after the rows [valid] went to the collection [c] that
    [handle] names. *)
Lemma insert_documents_sends self server documents handle c :
  collection self = Some handle -> server !! handle = Some c ->
  valid_documents documents [] <> [] ->
  insert_documents self server documents =
    match insert_flush c (valid_documents documents []) with
    | Stored =>
        (true, <[handle := {| schema := schema c;
                              entities := entities c ++ valid_documents documents [];
                              index := index c |}]> server)
    | FlushRaised =>
        (false, <[handle := {| schema := schema c;
                               entities := entities c ++ valid_documents documents [];
                               index := index c |}]> server)
    | InsertRaised => (false, server)
    end.
Proof.
  intros Hhandle Hc Hvalid. unfold insert_documents. rewrite Hhandle.
  destruct documents as [|doc rest]; [now cbn in Hvalid|]. cbn [truthy negb].
  destruct (valid_documents (doc :: rest) []) as [|e valid]; [congruence|].
  cbn [truthy negb]. rewrite Hc. reflexivity.
Qed.

(** C10, as the code has it.  The validated rows are exactly the documents
    that have the five keys, with the text cut to its first
    [MAX_TEXT_LENGTH] characters and the document id to its first 100: a long
    text or id rejects nothing, a document missing a key is skipped.  On an
    initialised collection on which the server's insert and flush go
    through, the rows are appended, and the answer is [False] exactly when
    the input is not empty and no valid row remains.  In general the answer
    is [False] exactly in these cases: the collection is not initialised;
    or the input is not empty and no valid row remains, or the collection is
    gone from the server, or the server's insert or flush raises.  A [False]
    answer leaves the server as it was, except when it was the flush that
    raised: then the rows are with the server already. *)
Theorem insert_documents_truncates_and_skips (self : t)
    (server : gmap string Collection) (documents : list Document) :
  (forall e, In e (valid_documents documents []) <->
     exists d p k t v, In (complete d p k t v) documents /\ e = truncated d p k t v) /\
  (forall handle c,
     collection self = Some handle -> server !! handle = Some c ->
     insert_flush c (valid_documents documents []) = Stored ->
     (fst (insert_documents self server documents) = false <->
        documents <> [] /\ valid_documents documents [] = []) /\
     (valid_documents documents [] <> [] ->
        insert_documents self server documents =
          (true, <[handle := {| schema := schema c;
                                entities := entities c ++ valid_documents documents [];
                                index := index c |}]> server))) /\
  (fst (insert_documents self server documents) = false <->
     collection self = None \/
     (documents <> [] /\
      (valid_documents documents [] = [] \/
       exists handle,
         collection self = Some handle /\
         (server !! handle = None \/
          exists c, server !! handle = Some c /\
                    insert_flush c (valid_documents documents []) <> Stored)))) /\
  (forall handle c,
     collection self = Some handle -> server !! handle = Some c ->
     valid_documents documents [] <> [] ->
     insert_flush c (valid_documents documents []) = FlushRaised ->
     insert_documents self server documents =
       (false, <[handle := {| schema := schema c;
                              entities := entities c ++ valid_documents documents [];
                              index := index c |}]> server)) /\
  (snd (insert_documents self server documents) = server \/
   exists handle c,
     collection self = Some handle /\ server !! handle = Some c /\
     valid_documents documents [] <> [] /\
     insert_flush c (valid_documents documents []) <> InsertRaised /\
     snd (insert_documents self server documents)
       = <[handle := {| schema := schema c;
                        entities := entities c ++ valid_documents documents [];
                        index := index c |}]> server).
Proof.
  split; [apply valid_documents_In|]. split; [|split; [|split]].
  - intros handle c Hhandle Hc Hstored.
    destruct (valid_documents documents []) as [|e valid] eqn:Hvalid.
    + unfold insert_documents. rewrite Hhandle, Hvalid.
      destruct documents as [|doc rest]; cbn.
      * split; [split; [discriminate|now intros [? _]]|now intros ?].
      * split; [split; [now intros _|reflexivity]|now intros ?].
    + rewrite (insert_documents_sends _ _ _ _ _ Hhandle Hc) by (rewrite Hvalid; discriminate).
      rewrite Hvalid in *. rewrite Hstored. cbn [fst].
      split; [split; [discriminate|now intros [_ ?]]|reflexivity].
  - destruct (collection self) as [handle|] eqn:Hhandle.
    2:{ rewrite insert_documents_uninitialised by exact Hhandle.
        split; [now left|reflexivity]. }
    destruct documents as [|doc rest].
    { unfold insert_documents. rewrite Hhandle. cbn.
      split; [discriminate|]. intros [?|[? _]]; congruence. }
    destruct (valid_documents (doc :: rest) []) as [|e valid] eqn:Hvalid.
    { unfold insert_documents. rewrite Hhandle, Hvalid. cbn.
      split; [|reflexivity]. intros _. right. split; [discriminate|now left]. }
    destruct (server !! handle) as [c|] eqn:Hc.
    2:{ unfold insert_documents. rewrite Hhandle, Hvalid, Hc. cbn.
        split; [|reflexivity]. intros _. right. split; [discriminate|].
        right. exists handle. split; [reflexivity|now left]. }
    rewrite (insert_documents_sends _ _ _ _ _ Hhandle Hc) by (rewrite Hvalid; discriminate).
    rewrite Hvalid.
    destruct (insert_flush c (e :: valid)) eqn:Houtcome; cbn [fst].
    + split; [discriminate|].
      intros [?|[_ [?|(handle' & Heq & [Hgone|(c' & Hc' & Hraised)])]]];
        try discriminate; injection Heq as <-; congruence.
    + split; [intros _|reflexivity]. right. split; [discriminate|]. right.
      exists handle. split; [reflexivity|]. right. exists c.
      split; [exact Hc|]. rewrite Houtcome. discriminate.
    + split; [intros _|reflexivity]. right. split; [discriminate|]. right.
      exists handle. split; [reflexivity|]. right. exists c.
      split; [exact Hc|]. rewrite Houtcome. discriminate.
  - intros handle c Hhandle Hc Hvalid Hflush.
    rewrite (insert_documents_sends _ _ _ _ _ Hhandle Hc Hvalid). now rewrite Hflush.
  - destruct (collection self) as [handle|] eqn:Hhandle.
    2:{ left. now rewrite insert_documents_uninitialised. }
    destruct (valid_documents documents []) as [|e valid] eqn:Hvalid.
    { left. unfold insert_documents. rewrite Hhandle, Hvalid.
      now destruct documents. }
    destruct (server !! handle) as [c|] eqn:Hc.
    2:{ left. unfold insert_documents. rewrite Hhandle, Hvalid, Hc.
        now destruct documents. }
    rewrite (insert_documents_sends _ _ _ _ _ Hhandle Hc) by (rewrite Hvalid; discriminate).
    rewrite Hvalid.
    destruct (insert_flush c (e :: valid)) eqn:Houtcome; cbn [snd]; [right|right|now left];
      exists handle, c; repeat split; congruence.
Qed.

End Insertion.

Lemma insert_documents_truncates_and_skips_witness :
  (let '(stored, server) :=
     insert_documents (H := Fixtures.accepting_server) Fixtures.ready_client
       Fixtures.ready_server
       [long_document;
        {| d_document_id := None; d_page_number := Some 1; d_chunk_id := Some 1;
           d_text := Some (of_string "no id"); d_embedding := Some [] |}] in
   (stored,
    match server !! Config.COLLECTION_NAME with
    | Some c => map (fun e => (len (e_document_id e), len (e_text e))) (entities c)
    | None => []
    end)) = (true, [(100, 8192)]) /\
  (forall e,
     In e (valid_documents [long_document] []) <->
     exists d p k t v, In (complete d p k t v) [long_document] /\ e = truncated d p k t v).
Proof.
  split; [vm_compute; reflexivity|].
  exact (proj1 (insert_documents_truncates_and_skips (H := Fixtures.accepting_server)
                  Fixtures.ready_client Fixtures.ready_server [long_document])).
Defined.

(** C10 as stated fails: a record with all required fields remains valid,
    and the answer is [False] all the same, when the client's collection is
    not initialised, when the collection is gone from the server, when the
    server's insert raises, and when the server's flush raises; in the last
    case the truncated row has gone to the server although the answer is
    [False]. *)
Lemma insert_documents_rejects_a_valid_record :
  valid_documents [long_document] [] <> [] /\
  insert_documents (H := Fixtures.accepting_server) (MilvusClient.init false)
    Fixtures.ready_server [long_document]
  = (false, Fixtures.ready_server) /\
  insert_documents (H := Fixtures.accepting_server) Fixtures.ready_client
    ∅ [long_document]
  = (false, ∅) /\
  insert_documents (H := Fixtures.refusing_server) Fixtures.ready_client
    Fixtures.ready_server [long_document]
  = (false, Fixtures.ready_server) /\
  (let '(stored, server) :=
     insert_documents (H := Fixtures.unflushed_server) Fixtures.ready_client
       Fixtures.ready_server [long_document] in
   (stored,
    match server !! Config.COLLECTION_NAME with
    | Some c => map (fun e => (len (e_document_id e), len (e_text e))) (entities c)
    | None => []
    end)) = (false, [(100, 8192)]).
Proof.
  split; [unfold long_document; cbn; discriminate|]. split; [reflexivity|].
  split; [reflexivity|]. split; vm_compute; reflexivity.
Qed.

End MilvusFacts.

(** ** Batched embedding *)

Module EmbeddingFacts.

Import PDFProcessor EmbeddingGenerator PDFToMilvusBatch.

(** A window [l[i:i+b]] with non-negative bounds. *)
Lemma slice_window {A} (l : list A) i b :
  0 <= i -> 0 <= b ->
  slice l i (i + b) = take (Z.to_nat b) (drop (Z.to_nat i) l).
Proof.
  intros Hi Hb. unfold slice, slice_index.
  destruct (Z.ltb_spec i 0); [lia|]. destruct (Z.ltb_spec (i + b) 0); [lia|].
  assert (Hlen : len l = Z.of_nat (length l)) by reflexivity.
  destruct (Z.le_gt_cases i (len l)) as [Hin|Hout].
  - rewrite (Z.min_l i) by exact Hin.
    destruct (Z.min_spec (i + b) (len l)) as [[Hlt ->]|[Hge ->]].
    + f_equal. lia.
    + rewrite !take_ge; [reflexivity| |]; rewrite length_drop; lia.
  - rewrite (Z.min_r i) by lia. rewrite (Z.min_r (i + b)) by lia.
    rewrite Z.sub_diag. cbn [Z.to_nat take].
    rewrite (drop_ge l (Z.to_nat i)) by lia. now destruct (Z.to_nat b).
Qed.

(** Consecutive windows of [b] elements tile the list. *)
Lemma windows_concat {A} (b : nat) (m : nat) (l : list A) :
  (0 < b)%nat -> (length l <= m * b)%nat ->
  concat (map (fun k => take b (drop (k * b) l)) (seq 0 m)) = l.
Proof.
  intros Hb. revert l. induction m as [|m IH]; intros l Hlen.
  { destruct l; [reflexivity|cbn in Hlen; lia]. }
  cbn [seq map concat]. rewrite (ProcessFacts.map_seq_from _ 1 m).
  change (drop (0 * b) l) with l.
  transitivity (take b l ++ drop b l); [|apply take_drop]. f_equal.
  rewrite <- (IH (drop b l)) by (rewrite length_drop; lia).
  f_equal. apply map_ext. intros k. rewrite drop_drop. reflexivity.
Qed.

(** The starts of [range(0, n, b)] for a positive step. *)
Lemma range_positive n b :
  0 <= n -> 0 < b ->
  exists m,
    range 0 n b = Some (map (fun k => Z.of_nat k * b) (seq 0 m)) /\
    n <= Z.of_nat m * b.
Proof.
  intros Hn Hb. exists (Z.to_nat ((n + b - 1) / b)). unfold range.
  destruct (Z.eqb_spec b 0); [lia|]. destruct (Z.ltb_spec 0 b); [|lia].
  rewrite Z.sub_0_r. split.
  - reflexivity.
  - assert (Hq : 0 <= (n + b - 1) / b) by (apply Z.div_pos; lia).
    rewrite Z2Nat.id by exact Hq.
    pose proof (Z.div_mod (n + b - 1) b ltac:(lia)) as Hdiv.
    pose proof (Z.mod_pos_bound (n + b - 1) b Hb) as Hmod. nia.
Qed.

(** The inner loop keeps the chunks that have a vector at their index and
    warns about the others. *)
Lemma add_embeddings_spec j batch embeddings chunks_with_embeddings log :
  add_embeddings j batch embeddings chunks_with_embeddings log =
    (chunks_with_embeddings ++ zip_with set_embedding batch (drop j embeddings),
     log ++ map (fun chunk => MissingEmbedding (chunk_id chunk))
              (drop (length embeddings - j) batch)).
Proof.
  revert j chunks_with_embeddings log.
  induction batch as [|chunk rest IH]; intros j acc log.
  { cbn. rewrite drop_nil. cbn. now rewrite !app_nil_r. }
  cbn [add_embeddings]. destruct (embeddings !! j) as [e|] eqn:Hj.
  - rewrite IH. rewrite (drop_S _ _ _ Hj). cbn [zip_with].
    apply lookup_lt_Some in Hj.
    replace (length embeddings - j)%nat with (S (length embeddings - S j)) by lia.
    cbn [drop]. now rewrite <- app_assoc.
  - rewrite IH. apply lookup_ge_None_1 in Hj.
    rewrite (drop_ge embeddings (S j)), (drop_ge embeddings j) by lia.
    replace (length embeddings - S j)%nat with 0%nat by lia.
    replace (length embeddings - j)%nat with 0%nat by lia.
    cbn [drop map]. destruct rest; cbn [zip_with]; now rewrite <- app_assoc.
Qed.

Section Batches.
Context `{Model}.

Lemma embedding_batches_spec self chunks starts chunks_with_embeddings log :
  embedding_batches self chunks starts chunks_with_embeddings log =
    (chunks_with_embeddings
       ++ concat (map (fun i => kept_of (slice chunks i (i + embedding_batch_size self)))
                    starts),
     log ++ concat (map (fun i => warned_of (slice chunks i (i + embedding_batch_size self)))
                      starts)).
Proof.
  revert chunks_with_embeddings log.
  induction starts as [|i rest IH]; intros acc log.
  { cbn. now rewrite !app_nil_r. }
  cbn [embedding_batches map concat]. rewrite add_embeddings_spec, IH.
  cbn [drop]. rewrite Nat.sub_0_r. unfold kept_of, warned_of.
  now rewrite <- !app_assoc.
Qed.

(** The sub-batches of a run with a positive batch size: consecutive windows
    that tile the input. *)
Lemma generate_embeddings_in_batches_spec self chunks :
  0 < embedding_batch_size self ->
  exists batches,
    concat batches = chunks /\
    Forall (fun batch => len batch <= embedding_batch_size self) batches /\
    generate_embeddings_in_batches self chunks
      = (concat (map kept_of batches), concat (map warned_of batches)).
Proof.
  intros Hb. set (b := embedding_batch_size self) in *.
  destruct (range_positive (len chunks) b ltac:(unfold len; lia) Hb) as (m & Hrange & Hm).
  exists (map (fun k => take (Z.to_nat b) (drop (k * Z.to_nat b) chunks)) (seq 0 m)).
  split; [|split].
  - apply windows_concat; [lia|]. unfold len in Hm. nia.
  - apply List.Forall_forall. intros batch Hbatch.
    apply in_map_iff in Hbatch as (k & <- & _). unfold len.
    rewrite length_take. lia.
  - unfold generate_embeddings_in_batches. fold b. rewrite Hrange.
    rewrite embedding_batches_spec. cbn [app]. fold b.
    rewrite !map_map. f_equal; f_equal; apply map_ext; intros k;
      rewrite slice_window by lia;
      rewrite Z2Nat.inj_mul, Nat2Z.id by lia; reflexivity.
Qed.

Lemma zip_with_set_embedding batch (es : list (list number)) :
  (length (zip_with set_embedding batch es) + length (drop (length es) batch)
     = length batch)%nat /\
  Forall2 embedded (take (length es) batch) (zip_with set_embedding batch es) /\
  Forall (fun chunk' => exists e, embedding chunk' = Some e)
    (zip_with set_embedding batch es).
Proof.
  revert es. induction batch as [|chunk rest IH]; intros es.
  { cbn. rewrite drop_nil, take_nil. repeat split; constructor. }
  destruct es as [|e es]; [cbn; repeat split; constructor|].
  destruct (IH es) as (Hlen & Hkept & Hemb). cbn [zip_with length drop take].
  split; [lia|]. split; constructor; try assumption; now exists e.
Qed.

Lemma kept_warned_length batches :
  (length (concat (map kept_of batches)) + length (concat (map warned_of batches))
     = length (concat batches))%nat.
Proof.
  induction batches as [|batch rest IH]; [reflexivity|].
  cbn [map concat]. rewrite !length_app. unfold kept_of at 1, warned_of at 1.
  rewrite length_map.
  destruct (zip_with_set_embedding batch (generate_embeddings (map text batch)))
    as (Hlen & _). lia.
Qed.

Lemma kept_sublist batches :
  exists kept,
    kept `sublist_of` concat batches /\
    Forall2 embedded kept (concat (map kept_of batches)).
Proof.
  induction batches as [|batch rest (kept & Hsub & Hkept)].
  { exists []. split; constructor. }
  exists (take (length (generate_embeddings (map text batch))) batch ++ kept).
  cbn [map concat]. split.
  - apply sublist_app; [apply sublist_take|exact Hsub].
  - apply Forall2_app; [|exact Hkept]. apply zip_with_set_embedding.
Qed.

Lemma kept_embedded batches :
  Forall (fun chunk' => exists e, embedding chunk' = Some e)
    (concat (map kept_of batches)).
Proof.
  induction batches as [|batch rest IH]; [constructor|].
  cbn [map concat]. apply Forall_app. split; [|exact IH].
  apply zip_with_set_embedding.
Qed.

(** What [validate_embedding] checks: not the configured [DIMENSION], but
    the length of the vector the collaborator returns for the probe text. *)
Lemma validate_embedding_spec e :
  validate_embedding e = true <->
  e <> [] /\ forallb is_number e = true /\
  (0 < get_embedding_dimension -> len e = get_embedding_dimension).
Proof.
  unfold validate_embedding. destruct e as [|x e].
  { cbn. split; [discriminate|]. now intros [? _]. }
  cbn [truthy negb].
  destruct (forallb is_number (x :: e)); cbn [negb].
  2:{ split; [discriminate|]. now intros (_ & ? & _). }
  destruct (Z.gtb_spec get_embedding_dimension 0) as [Hpos|Hzero]; cbn [andb].
  - destruct (Z.eqb_spec (len (x :: e)) get_embedding_dimension) as [Heq|Hne];
      cbn [negb].
    + split; [intros _|reflexivity]. repeat split; [discriminate|now intros _].
    + split; [discriminate|]. intros (_ & _ & Hlen). now specialize (Hlen ltac:(lia)).
  - split; [intros _|reflexivity]. repeat split; [discriminate|]. lia.
Qed.

(** C4, as the code has it.  With a positive embedding batch size the input
    is cut into consecutive sub-batches; a sub-batch keeps, in order, the
    chunks for which the collaborator returned a vector at their index, each
    with that vector attached, and logs one warning naming the chunk id of
    every chunk of its unmatched tail.  So the output is no longer than the
    input, keeps the input order, and every input chunk is either returned
    or warned about.  Validation accepts exactly the non-empty vectors of
    numbers whose length is the length of the collaborator's vector for the
    probe text (any length when that vector is empty). *)
Theorem generate_embeddings_keeps_matched_chunks (self : t) (chunks : list Chunk) :
  0 < embedding_batch_size self ->
  (exists batches,
     concat batches = chunks /\
     Forall (fun batch => len batch <= embedding_batch_size self) batches /\
     fst (generate_embeddings_in_batches self chunks) = concat (map kept_of batches) /\
     snd (generate_embeddings_in_batches self chunks) = concat (map warned_of batches)) /\
  (length (fst (generate_embeddings_in_batches self chunks)) <= length chunks)%nat /\
  (length (fst (generate_embeddings_in_batches self chunks))
     + length (snd (generate_embeddings_in_batches self chunks)) = length chunks)%nat /\
  (exists kept,
     kept `sublist_of` chunks /\
     Forall2 embedded kept (fst (generate_embeddings_in_batches self chunks))) /\
  Forall (fun chunk' => exists e, embedding chunk' = Some e)
    (fst (generate_embeddings_in_batches self chunks)) /\
  (forall e, validate_embedding e = true <->
     e <> [] /\ forallb is_number e = true /\
     (0 < get_embedding_dimension -> len e = get_embedding_dimension)).
Proof.
  intros Hb.
  destruct (generate_embeddings_in_batches_spec self chunks Hb)
    as (batches & Htile & Hsize & Hrun).
  rewrite Hrun. cbn [fst snd].
  pose proof (kept_warned_length batches) as Hlen. rewrite Htile in Hlen.
  split; [now exists batches|]. split; [lia|]. split; [exact Hlen|].
  split; [|split; [apply kept_embedded|apply validate_embedding_spec]].
  destruct (kept_sublist batches) as (kept & Hsub & Hkept).
  exists kept. now rewrite <- Htile.
Qed.

End Batches.

Lemma generate_embeddings_keeps_matched_chunks_witness :
  (let '(chunks_with_embeddings, log) :=
     generate_embeddings_in_batches (H := Fixtures.short_model 3 2)
       small_batches sample_chunks in
   (map chunk_id chunks_with_embeddings, log))
    = ([10; 11; 12; 14], [MissingEmbedding 13]) /\
  (length (fst (generate_embeddings_in_batches (H := Fixtures.short_model 3 2)
                  small_batches sample_chunks))
     + length (snd (generate_embeddings_in_batches (H := Fixtures.short_model 3 2)
                      small_batches sample_chunks))
   = length sample_chunks)%nat.
Proof.
  split; [vm_compute; reflexivity|].
  apply (generate_embeddings_keeps_matched_chunks (H := Fixtures.short_model 3 2)
           small_batches sample_chunks).
  reflexivity.
Defined.

(** C4 as stated fails on the dimension: with a collaborator whose vectors
    have three components, a returned chunk carries a vector of length 3,
    validation accepts it, and the configured [DIMENSION] is 384.  It also
    fails without a positive batch size: the same collaborator returns a
    vector for each of the five chunks when they are embedded four at a
    time, but with an embedding batch size of 0 (the [ValueError] of [range]
    is caught) or of -1 (the range is empty) every chunk is dropped and no
    warning names any of them. *)
Lemma embedding_length_is_not_DIMENSION :
  (exists chunk' e,
     In chunk' (fst (generate_embeddings_in_batches (H := Fixtures.constant_model 3)
                       (PDFToMilvusBatch.init false) sample_chunks)) /\
     embedding chunk' = Some e /\
     validate_embedding (H := Fixtures.constant_model 3) e = true /\
     len e <> Config.DIMENSION false /\
     len e <> Config.DIMENSION true /\
     len e <> MilvusClient.dimension (milvus_client (PDFToMilvusBatch.init false))) /\
  (let '(chunks_with_embeddings, log) :=
     generate_embeddings_in_batches (H := Fixtures.constant_model 3)
       small_batches sample_chunks in
   (map chunk_id chunks_with_embeddings, log)) = ([10; 11; 12; 13; 14], []) /\
  generate_embeddings_in_batches (H := Fixtures.constant_model 3)
    {| milvus_client := Fixtures.ready_client; pdf_processor := PDFProcessor.init;
       batch_size := 100; embedding_batch_size := 0 |} sample_chunks = ([], []) /\
  generate_embeddings_in_batches (H := Fixtures.constant_model 3)
    {| milvus_client := Fixtures.ready_client; pdf_processor := PDFProcessor.init;
       batch_size := 100; embedding_batch_size := -1 |} sample_chunks = ([], []).
Proof.
  split.
  - exists (set_embedding (new_chunk 10 (of_string "text") 0 1)
              (repeat (PyFloat 1%float) 3)), (repeat (PyFloat 1%float) 3).
    split; [vm_compute; now left|]. repeat split; discriminate.
  - repeat split; vm_compute; reflexivity.
Qed.

End EmbeddingFacts.

(** ** Single-document ingestion *)

Module IngestionFacts.

Import PDFProcessor EmbeddingGenerator MilvusClient PDFToMilvusBatch.

Section Ingestion.
Context `{UnicodeDB} `{Model} `{Server} `{Runtime}.

(** An insert of a non-empty list never removes rows; an answer [True] has
    added some; and an answer [False] has changed nothing unless the flush
    raised after the insert. *)
Lemma insert_documents_rows self server documents stored server' :
  documents <> [] ->
  insert_documents self server documents = (stored, server') ->
  row_count self server <= row_count self server' /\
  (stored = true -> row_count self server < row_count self server') /\
  ((forall c rows, insert_flush c rows <> FlushRaised) ->
   stored = false -> server' = server).
Proof.
  intros Hne. unfold insert_documents, row_count.
  destruct (collection self) as [handle|];
    [|intros [= <- <-]; split; [lia|now split]].
  destruct documents as [|doc rest]; [congruence|]. cbn [truthy negb].
  destruct (valid_documents (doc :: rest) []) as [|e valid];
    [intros [= <- <-]; split; [lia|now split]|]. cbn [truthy negb].
  destruct (server !! handle) as [c|] eqn:Hc;
    [|intros [= <- <-]; rewrite Hc; split; [lia|now split]].
  assert (Hgrown : len (entities c) < len (entities c ++ e :: valid))
    by (unfold len; rewrite length_app; cbn [length]; lia).
  destruct (insert_flush c (e :: valid)) eqn:Houtcome; intros [= <- <-];
    rewrite ?lookup_insert_eq, ?Hc; cbn [entities].
  - split; [lia|]. split; [now intros _|discriminate].
  - split; [lia|]. split; [discriminate|]. intros Hflush. now destruct (Hflush c (e :: valid)).
  - split; [lia|]. now split.
Qed.

(** The counter of stored chunks moves only when rows are added, and, on a
    server whose flush does not raise, exactly then. *)
Lemma store_batches_rows self all_chunks starts
    successful_chunks failed_chunks server successful' failed' server' :
  store_batches self all_chunks starts successful_chunks failed_chunks server
    = (successful', failed', server') ->
  0 <= failed_chunks ->
  successful_chunks <= successful' /\ 0 <= failed' /\
  row_count (milvus_client self) server <= row_count (milvus_client self) server' /\
  (successful_chunks < successful' ->
   row_count (milvus_client self) server < row_count (milvus_client self) server') /\
  ((forall c rows, insert_flush c rows <> FlushRaised) ->
   successful' = successful_chunks -> server' = server).
Proof.
  revert successful_chunks failed_chunks server.
  induction starts as [|i rest IH]; intros s f server Hrun Hf; cbn [store_batches] in Hrun.
  { inversion Hrun; subst. repeat split; try lia. }
  set (batch := slice all_chunks i (i + batch_size self)) in *.
  assert (Hbatch : 0 <= len batch) by (unfold len; lia).
  destruct (truthy (fst (generate_embeddings_in_batches self batch)));
    cbn [negb] in Hrun; [|apply (IH _ _ _ Hrun); lia].
  set (valid_chunks := List.filter _ _) in *.
  destruct valid_chunks as [|chunk valid] eqn:Hvalid; cbn [truthy negb] in Hrun;
    [apply (IH _ _ _ Hrun); lia|].
  rewrite <- Hvalid in Hrun.
  assert (Hlen : 0 < len valid_chunks) by (rewrite Hvalid; unfold len; cbn; lia).
  destruct (insert_documents (milvus_client self) server
              (map as_document valid_chunks)) as [stored server1] eqn:Hinsert.
  apply insert_documents_rows in Hinsert as (Hkept & Hstored & Hfailed);
    [|rewrite Hvalid; discriminate].
  destruct stored.
  - specialize (Hstored eq_refl).
    apply IH in Hrun as (Hs & Hf' & Hrows & _ & _); [|lia].
    repeat split; try lia.
  - apply IH in Hrun as (Hs & Hf' & Hrows & Hmoved & Hsame); [|lia].
    repeat split; try lia.
    intros Hflush Heq. rewrite (Hsame Hflush Heq). now apply Hfailed.
Qed.

(** Pages of at most [chunk_size] words need no fuel. *)
Lemma process_pages_short fuel self document_id pages chunk_counter all_chunks :
  Forall (fun p => len (split (pt_text p)) <= chunk_size self) pages ->
  exists chunks,
    process_pages fuel self document_id pages chunk_counter all_chunks = Some chunks.
Proof.
  intros Hshort. revert chunk_counter all_chunks.
  induction Hshort as [|page rest Hpage _ IH]; intros chunk_counter all_chunks;
    cbn [process_pages]; [eauto|].
  rewrite (ChunkerFacts.chunk_text_short _ _ _ _ Hpage). apply IH.
Qed.

(** One page of more than [chunk_size] words keeps [process_pdf] from
    returning. *)
Lemma process_pages_diverges fuel self document_id pages chunk_counter all_chunks :
  0 < chunk_overlap self < chunk_size self ->
  Exists (fun p => chunk_size self < len (split (pt_text p))) pages ->
  process_pages fuel self document_id pages chunk_counter all_chunks = None.
Proof.
  intros Hcfg Hlong. revert chunk_counter all_chunks.
  induction Hlong as [page rest Hpage|page rest _ IH]; intros chunk_counter all_chunks;
    cbn [process_pages].
  - now rewrite (ChunkerFacts.chunk_text_diverges _ _ _ _ Hcfg Hpage).
  - destruct (chunk_text fuel self (pt_text page) chunk_counter); [apply IH|reflexivity].
Qed.

Lemma store_pdf_with_progress_diverges fuel self fs server pdf_path document_id :
  0 < chunk_overlap (pdf_processor self) < chunk_size (pdf_processor self) ->
  Exists (fun p => chunk_size (pdf_processor self) < len (split (pt_text p)))
    (extract_text_from_pdf fs pdf_path) ->
  store_pdf_with_progress fuel self fs server pdf_path document_id = None.
Proof.
  intros Hcfg Hlong. unfold store_pdf_with_progress.
  assert (Hexists : Fitz.path_exists fs pdf_path = true).
  { unfold extract_text_from_pdf, Fitz.open in Hlong. unfold Fitz.path_exists.
    destruct (fs !! pdf_path); [reflexivity|]. now apply Exists_nil in Hlong. }
  rewrite Hexists. cbn [negb]. unfold process_pdf.
  destruct (extract_text_from_pdf fs pdf_path) as [|p ps] eqn:Hpages;
    [now apply Exists_nil in Hlong|].
  cbn [truthy negb]. now rewrite (process_pages_diverges _ _ _ _ _ _ Hcfg Hlong).
Qed.

End Ingestion.

Section Runs.

#[local] Existing Instance Fixtures.ascii_db.
#[local] Existing Instance Fixtures.runtime.
#[local] Existing Instance Fixtures.three_dim_model.

(** A document with a blank page in the middle: two chunks, both stored. *)
Example store_scan_doc :
  match store_pdf_with_progress (H1 := Fixtures.accepting_server) 0 Fixtures.ready_batch
          (Fixtures.one_file "scan.pdf" Fixtures.scan_doc) Fixtures.ready_server
          "scan.pdf" None with
  | Some (success, server) => Some (success, Fixtures.stored_rows server)
  | None => None
  end = Some (true, [(1, 0); (3, 1)]).
Proof. vm_compute. reflexivity. Qed.

(** A collaborator that returns no vector at all: nothing stored, failure. *)
Example store_without_embeddings :
  store_pdf_with_progress (H0 := Fixtures.short_model 0 3)
    (H1 := Fixtures.accepting_server) 0 Fixtures.ready_batch
    (Fixtures.one_file "scan.pdf" Fixtures.scan_doc) Fixtures.ready_server
    "scan.pdf" None
  = Some (false, Fixtures.ready_server).
Proof. vm_compute. reflexivity. Qed.

(** C5.  [store_pdf_with_progress] does not return on every PDF: with
    [0 < chunk_overlap < chunk_size] (the shipped configuration) a document
    with one page of more than [chunk_size] words keeps it in the chunker's
    loop whatever the fuel, so neither [True] nor [False] is answered (here
    for a page of 1001 words).  When it does return, [True] means that rows
    were added to the client's collection; on a server whose flush does not
    raise after an insert, [True] is answered if and only if rows were
    added, and [False] leaves the server as it was.  When a flush raises,
    the rows of that batch are with the server and the batch counts as
    failed: with every flush raising, two rows are added and the answer is
    [False].  A PDF from which no page is extracted (missing, unreadable,
    empty, or images only) is answered [False] with the server untouched,
    whatever the fuel; and the function returns on every document whose
    pages have at most [chunk_size] words. *)
Theorem store_pdf_may_never_return :
  (forall (db : UnicodeDB) (model : Model) (srv : Server) (rt : Runtime) fuel self fs
          server pdf_path document_id,
     0 < chunk_overlap (pdf_processor self) < chunk_size (pdf_processor self) ->
     Exists (fun p => chunk_size (pdf_processor self) < len (split (pt_text p)))
       (extract_text_from_pdf fs pdf_path) ->
     store_pdf_with_progress fuel self fs server pdf_path document_id = None) /\
  (forall (srv : Server) fuel,
     store_pdf_with_progress fuel Fixtures.ready_batch
       (Fixtures.one_file "long.pdf" long_doc) Fixtures.ready_server "long.pdf" None
     = None) /\
  (forall (db : UnicodeDB) (model : Model) (srv : Server) (rt : Runtime) fuel self fs
          server pdf_path document_id success server',
     store_pdf_with_progress fuel self fs server pdf_path document_id
       = Some (success, server') ->
     (success = true ->
      row_count (milvus_client self) server < row_count (milvus_client self) server') /\
     ((forall c rows, insert_flush c rows <> FlushRaised) ->
      (success = true <->
       row_count (milvus_client self) server < row_count (milvus_client self) server') /\
      (success = false -> server' = server))) /\
  match store_pdf_with_progress (H1 := Fixtures.unflushed_server) 0 Fixtures.ready_batch
          (Fixtures.one_file "scan.pdf" Fixtures.scan_doc) Fixtures.ready_server
          "scan.pdf" None with
  | Some (success, server) => Some (success, Fixtures.stored_rows server)
  | None => None
  end = Some (false, [(1, 0); (3, 1)]) /\
  (forall (db : UnicodeDB) (model : Model) (srv : Server) (rt : Runtime) fuel self fs
          server pdf_path document_id,
     (extract_text_from_pdf fs pdf_path = [] ->
      store_pdf_with_progress fuel self fs server pdf_path document_id
        = Some (false, server)) /\
     (Forall (fun p => len (split (pt_text p)) <= chunk_size (pdf_processor self))
        (extract_text_from_pdf fs pdf_path) ->
      exists success server',
        store_pdf_with_progress fuel self fs server pdf_path document_id
          = Some (success, server'))).
Proof.
  split; [intros; now apply store_pdf_with_progress_diverges|].
  split.
  { intros srv fuel. apply store_pdf_with_progress_diverges; [split; reflexivity|].
    vm_compute. left. reflexivity. }
  split.
  { intros db model srv rt fuel self fs server pdf_path document_id success server'.
    unfold store_pdf_with_progress.
    destruct (Fitz.path_exists fs pdf_path); cbn [negb].
    2:{ intros [= <- <-]. split; [discriminate|]. intros _.
        split; [split; [discriminate|lia]|reflexivity]. }
    destruct (process_pdf _ _ _ _ _) as [all_chunks|]; [|discriminate].
    destruct (truthy all_chunks); cbn [negb].
    2:{ intros [= <- <-]. split; [discriminate|]. intros _.
        split; [split; [discriminate|lia]|reflexivity]. }
    destruct (range 0 (len all_chunks) (batch_size self)) as [starts|].
    2:{ intros [= <- <-]. split; [discriminate|]. intros _.
        split; [split; [discriminate|lia]|reflexivity]. }
    destruct (store_batches self all_chunks starts 0 0 server)
      as [[successful failed] server1] eqn:Hrun.
    apply store_batches_rows in Hrun as (Hs & Hf & Hrows & Hmoved & Hsame); [|lia].
    destruct (Z.eqb_spec (successful + failed) 0); intros [= <- <-].
    - split; [discriminate|]. intros Hflush.
      assert (server1 = server) as -> by (apply (Hsame Hflush); lia).
      split; [split; [discriminate|lia]|reflexivity].
    - destruct (Z.gtb_spec successful 0) as [Hpos|Hzero].
      + split; [intros _; apply Hmoved; lia|]. intros _.
        split; [split; [intros _; apply Hmoved; lia|reflexivity]|discriminate].
      + split; [discriminate|]. intros Hflush.
        assert (server1 = server) as -> by (apply (Hsame Hflush); lia).
        split; [split; [discriminate|lia]|reflexivity]. }
  split; [vm_compute; reflexivity|].
  intros db model srv rt fuel self fs server pdf_path document_id.
  unfold store_pdf_with_progress.
  destruct (Fitz.path_exists fs pdf_path); cbn [negb]; [|split; eauto].
  split.
  - intros Hnone. unfold process_pdf. now rewrite Hnone.
  - intros Hshort. unfold process_pdf.
    destruct (truthy (extract_text_from_pdf fs pdf_path)); cbn [negb]; [|cbn; eauto].
    destruct (process_pages_short fuel (pdf_processor self)
                (match document_id with Some (_ :: _ as id) => id | _ => uuid4 end)
                _ 0 [] Hshort) as (chunks & ->).
    destruct (truthy chunks); cbn [negb]; [|eauto].
    destruct (range 0 (len chunks) (batch_size self)); [|eauto].
    destruct (store_batches self chunks l 0 0 server) as [[successful failed] server1].
    destruct (successful + failed =? 0); eauto.
Qed.

End Runs.

End IngestionFacts.

(** ** Chunk identifiers *)

Module ChunkIdFacts.

Import PDFProcessor ChunkerFacts ProcessFacts.

Section Crowded.

#[local] Existing Instance Fixtures.ascii_db.
#[local] Existing Instance Fixtures.accepting_server.
#[local] Existing Instance Fixtures.runtime.
#[local] Existing Instance Fixtures.crowded_splitter.
#[local] Existing Instance Fixtures.three_dim_model.

(** C6.  [process_pdf] numbers the chunks of a document 0, 1, 2, ... in page
    order and then window order, so its identifiers are strictly increasing
    and unique.  [process_pdf_page_by_page] computes
    [page_num * 1000 + chunk_idx]: when a page has more than 1000 chunks, its
    chunk 1000 and the first chunk of the next page get the same identifier
    (here 1000, on pages 1 and 2). *)
Theorem chunk_ids_collide_after_1000_chunks :
  (forall (db : UnicodeDB) fuel self fs pdf_path document_id chunks,
     process_pdf (H := db) fuel self fs pdf_path document_id = Some chunks ->
     map chunk_id chunks = ids_from 0 (length chunks) /\
     StronglySorted Z.lt (map chunk_id chunks)) /\
  (let '(success, server) :=
     PDFPageProcessor.process_pdf_page_by_page
       {| PDFPageProcessor.milvus_client := Fixtures.ready_client |}
       (Fixtures.one_file "crowded.pdf" Fixtures.crowded_doc) Fixtures.ready_server
       "crowded.pdf" None in
   (success, length (Fixtures.stored_rows server),
    skipn 999 (Fixtures.stored_rows server)))
  = (true, 1002%nat, [(1, 999); (1, 1000); (2, 1000)]).
Proof.
  split.
  - intros db fuel self fs pdf_path document_id chunks Hrun.
    apply process_pdf_ids in Hrun. rewrite Hrun. split; [reflexivity|].
    apply ids_from_sorted.
  - vm_compute. reflexivity.
Qed.

End Crowded.

End ChunkIdFacts.

(** * Further properties of the code *)

(** ** The text cleaner: shape of its output *)

Module CleanerShape.

Import PyFacts CleanerFacts ChunkerFacts PDFProcessor.

Lemma nonblank_no_space w :
  nonblank w -> Forall (fun c => isspace c = true -> c = SPACE) w.
Proof.
  intros [_ Hall]. apply List.Forall_forall. intros c Hc Hspace.
  rewrite forallb_forall in Hall. specialize (Hall c Hc). now rewrite Hspace in Hall.
Qed.

(** What [re.sub(r'\s+', ' ', s)] is made of: spaces, and the
    non-whitespace characters of [s]. *)
Lemma re_sub_whitespace_In c s :
  In c (re_sub_whitespace s) -> c = SPACE \/ (In c s /\ isspace c = false).
Proof.
  induction s as [|d s IH]; [contradiction|]. cbn [re_sub_whitespace].
  destruct (isspace d) eqn:Hd.
  - destruct s as [|d' s]; [intros [<-|[]]; now left|].
    destruct (isspace d').
    + intros Hc. destruct (IH Hc) as [->|[Hin Hns]]; [now left|right].
      split; [now right|exact Hns].
    + intros [<-|Hc]; [now left|]. destruct (IH Hc) as [->|[Hin Hns]]; [now left|right].
      split; [now right|exact Hns].
  - intros [<-|Hc]; [right; split; [now left|exact Hd]|].
    destruct (IH Hc) as [->|[Hin Hns]]; [now left|right]. split; [now right|exact Hns].
Qed.

Lemma re_sub_whitespace_keeps c s :
  In c s -> isspace c = false -> In c (re_sub_whitespace s).
Proof.
  intros Hin Hc. induction s as [|d s IH]; [contradiction|].
  cbn [re_sub_whitespace]. destruct Hin as [->|Hin].
  - rewrite Hc. now left.
  - specialize (IH Hin). destruct (isspace d); [|now right].
    destruct s as [|d' s]; [contradiction|]. destruct (isspace d'); [exact IH|now right].
Qed.

(** A text with a non-whitespace character has a word. *)
Lemma split_not_nil c s : In c s -> isspace c = false -> split s <> [].
Proof.
  intros Hin Hc. induction s as [|d s IH]; [contradiction|].
  destruct (isspace d) eqn:Hd.
  - rewrite (split_cons_space _ _ Hd). destruct Hin as [->|Hin]; [congruence|now apply IH].
  - rewrite (split_cons_nonspace _ _ Hd). destruct s as [|d' s]; [discriminate|].
    destruct (isspace d'); [discriminate|]. now destruct (split (d' :: s)).
Qed.

Lemma join_not_nil ws : Forall nonblank ws -> ws <> [] -> join [SPACE] ws <> [].
Proof.
  intros Hws Hne. destruct ws as [|w ws]; [congruence|].
  destruct (join_head _ _ Hws) as (c & r & -> & _). discriminate.
Qed.

Section Shape.
Context `{UnicodeDB}.

(** X1.  The cleaned text is in normal form: every character is one the filter
    keeps, the only whitespace character left is the space U+0020, there is
    none at either end, and the words are separated by exactly one space
    (splitting and joining again gives the same text). *)
Theorem clean_text_normal_form (t : str) :
  Forall (fun c => kept c = true) (_clean_text t) /\
  Forall (fun c => isspace c = true -> c = SPACE) (_clean_text t) /\
  strip (_clean_text t) = _clean_text t /\
  join [SPACE] (split (_clean_text t)) = _clean_text t.
Proof.
  destruct (clean_text_words t) as (ws & Hws & Hkept & ->).
  split; [apply join_Forall; [apply kept_SPACE|exact Hkept]|].
  split; [|split].
  - apply join_Forall; [reflexivity|].
    eapply List.Forall_impl; [|exact Hws]. apply nonblank_no_space.
  - now apply strip_join.
  - now rewrite split_join.
Qed.

(** X2.  The cleaned text is empty exactly when the text has no character that
    is both kept and not whitespace: the empty text, a blank one, one made
    of filtered characters only. *)
Theorem clean_text_empty_iff (t : str) :
  _clean_text t = [] <->
  Forall (fun c => isspace c = true \/ kept c = false) t.
Proof.
  split.
  - intros Hempty. apply List.Forall_forall. intros c Hc.
    destruct (isspace c) eqn:Hspace; [now left|right].
    destruct (kept c) eqn:Hkept; [exfalso|reflexivity].
    assert (Hin : In c (List.filter kept (re_sub_whitespace t))).
    { apply filter_In. split; [now apply re_sub_whitespace_keeps|exact Hkept]. }
    apply (join_not_nil (split (List.filter kept (re_sub_whitespace t)))).
    + apply split_nonblank.
    + now apply (split_not_nil c).
    + unfold _clean_text in Hempty. now rewrite strip_join in Hempty by apply split_nonblank.
  - intros Hall. unfold _clean_text.
    rewrite (split_spaces (List.filter kept (re_sub_whitespace t))); [reflexivity|].
    apply List.Forall_forall. intros c Hc. apply filter_In in Hc as [Hc Hkept].
    apply re_sub_whitespace_In in Hc as [->|[Hin Hns]]; [reflexivity|].
    rewrite List.Forall_forall in Hall. destruct (Hall c Hin); congruence.
Qed.

End Shape.

End CleanerShape.

(** ** The chunker where it terminates *)

Module ChunkerTermination.

Import PyFacts ChunkerFacts PDFProcessor.

(** One turn of the loop without overlap appends the next tile. *)
Lemma chunk_loop_tiles self words chunk_id (m : nat) :
  chunk_overlap self = 0 -> 0 < chunk_size self ->
  forall (j : nat) chunks fuel,
    length chunks = j ->
    Z.of_nat j * chunk_size self < len words ->
    len words <= Z.of_nat (j + m) * chunk_size self ->
    (Z.of_nat (j + m) - 1) * chunk_size self < len words ->
    (m <= fuel)%nat ->
    chunk_loop fuel self words chunk_id (Z.of_nat j * chunk_size self) chunks
      = Some (chunks ++ tiles self words chunk_id j m).
Proof.
  intros Hov Hsize. induction m as [|m IH]; intros j chunks fuel Hj Hlo Hhi Htight Hfuel.
  { rewrite Nat.add_0_r in Hhi. lia. }
  destruct fuel as [|fuel]; [lia|]. cbn [chunk_loop].
  destruct (Z.ltb_spec (Z.of_nat j * chunk_size self) (len words)); [|lia].
  rewrite Hov, Z.sub_0_r. unfold tiles. cbn [seq map].
  assert (Hlen : len chunks = Z.of_nat j) by (unfold len; now rewrite Hj).
  rewrite Hlen.
  destruct (Z.geb_spec (Z.min (Z.of_nat j * chunk_size self + chunk_size self) (len words))
              (len words)) as [Hdone|Hmore].
  - assert (m = 0)%nat as -> by nia. reflexivity.
  - rewrite Z.min_l in * by lia.
    replace (Z.of_nat j * chunk_size self + chunk_size self)
      with (Z.of_nat (S j) * chunk_size self) in * by lia.
    rewrite (IH (S j)); [|rewrite length_app; cbn; lia|lia| | |lia].
    + rewrite <- app_assoc. reflexivity.
    + replace (S j + m)%nat with (j + S m)%nat by lia. exact Hhi.
    + replace (S j + m)%nat with (j + S m)%nat by lia. exact Htight.
Qed.

(** X3.  With [chunk_overlap = 0] the chunker terminates: a text of more than
    [chunk_size] words is cut into [ceil(w / chunk_size)] chunks, numbered
    from [chunk_id], whose windows follow one another without gap or overlap
    from word 0 to the last word. *)
Theorem chunk_text_without_overlap_tiles (fuel : nat) (self : PDFProcessor.t)
    (text : str) (chunk_id : Z) :
  chunk_overlap self = 0 ->
  0 < chunk_size self < len (split text) ->
  len (split text) <= Z.of_nat fuel ->
  chunk_text fuel self text chunk_id
    = Some (tiles self (split text) chunk_id 0
              (Z.to_nat ((len (split text) + chunk_size self - 1) / chunk_size self))).
Proof.
  intros Hov [Hsize Hlong] Hfuel. unfold chunk_text.
  destruct (Z.leb_spec (len (split text)) (chunk_size self)); [lia|].
  set (n := len (split text)) in *. set (b := chunk_size self) in *.
  assert (Hq : 0 <= (n + b - 1) / b) by (apply Z.div_pos; lia).
  pose proof (Z.div_mod (n + b - 1) b ltac:(lia)) as Hdiv.
  pose proof (Z.mod_pos_bound (n + b - 1) b Hsize) as Hmod.
  pose proof (chunk_loop_tiles self (split text) chunk_id
                (Z.to_nat ((n + b - 1) / b)) Hov Hsize 0 [] fuel eq_refl) as Hloop.
  fold n b in Hloop. cbn [Nat.add app] in Hloop.
  change (Z.of_nat 0 * b) with 0 in Hloop. rewrite Z2Nat.id in Hloop by exact Hq.
  assert ((n + b - 1) / b <= n) by nia.
  apply Hloop; nia.
Qed.

Lemma chunk_text_without_overlap_tiles_witness :
  option_map windows
    (chunk_text 5 {| chunk_size := 2; chunk_overlap := 0 |} (of_string "a b c d e") 7)
  = Some [(0, 2); (2, 4); (4, 5)].
Proof.
  rewrite (chunk_text_without_overlap_tiles 5 {| chunk_size := 2; chunk_overlap := 0 |}
             (of_string "a b c d e") 7); [reflexivity|reflexivity|split; reflexivity|].
  vm_compute. discriminate.
Defined.

End ChunkerTermination.

(** ** The list chunker and the generator chunker *)

Module ChunkerAgreement.

Import PyFacts ChunkerFacts PDFProcessor.

Lemma split_nil_spaces s : split s = [] -> Forall (fun c => isspace c = true) s.
Proof.
  induction s as [|c s IH]; [constructor|].
  destruct (isspace c) eqn:Hc.
  - rewrite (split_cons_space _ _ Hc). intros Hs. constructor; auto.
  - rewrite (split_cons_nonspace _ _ Hc). destruct s as [|d s]; [discriminate|].
    destruct (isspace d); [discriminate|]. now destruct (split (d :: s)).
Qed.

Lemma lstrip_spaces s : Forall (fun c => isspace c = true) s -> lstrip s = [].
Proof. induction 1 as [|c s Hc _ IH]; [reflexivity|]. cbn [lstrip]. now rewrite Hc. Qed.

(** A text without a word is blank for [strip] too. *)
Lemma split_nil_strip s : split s = [] -> strip s = [].
Proof.
  intros Hs. unfold strip. now rewrite (lstrip_spaces _ (split_nil_spaces _ Hs)).
Qed.

Lemma collect_S fuel self text chunk_id g :
  Streaming.collect (S fuel) self text chunk_id g =
    match Streaming.next self text chunk_id g with
    | (None, _) => Some []
    | (Some chunk, g') =>
        match Streaming.collect fuel self text chunk_id g' with
        | Some chunks => Some (chunk :: chunks)
        | None => None
        end
    end.
Proof. reflexivity. Qed.

Lemma collect_more_fuel fuel self text chunk_id g chunks :
  Streaming.collect fuel self text chunk_id g = Some chunks ->
  Streaming.collect (S fuel) self text chunk_id g = Some chunks.
Proof.
  revert g chunks. induction fuel as [|fuel IH]; intros g chunks; [discriminate|].
  intros Hrun. rewrite collect_S in Hrun. rewrite (collect_S (S fuel)).
  destruct (Streaming.next self text chunk_id g) as [[chunk|] g']; [|exact Hrun].
  destruct (Streaming.collect fuel self text chunk_id g') as [rest|] eqn:Hrest;
    [|discriminate].
  now rewrite (IH _ _ Hrest).
Qed.

(** Suspended after the window starting at [start], the generator yields
    what the list loop still appends. *)
Lemma chunk_loop_collect fuel self text chunk_id start chunks out :
  start < len (split text) ->
  chunk_loop fuel self (split text) chunk_id start chunks = Some out ->
  exists rest,
    out = chunks
            ++ new_chunk (chunk_id + len chunks)
                 (join [SPACE]
                    (slice (split text) start
                       (Z.min (start + chunk_size self) (len (split text)))))
                 start (Z.min (start + chunk_size self) (len (split text)))
            :: rest /\
    Streaming.collect fuel (streaming_of self) text chunk_id
      (Streaming.AtLoopYield start
         (Z.min (start + chunk_size self) (len (split text))) (len chunks))
    = Some rest.
Proof.
  revert start chunks out.
  induction fuel as [|fuel IH]; intros start chunks out Hstart Hrun; [discriminate|].
  cbn [chunk_loop] in Hrun.
  destruct (Z.ltb_spec start (len (split text))); [|lia].
  set (end_ := Z.min (start + chunk_size self) (len (split text))) in *.
  set (c := new_chunk _ _ _ _) in *.
  cbn [Streaming.collect Streaming.next streaming_of Streaming.chunk_overlap
       Streaming.chunk_size].
  destruct (Z.geb_spec (end_ - chunk_overlap self) (len (split text))) as [Hdone|Hmore].
  - inversion Hrun; subst out. exists []. split; reflexivity.
  - destruct (IH _ _ _ Hmore Hrun) as (rest & -> & Hrest).
    unfold Streaming.loop_test. cbn [Streaming.chunk_size].
    destruct (Z.ltb_spec (end_ - chunk_overlap self) (len (split text))); [|lia].
    assert (Hlen : len (chunks ++ [c]) = len chunks + 1).
    { unfold len. rewrite length_app. cbn [length]. lia. }
    rewrite Hlen in Hrest |- *.
    change (Streaming.chunk_size (streaming_of self)) with (chunk_size self).
    rewrite Hrest. eexists. split; [|reflexivity].
    now rewrite <- app_assoc.
Qed.

Lemma chunk_text_as_stream fuel self text chunk_id chunks :
  split text <> [] ->
  chunk_text fuel self text chunk_id = Some chunks ->
  Streaming.chunk_text_streaming (S (S fuel)) (streaming_of self) text chunk_id
    = Some chunks.
Proof.
  intros Hwords. unfold chunk_text, Streaming.chunk_text_streaming.
  assert (Hstrip : truthy (strip text) = true).
  { destruct (strip text) eqn:Hs; [|reflexivity].
    now apply strip_nil_split in Hs. }
  assert (Hpos : 0 < len (split text)).
  { destruct (split text); [congruence|]. unfold len. cbn [length]. lia. }
  destruct (Z.leb_spec (len (split text)) (chunk_size self)) as [Hshort|Hlong].
  - intros [= <-]. cbn [Streaming.collect Streaming.next]. rewrite Hstrip.
    cbn [negb streaming_of Streaming.chunk_size].
    destruct (Z.leb_spec (len (split text)) (chunk_size self)); [reflexivity|lia].
  - intros Hrun. apply collect_more_fuel.
    destruct (chunk_loop_collect _ _ _ _ _ _ _ Hpos Hrun) as (rest & -> & Hrest).
    rewrite collect_S. cbn [Streaming.next]. rewrite Hstrip.
    cbn [negb streaming_of Streaming.chunk_size].
    destruct (Z.leb_spec (len (split text)) (chunk_size self)); [lia|].
    unfold Streaming.loop_test. cbn [Streaming.chunk_size].
    destruct (Z.ltb_spec 0 (len (split text))); [|lia].
    change (len (@nil Chunk)) with 0 in Hrest.
    change (Streaming.chunk_size (streaming_of self)) with (chunk_size self).
    rewrite Hrest. reflexivity.
Qed.

(** X4.  On a text that is not blank, pulling [chunk_text_streaming] to its end
    gives the list [chunk_text] returns: the same chunks with the same
    identifiers, in the same order. *)
Theorem chunk_text_streaming_agrees (fuel : nat) (self : PDFProcessor.t)
    (text : str) (chunk_id : Z) (chunks : list Chunk) :
  split text <> [] ->
  chunk_text fuel self text chunk_id = Some chunks ->
  Streaming.chunk_text_streaming (S (S fuel)) (streaming_of self) text chunk_id
    = Some chunks.
Proof. apply chunk_text_as_stream. Qed.

Lemma chunk_text_streaming_agrees_witness :
  Streaming.chunk_text_streaming 12 (streaming_of {| chunk_size := 2; chunk_overlap := 0 |})
    (of_string "a b c d e") 7
  = chunk_text 10 {| chunk_size := 2; chunk_overlap := 0 |} (of_string "a b c d e") 7.
Proof.
  apply (chunk_text_streaming_agrees 10 {| chunk_size := 2; chunk_overlap := 0 |}
           (of_string "a b c d e") 7); [discriminate|reflexivity].
Defined.

(** X5.  On a blank text the two differ: [chunk_text] returns one chunk with no
    word in it (the text itself, words 0 to 0), the generator yields
    nothing. *)
Theorem chunk_text_of_blank_text (fuel : nat) (self : PDFProcessor.t)
    (text : str) (chunk_id : Z) :
  split text = [] ->
  0 <= chunk_size self ->
  chunk_text fuel self text chunk_id = Some [new_chunk chunk_id text 0 0] /\
  Streaming.chunk_text_streaming (S fuel) (streaming_of self) text chunk_id = Some [].
Proof.
  intros Hblank Hsize. split.
  - rewrite chunk_text_short; rewrite Hblank; [reflexivity|exact Hsize].
  - unfold Streaming.chunk_text_streaming. cbn [Streaming.collect Streaming.next].
    now rewrite (split_nil_strip _ Hblank).
Qed.

Lemma chunk_text_of_blank_text_witness :
  chunk_text 0 PDFProcessor.init (of_string "   ") 4
    = Some [new_chunk 4 (of_string "   ") 0 0] /\
  Streaming.chunk_text_streaming 1 (streaming_of PDFProcessor.init) (of_string "   ") 4
    = Some [].
Proof.
  apply (chunk_text_of_blank_text 0 PDFProcessor.init (of_string "   ") 4);
    [reflexivity|discriminate].
Defined.

End ChunkerAgreement.

(** ** Extraction: when nothing comes out, and the streaming extractor *)

Module ExtractionMore.

Import PyFacts CleanerFacts ExtractionFacts ProcessFacts PageStreamFacts PDFProcessor.

Lemma raises_or_readable (doc : list Fitz.Page) :
  Exists (fun page => Fitz.get_text page = None) doc \/
  Forall (fun page => Fitz.get_text page <> None) doc.
Proof.
  induction doc as [|page rest [IH|IH]]; [right; constructor|left; now right|].
  destruct (Fitz.get_text page) eqn:Hpage; [right|left; now left].
  constructor; [congruence|exact IH].
Qed.

Section More.
Context `{UnicodeDB}.

Lemma streaming_pages_nil doc page_num :
  Streaming.streaming_pages doc page_num = [] <->
  Forall (fun page => forall raw, Fitz.get_text page = Some raw -> _clean_text raw = []) doc.
Proof.
  split.
  - intros Hnil. apply List.Forall_forall. intros page Hpage raw Hraw.
    destruct (_clean_text raw) eqn:Hclean; [reflexivity|exfalso].
    apply list_elem_of_In, list_elem_of_lookup_1 in Hpage as [i Hi].
    assert (Hin : In (new_page (page_num + Z.of_nat i + 1) (_clean_text raw) page)
                    (Streaming.streaming_pages doc page_num)).
    { apply streaming_pages_In. exists i, page, raw. rewrite Hclean. now repeat split. }
    now rewrite Hnil in Hin.
  - intros Hblank. destruct (Streaming.streaming_pages doc page_num) as [|p ps] eqn:Hpages;
      [reflexivity|exfalso].
    assert (Hin : In p (Streaming.streaming_pages doc page_num)) by (rewrite Hpages; now left).
    apply streaming_pages_In in Hin as (i & page & raw & Hi & Hraw & Hne & _).
    rewrite List.Forall_forall in Hblank. apply Hne, (Hblank page); [|exact Hraw].
    apply list_elem_of_In, list_elem_of_lookup. now exists i.
Qed.

(** X6.  [extract_text_from_pdf] returns the empty list in exactly three cases:
    the file cannot be opened, some page raises, or no page has a non-empty
    cleaned text.  The caller cannot tell them apart. *)
Theorem extract_text_from_pdf_empty_iff (fs : gmap string Fitz.file) (pdf_path : string) :
  (Fitz.open fs pdf_path = None -> extract_text_from_pdf fs pdf_path = []) /\
  (forall doc,
     Fitz.open fs pdf_path = Some doc ->
     (extract_text_from_pdf fs pdf_path = [] <->
      Exists (fun page => Fitz.get_text page = None) doc \/
      Forall (fun page => forall raw, Fitz.get_text page = Some raw ->
                                      _clean_text raw = []) doc)).
Proof.
  split.
  - intros Hopen. unfold extract_text_from_pdf. now rewrite Hopen.
  - intros doc Hopen. destruct (raises_or_readable doc) as [Hraises|Hreadable].
    + split; [now left|]. intros _. now apply (extract_text_from_pdf_raises _ _ doc).
    + rewrite (extract_text_from_pdf_readable _ _ _ Hopen Hreadable), streaming_pages_nil.
      split; [now right|]. intros [Hraises|Hblank]; [exfalso|exact Hblank].
      apply List.Exists_exists in Hraises as (page & Hpage & Hnone).
      rewrite List.Forall_forall in Hreadable. now apply (Hreadable page).
Qed.

(** X7.  [extract_text_from_pdf_streaming] yields page [i + 1] exactly when page
    [i] can be read and its cleaned text is not empty, in ascending order:
    a page that raises is skipped and costs no other page. *)
Theorem extract_text_from_pdf_streaming_skips (fs : gmap string Fitz.file)
    (pdf_path : string) (doc : list Fitz.Page) :
  Fitz.open fs pdf_path = Some doc ->
  (forall p, In p (Streaming.extract_text_from_pdf_streaming fs pdf_path) <->
     exists (i : nat) page raw,
       doc !! i = Some page /\ Fitz.get_text page = Some raw /\
       _clean_text raw <> [] /\
       p = new_page (Z.of_nat i + 1) (_clean_text raw) page) /\
  StronglySorted Z.lt
    (map pt_page_number (Streaming.extract_text_from_pdf_streaming fs pdf_path)).
Proof.
  intros Hopen. unfold Streaming.extract_text_from_pdf_streaming. rewrite Hopen.
  split; [|apply streaming_pages_sorted].
  intros p. rewrite streaming_pages_In. reflexivity.
Qed.

Lemma process_pages_short_form fuel self document_id pages chunk_counter all_chunks :
  Forall (fun p => len (split (pt_text p)) <= chunk_size self) pages ->
  process_pages fuel self document_id pages chunk_counter all_chunks
    = Some (all_chunks
              ++ imap (fun k p =>
                         update (new_chunk (chunk_counter + Z.of_nat k) (pt_text p) 0
                                   (len (split (pt_text p))))
                           document_id p) pages).
Proof.
  intros Hshort. revert chunk_counter all_chunks.
  induction Hshort as [|page rest Hpage _ IH]; intros chunk_counter all_chunks;
    cbn [process_pages imap]; [now rewrite app_nil_r|].
  rewrite (ChunkerFacts.chunk_text_short _ _ _ _ Hpage), IH. cbn [map].
  rewrite <- app_assoc. cbn [app]. rewrite Z.add_0_r. do 3 f_equal.
  apply imap_ext. intros k p _. cbn. do 2 f_equal. unfold len. cbn [length]. lia.
Qed.

(** X8.  A document whose pages have at most [chunk_size] words becomes one chunk
    per extracted page: chunk [k] is the whole cleaned text of the [k]-th
    extracted page, tagged with the document id and that page's number and
    size. *)
Theorem process_pdf_one_chunk_per_page (fuel : nat) (self : PDFProcessor.t)
    (fs : gmap string Fitz.file) (pdf_path : string) (document_id : str) :
  Forall (fun p => len (split (pt_text p)) <= chunk_size self)
    (extract_text_from_pdf fs pdf_path) ->
  process_pdf fuel self fs pdf_path document_id
    = Some (imap (fun k p =>
                    update (new_chunk (Z.of_nat k) (pt_text p) 0
                              (len (split (pt_text p))))
                      document_id p)
              (extract_text_from_pdf fs pdf_path)).
Proof.
  intros Hshort. unfold process_pdf.
  destruct (extract_text_from_pdf fs pdf_path) as [|p ps] eqn:Hpages; [reflexivity|].
  cbn [truthy negb]. rewrite (process_pages_short_form _ _ _ _ _ _ Hshort). reflexivity.
Qed.

End More.

Lemma extract_text_from_pdf_streaming_skips_witness :
  Fitz.open (Fixtures.one_file "doc.pdf" Fixtures.damaged_doc) "doc.pdf"
    = Some Fixtures.damaged_doc /\
  StronglySorted Z.lt
    (map pt_page_number
       (Streaming.extract_text_from_pdf_streaming (H := Fixtures.ascii_db)
          (Fixtures.one_file "doc.pdf" Fixtures.damaged_doc) "doc.pdf")) /\
  map pt_page_number
    (Streaming.extract_text_from_pdf_streaming (H := Fixtures.ascii_db)
       (Fixtures.one_file "doc.pdf" Fixtures.damaged_doc) "doc.pdf") = [1; 3].
Proof.
  split; [reflexivity|]. split; [|vm_compute; reflexivity].
  apply (extract_text_from_pdf_streaming_skips (H := Fixtures.ascii_db)
           (Fixtures.one_file "doc.pdf" Fixtures.damaged_doc) "doc.pdf"
           Fixtures.damaged_doc).
  reflexivity.
Defined.

Lemma process_pdf_one_chunk_per_page_witness :
  option_map (map (fun chunk => (chunk_id chunk, page_number chunk, document_id chunk)))
    (process_pdf (H := Fixtures.ascii_db) 0 PDFProcessor.init
       (Fixtures.one_file "scan.pdf" Fixtures.scan_doc) "scan.pdf" (of_string "d"))
  = Some [(0, Some 1, Some (of_string "d")); (1, Some 3, Some (of_string "d"))].
Proof.
  rewrite (process_pdf_one_chunk_per_page (H := Fixtures.ascii_db) 0 PDFProcessor.init
             (Fixtures.one_file "scan.pdf" Fixtures.scan_doc) "scan.pdf" (of_string "d")).
  - vm_compute. reflexivity.
  - vm_compute. repeat constructor; discriminate.
Defined.

End ExtractionMore.

(** ** The collection: creation, deletion, counting *)

Module MilvusLifecycle.

Import PDFProcessor MilvusClient MilvusFacts.


Lemma valid_documents_length documents :
  length (valid_documents documents []) = length (List.filter is_complete documents).
Proof.
  induction documents as [|doc rest IH]; [reflexivity|].
  rewrite valid_documents_cons. cbn [List.filter]. unfold is_complete.
  destruct (d_document_id doc), (d_page_number doc), (d_chunk_id doc), (d_text doc),
    (d_embedding doc); cbn [length]; now rewrite IH.
Qed.








Section Stale.
Context `{Server}.


(** X13.  A successful insert raises the row count that [get_collection_stats]
    reports by the number of documents that have all five keys, whatever
    their texts, ids and embeddings are. *)
Theorem insert_documents_counts (self : t) (server server' : gmap string Collection)
    (documents : list Document) (n : Z) (nm : string) :
  get_collection_stats self server = Stats n nm ->
  insert_documents self server documents = (true, server') ->
  get_collection_stats self server'
    = Stats (n + len (List.filter is_complete documents)) nm.
Proof.
  unfold get_collection_stats, insert_documents.
  destruct (collection self) as [handle|]; [|discriminate].
  destruct (server !! handle) as [c|] eqn:Hc; [|discriminate].
  intros [= <- <-].
  destruct documents as [|doc rest].
  { cbn. intros [= <-]. rewrite Hc. now rewrite Z.add_0_r. }
  cbn [truthy negb]. unfold len. rewrite <- valid_documents_length.
  destruct (valid_documents (doc :: rest) []) as [|e valid]; [discriminate|].
  cbn [truthy negb]. cbv zeta.
  destruct (insert_flush c (e :: valid)); [|discriminate|discriminate].
  intros [= <-]. rewrite lookup_insert_eq. cbn [entities].
  rewrite length_app. f_equal. lia.
Qed.

(** X14.  Every row [insert_documents] hands to the server has a document id of at
    most 100 characters and a text of at most [MAX_TEXT_LENGTH] characters,
    the limits of the two VARCHAR fields of the schema; the embedding is
    passed on as the document has it, whatever its length. *)
Theorem validated_rows_fit_the_schema (documents : list Document) :
  Forall (fun e =>
            len (e_document_id e) <= 100 /\
            len (e_text e) <= Config.MAX_TEXT_LENGTH /\
            exists doc, In doc documents /\ d_embedding doc = Some (e_embedding e))
    (valid_documents documents []).
Proof.
  apply List.Forall_forall. intros e He.
  apply valid_documents_In in He as (d & p & k & t & v & Hin & ->).
  unfold truncated, len. cbn [e_document_id e_text e_embedding].
  rewrite !length_firstn. change Config.MAX_TEXT_LENGTH with 8192.
  split; [lia|]. split; [lia|].
  now exists (complete d p k t v).
Qed.

End Stale.

Lemma insert_documents_counts_witness :
  get_collection_stats Fixtures.ready_client Fixtures.ready_server
    = Stats 0 "pdf_documents" /\
  get_collection_stats Fixtures.ready_client
    (snd (insert_documents (H := Fixtures.accepting_server) Fixtures.ready_client
            Fixtures.ready_server
            [long_document;
             {| d_document_id := None; d_page_number := Some 1; d_chunk_id := Some 1;
                d_text := Some (of_string "no id"); d_embedding := Some [] |}]))
    = Stats (0 + len (List.filter is_complete
                        [long_document;
                         {| d_document_id := None; d_page_number := Some 1;
                            d_chunk_id := Some 1; d_text := Some (of_string "no id");
                            d_embedding := Some [] |}])) "pdf_documents" /\
  len (List.filter is_complete
         [long_document;
          {| d_document_id := None; d_page_number := Some 1; d_chunk_id := Some 1;
             d_text := Some (of_string "no id"); d_embedding := Some [] |}]) = 1.
Proof.
  split; [reflexivity|]. split; [|reflexivity].
  apply (insert_documents_counts (H := Fixtures.accepting_server) Fixtures.ready_client
           Fixtures.ready_server); [reflexivity|].
  vm_compute. reflexivity.
Defined.

End MilvusLifecycle.

(** ** Embedding: what depends on the collaborator *)

Module EmbeddingCollaborator.

Import PDFProcessor EmbeddingGenerator PDFToMilvusBatch EmbeddingFacts.

Lemma concat_map_nil {A B} (f : A -> list B) (l : list A) :
  (forall x, f x = []) -> concat (map f l) = [].
Proof. intros Hf. induction l as [|x l IH]; [reflexivity|]. cbn. now rewrite Hf, IH. Qed.

Lemma embedded_same chunk chunk' :
  embedded chunk chunk' -> chunk_id chunk' = chunk_id chunk /\ text chunk' = text chunk.
Proof. now intros [e ->]. Qed.

Lemma embedded_all_same chunks chunks' :
  Forall2 embedded chunks chunks' ->
  map chunk_id chunks' = map chunk_id chunks /\ map text chunks' = map text chunks.
Proof.
  induction 1 as [|chunk chunk' l l' Hc _ [IHid IHtext]]; [now split|].
  destruct (embedded_same _ _ Hc) as [Hid Htext]. cbn [map].
  now rewrite Hid, Htext, IHid, IHtext.
Qed.

Lemma add_all_spec i chunks (embeddings : list (list number)) :
  EmbeddingGeneratorChunks.add_all i chunks embeddings =
    (imap (fun k chunk => set_embedding chunk (default [] (embeddings !! (i + k)%nat))) chunks,
     seq (Nat.max i (length embeddings))
       (i + length chunks - Nat.max i (length embeddings))).
Proof.
  revert i. induction chunks as [|chunk rest IH]; intros i.
  { cbn [EmbeddingGeneratorChunks.add_all imap length].
    now replace (i + 0 - Nat.max i (length embeddings))%nat with 0%nat by lia. }
  cbn [EmbeddingGeneratorChunks.add_all imap length]. rewrite IH, Nat.add_0_r.
  assert (Htail : imap (fun k chunk0 => set_embedding chunk0
                                          (default [] (embeddings !! (S i + k)%nat))) rest
                  = imap ((fun k chunk0 => set_embedding chunk0
                                             (default [] (embeddings !! (i + k)%nat))) ∘ S)
                      rest).
  { apply imap_ext. intros k c _. cbn. now replace (i + S k)%nat with (S (i + k)) by lia. }
  destruct (embeddings !! i) as [e|] eqn:Hi; cbn [default]; rewrite Htail; f_equal.
  - apply lookup_lt_Some in Hi.
    replace (Nat.max (S i) (length embeddings)) with (length embeddings) by lia.
    replace (Nat.max i (length embeddings)) with (length embeddings) by lia.
    f_equal. lia.
  - apply lookup_ge_None_1 in Hi.
    replace (Nat.max (S i) (length embeddings)) with (S i) by lia.
    replace (Nat.max i (length embeddings)) with i by lia.
    replace (S i + length rest - S i)%nat with (length rest) by lia.
    replace (i + S (length rest) - i)%nat with (S (length rest)) by lia.
    reflexivity.
Qed.

Section Collaborator.
Context `{Model}.

(** X15.  [add_embeddings_to_chunks] never drops a chunk once the collaborator
    returned anything: chunk [i] comes back in place with vector [i], or with
    the empty list and a warning naming [i] when the collaborator returned
    fewer vectors than there are chunks. *)
Theorem add_embeddings_to_chunks_keeps_every_chunk (chunks : list Chunk) :
  generate_embeddings (map text chunks) <> [] ->
  EmbeddingGeneratorChunks.add_embeddings_to_chunks chunks =
    (imap (fun i chunk =>
             set_embedding chunk
               (default [] (generate_embeddings (map text chunks) !! i))) chunks,
     seq (length (generate_embeddings (map text chunks)))
       (length chunks - length (generate_embeddings (map text chunks)))) /\
  length (fst (EmbeddingGeneratorChunks.add_embeddings_to_chunks chunks)) = length chunks.
Proof.
  intros Hsome. unfold EmbeddingGeneratorChunks.add_embeddings_to_chunks.
  destruct chunks as [|chunk rest].
  { cbn [truthy negb imap length fst]. now rewrite Nat.sub_0_l. }
  cbn [truthy negb].
  destruct (generate_embeddings (map text (chunk :: rest))) as [|e es] eqn:Hembs;
    [congruence|].
  cbn [truthy negb]. rewrite add_all_spec. cbn [fst]. rewrite length_imap.
  split; reflexivity.
Qed.

Lemma kept_of_complete batches :
  (forall texts, length (generate_embeddings texts) = length texts) ->
  Forall2 embedded (concat batches) (concat (map kept_of batches)) /\
  concat (map warned_of batches) = [].
Proof.
  intros Hmodel. induction batches as [|batch rest [IHkept IHwarned]];
    [split; [constructor|reflexivity]|].
  cbn [map concat]. rewrite IHwarned, app_nil_r.
  assert (Hlen : length (generate_embeddings (map text batch)) = length batch)
    by now rewrite Hmodel, length_map.
  split.
  - apply Forall2_app; [|exact IHkept].
    destruct (zip_with_set_embedding batch (generate_embeddings (map text batch)))
      as (_ & Hkept & _).
    now rewrite Hlen, firstn_all in Hkept.
  - unfold warned_of. rewrite Hlen, drop_all. reflexivity.
Qed.

(** X16.  With a positive batch size and a collaborator that answers every list
    of texts with as many vectors, [generate_embeddings_in_batches] returns
    every chunk, in order, with a vector attached, and logs no warning. *)
Theorem complete_embeddings_keep_every_chunk (self : PDFToMilvusBatch.t)
    (chunks : list Chunk) :
  0 < embedding_batch_size self ->
  (forall texts, length (generate_embeddings texts) = length texts) ->
  Forall2 embedded chunks (fst (generate_embeddings_in_batches self chunks)) /\
  snd (generate_embeddings_in_batches self chunks) = [] /\
  map chunk_id (fst (generate_embeddings_in_batches self chunks)) = map chunk_id chunks /\
  map text (fst (generate_embeddings_in_batches self chunks)) = map text chunks.
Proof.
  intros Hb Hmodel.
  destruct (generate_embeddings_in_batches_spec self chunks Hb)
    as (batches & Htile & _ & ->).
  destruct (kept_of_complete batches Hmodel) as [Hkept Hwarned].
  rewrite Htile in Hkept. cbn [fst snd].
  split; [exact Hkept|]. split; [exact Hwarned|].
  now apply embedded_all_same.
Qed.

Lemma failing_model_keeps_nothing self chunks :
  (forall texts, generate_embeddings texts = []) ->
  fst (generate_embeddings_in_batches self chunks) = [].
Proof.
  intros Hfail. unfold generate_embeddings_in_batches.
  destruct (range 0 (len chunks) (embedding_batch_size self)) as [starts|]; [|reflexivity].
  rewrite embedding_batches_spec. cbn [fst app]. apply concat_map_nil.
  intros i. unfold kept_of. rewrite Hfail. now destruct (slice chunks i _).
Qed.

Lemma store_batches_failing `{MilvusClient.Server} self all_chunks starts
    successful_chunks failed_chunks server :
  (forall texts, generate_embeddings texts = []) ->
  exists failed',
    store_batches self all_chunks starts successful_chunks failed_chunks server
      = (successful_chunks, failed', server).
Proof.
  intros Hfail. revert failed_chunks.
  induction starts as [|i rest IH]; intros failed_chunks; cbn [store_batches]; [eauto|].
  rewrite failing_model_keeps_nothing by exact Hfail. cbn [truthy negb]. apply IH.
Qed.

(** X17.  With a collaborator that never returns a vector, every chunk is warned
    about and none is returned, and [store_pdf_with_progress], whenever it
    returns, answers [False] and leaves the server as it was. *)
Theorem failed_embeddings_store_nothing `{UnicodeDB} `{MilvusClient.Server} `{Runtime}
    (fuel : nat) (self : PDFToMilvusBatch.t) (fs : gmap string Fitz.file)
    (server : gmap string MilvusClient.Collection)
    (pdf_path : string) (document_id : option str) :
  (forall texts, generate_embeddings texts = []) ->
  (forall chunks, fst (generate_embeddings_in_batches self chunks) = []) /\
  (0 < embedding_batch_size self ->
   forall chunks,
     snd (generate_embeddings_in_batches self chunks)
       = map (fun chunk => MissingEmbedding (chunk_id chunk)) chunks) /\
  (forall success server',
     store_pdf_with_progress fuel self fs server pdf_path document_id
       = Some (success, server') ->
     success = false /\ server' = server).
Proof.
  intros Hfail. split; [|split].
  - intros chunks. now apply failing_model_keeps_nothing.
  - intros Hb chunks.
    destruct (generate_embeddings_in_batches_spec self chunks Hb)
      as (batches & <- & _ & ->).
    cbn [snd]. induction batches as [|batch rest IH]; [reflexivity|].
    cbn [map concat]. rewrite map_app, IH. f_equal.
    unfold warned_of. now rewrite Hfail.
  - intros success server'. unfold store_pdf_with_progress.
    destruct (Fitz.path_exists fs pdf_path); cbn [negb]; [|now intros [= <- <-]].
    destruct (process_pdf _ _ _ _ _) as [all_chunks|]; [|discriminate].
    destruct (truthy all_chunks); cbn [negb]; [|now intros [= <- <-]].
    destruct (range 0 (len all_chunks) (batch_size self)) as [starts|];
      [|now intros [= <- <-]].
    destruct (store_batches_failing self all_chunks starts 0 0 server Hfail)
      as (failed' & ->).
    destruct (0 + failed' =? 0); now intros [= <- <-].
Qed.

End Collaborator.

Lemma add_embeddings_to_chunks_keeps_every_chunk_witness :
  generate_embeddings (H := Fixtures.short_model 3 2) (map text sample_chunks) <> [] /\
  (let '(chunks, warned) :=
     EmbeddingGeneratorChunks.add_embeddings_to_chunks (H := Fixtures.short_model 3 2)
       sample_chunks in
   (map (fun chunk => (chunk_id chunk, len (get_embedding chunk))) chunks, warned))
  = ([(10, 2); (11, 2); (12, 2); (13, 0); (14, 0)], [3%nat; 4%nat]) /\
  length (fst (EmbeddingGeneratorChunks.add_embeddings_to_chunks
                 (H := Fixtures.short_model 3 2) sample_chunks))
  = length sample_chunks.
Proof.
  split; [vm_compute; discriminate|]. split; [vm_compute; reflexivity|].
  apply (add_embeddings_to_chunks_keeps_every_chunk (H := Fixtures.short_model 3 2)
           sample_chunks).
  vm_compute. discriminate.
Defined.

Lemma complete_embeddings_keep_every_chunk_witness :
  0 < embedding_batch_size small_batches /\
  (forall texts,
     length (generate_embeddings (H := Fixtures.constant_model 3) texts) = length texts) /\
  map chunk_id (fst (generate_embeddings_in_batches (H := Fixtures.constant_model 3)
                       small_batches sample_chunks))
  = [10; 11; 12; 13; 14] /\
  snd (generate_embeddings_in_batches (H := Fixtures.constant_model 3)
         small_batches sample_chunks) = [].
Proof.
  assert (Hmodel : forall texts,
            length (generate_embeddings (H := Fixtures.constant_model 3) texts)
            = length texts) by (intros texts; cbn; apply length_map).
  split; [reflexivity|]. split; [exact Hmodel|].
  destruct (complete_embeddings_keep_every_chunk (H := Fixtures.constant_model 3)
              small_batches sample_chunks eq_refl Hmodel) as (_ & Hlog & Hids & _).
  split; [exact Hids|exact Hlog].
Defined.

Lemma failed_embeddings_store_nothing_witness :
  (forall texts, generate_embeddings (H := Fixtures.short_model 0 3) texts = []) /\
  store_pdf_with_progress (H := Fixtures.ascii_db) (H0 := Fixtures.short_model 0 3)
    (H1 := Fixtures.accepting_server) (H2 := Fixtures.runtime) 0 Fixtures.ready_batch
    (Fixtures.one_file "scan.pdf" Fixtures.scan_doc) Fixtures.ready_server
    "scan.pdf" None
  = Some (false, Fixtures.ready_server) /\
  snd (generate_embeddings_in_batches (H := Fixtures.short_model 0 3)
         small_batches sample_chunks)
  = map MissingEmbedding [10; 11; 12; 13; 14].
Proof.
  assert (Hfail : forall texts,
            generate_embeddings (H := Fixtures.short_model 0 3) texts = [])
    by reflexivity.
  split; [exact Hfail|].
  destruct (failed_embeddings_store_nothing (H := Fixtures.short_model 0 3)
              (H0 := Fixtures.ascii_db) (H1 := Fixtures.accepting_server)
              (H2 := Fixtures.runtime) 0 small_batches
              (Fixtures.one_file "scan.pdf" Fixtures.scan_doc) Fixtures.ready_server
              "scan.pdf" None Hfail) as (_ & Hlog & _).
  split; [vm_compute; reflexivity|]. now rewrite Hlog.
Defined.

End EmbeddingCollaborator.

(** ** Batches of chunks *)

Module BatchTiling.

Import PDFProcessor PDFToMilvusBatch EmbeddingFacts.

(** [range(0, n, b)] for a positive step: as many starts as windows of [b]
    are needed to cover [n], and no more. *)
Lemma range_tight n b :
  0 <= n -> 0 < b ->
  exists m,
    range 0 n b = Some (map (fun k => Z.of_nat k * b) (seq 0 m)) /\
    n <= Z.of_nat m * b /\ (Z.of_nat m - 1) * b < Z.max n 1.
Proof.
  intros Hn Hb. exists (Z.to_nat ((n + b - 1) / b)). unfold range.
  destruct (Z.eqb_spec b 0); [lia|]. destruct (Z.ltb_spec 0 b); [|lia].
  rewrite Z.sub_0_r. split; [reflexivity|].
  assert (Hq : 0 <= (n + b - 1) / b) by (apply Z.div_pos; lia).
  rewrite Z2Nat.id by exact Hq.
  pose proof (Z.div_mod (n + b - 1) b ltac:(lia)) as Hdiv.
  pose proof (Z.mod_pos_bound (n + b - 1) b Hb) as Hmod. nia.
Qed.


Section Tiling.
Context `{UnicodeDB} `{Runtime}.


End Tiling.


End BatchTiling.

(** ** Ingestion only ever appends *)

Module AppendOnly.

Import PDFProcessor EmbeddingGenerator MilvusClient.

Lemma extends_refl server : extends server server.
Proof.
  intros name. destruct (server !! name); [|exact I].
  repeat split. exists []. now rewrite app_nil_r.
Qed.

Lemma extends_trans server1 server2 server3 :
  extends server1 server2 -> extends server2 server3 -> extends server1 server3.
Proof.
  intros H12 H23 name. specialize (H12 name). specialize (H23 name).
  destruct (server1 !! name), (server2 !! name), (server3 !! name); try easy.
  destruct H12 as (Hs & Hi & rows & Hr), H23 as (Hs' & Hi' & rows' & Hr').
  split; [congruence|]. split; [congruence|].
  exists (rows ++ rows'). now rewrite Hr', Hr, app_assoc.
Qed.

Lemma nothing_stored `{Server} client server :
  extends server server /\
  (false = true -> row_count client server < row_count client server) /\
  ((forall c rows, insert_flush c rows <> FlushRaised) ->
   (false = true <-> row_count client server < row_count client server) /\
   (false = false -> server = server)).
Proof.
  split; [apply extends_refl|]. split; [discriminate|]. intros _.
  split; [split; [discriminate|lia]|reflexivity].
Qed.

Section Append.
Context `{UnicodeDB} `{Model} `{Server} `{Runtime}.

Lemma insert_documents_extends self server documents :
  extends server (snd (insert_documents self server documents)).
Proof.
  unfold insert_documents.
  destruct (collection self) as [handle|]; [|apply extends_refl].
  destruct (negb (truthy documents)); [apply extends_refl|].
  destruct (negb (truthy (valid_documents documents []))); [apply extends_refl|].
  destruct (server !! handle) as [c|] eqn:Hc; [|apply extends_refl].
  assert (Hsent : extends server
                    (<[handle := {| schema := schema c;
                                    entities := entities c ++ valid_documents documents [];
                                    index := index c |}]> server)).
  { intros name. destruct (decide (name = handle)) as [->|Hne].
    - rewrite lookup_insert_eq, Hc. cbn [schema index entities]. repeat split. eauto.
    - rewrite lookup_insert_ne by congruence. apply extends_refl. }
  cbv zeta. destruct (insert_flush c (valid_documents documents []));
    [exact Hsent|exact Hsent|apply extends_refl].
Qed.

Lemma store_batches_extends self all_chunks starts successful_chunks failed_chunks server :
  extends server
    (snd (PDFToMilvusBatch.store_batches self all_chunks starts successful_chunks
            failed_chunks server)).
Proof.
  revert successful_chunks failed_chunks server.
  induction starts as [|i rest IH]; intros s f server;
    cbn [PDFToMilvusBatch.store_batches]; [apply extends_refl|].
  destruct (negb (truthy (fst (PDFToMilvusBatch.generate_embeddings_in_batches self _))));
    [apply IH|].
  destruct (negb (truthy (List.filter _ _))); [apply IH|].
  pose proof (insert_documents_extends (PDFToMilvusBatch.milvus_client self) server
                (map as_document
                   (List.filter
                      (fun chunk => validate_embedding (PDFToMilvusBatch.get_embedding chunk))
                      (fst (PDFToMilvusBatch.generate_embeddings_in_batches self
                              (slice all_chunks i (i + PDFToMilvusBatch.batch_size self)))))))
    as Hinsert.
  destruct (insert_documents _ _ _) as [stored server1]. cbn [snd] in Hinsert.
  destruct stored; (eapply extends_trans; [exact Hinsert|apply IH]).
Qed.

(** X19.  Whatever [store_pdf_with_progress] answers, it has only appended rows:
    the server holds the same collections afterwards, each with its schema
    and its index, and the rows that were there before come first and
    unchanged. *)
Theorem store_pdf_with_progress_only_appends (fuel : nat) (self : PDFToMilvusBatch.t)
    (fs : gmap string Fitz.file) (server server' : gmap string Collection)
    (pdf_path : string) (document_id : option str) (success : bool) :
  PDFToMilvusBatch.store_pdf_with_progress fuel self fs server pdf_path document_id
    = Some (success, server') ->
  extends server server'.
Proof.
  unfold PDFToMilvusBatch.store_pdf_with_progress.
  destruct (negb (Fitz.path_exists fs pdf_path)); [intros [= _ <-]; apply extends_refl|].
  destruct (process_pdf _ _ _ _ _) as [all_chunks|]; [|discriminate].
  destruct (negb (truthy all_chunks)); [intros [= _ <-]; apply extends_refl|].
  destruct (range 0 (len all_chunks) (PDFToMilvusBatch.batch_size self)) as [starts|];
    [|intros [= _ <-]; apply extends_refl].
  pose proof (store_batches_extends self all_chunks starts 0 0 server) as Hrun.
  destruct (PDFToMilvusBatch.store_batches self all_chunks starts 0 0 server)
    as [[successful failed] server1]. cbn [snd] in Hrun.
  destruct (successful + failed =? 0); now intros [= _ <-].
Qed.

(** X20.  The single-insert pipeline of the archive sends the rows of a
    document in one insert.  Whenever [store_pdf] returns it has only
    appended rows, and [True] means that rows were added to the client's
    collection.  On a server whose flush does not raise after an insert it is
    all or nothing: [True] is answered exactly when rows were added, and
    [False] leaves the server as it was. *)
Theorem archive_store_pdf_one_insert (fuel : nat) (self : PDFToMilvus.t)
    (fs : gmap string Fitz.file) (server server' : gmap string Collection)
    (pdf_path : string) (document_id : option str) (success : bool) :
  PDFToMilvus.store_pdf fuel self fs server pdf_path document_id
    = Some (success, server') ->
  extends server server' /\
  (success = true ->
   row_count (PDFToMilvus.milvus_client self) server
     < row_count (PDFToMilvus.milvus_client self) server') /\
  ((forall c rows, insert_flush c rows <> FlushRaised) ->
   (success = true <->
    row_count (PDFToMilvus.milvus_client self) server
      < row_count (PDFToMilvus.milvus_client self) server') /\
   (success = false -> server' = server)).
Proof.
  unfold PDFToMilvus.store_pdf.
  destruct (negb (Fitz.path_exists fs pdf_path));
    [intros [= <- <-]; apply nothing_stored|].
  destruct (process_pdf _ _ _ _ _) as [chunks|]; [|discriminate].
  destruct (negb (truthy chunks)); [intros [= <- <-]; apply nothing_stored|].
  destruct (negb (truthy (fst (EmbeddingGeneratorChunks.add_embeddings_to_chunks chunks))));
    [intros [= <- <-]; apply nothing_stored|].
  destruct (List.filter _ _) as [|chunk valid] eqn:Hvalid; cbn [truthy negb];
    [intros [= <- <-]; apply nothing_stored|].
  pose proof (insert_documents_extends (PDFToMilvus.milvus_client self) server
                (map as_document (chunk :: valid))) as Hext.
  destruct (insert_documents _ _ _) as [stored server1] eqn:Hinsert. cbn [snd] in Hext.
  apply IngestionFacts.insert_documents_rows in Hinsert as (Hkept & Hstored & Hfailed);
    [|discriminate].
  destruct stored; cbn [negb]; intros [= <- <-].
  - specialize (Hstored eq_refl). split; [exact Hext|]. split; [now intros _|].
    intros _. split; [now split|discriminate].
  - split; [exact Hext|]. split; [discriminate|]. intros Hflush.
    rewrite (Hfailed Hflush eq_refl). split; [split; [discriminate|lia]|reflexivity].
Qed.

Section PageByPage.
Context `{PDFPageProcessor.TextSplitter}.

Lemma process_chunks_extends self document_id page_num chunk_idx page_chunks
    total_embeddings server :
  extends server
    (snd (PDFPageProcessor.process_chunks self document_id page_num chunk_idx
            page_chunks total_embeddings server)).
Proof.
  revert chunk_idx total_embeddings server.
  induction page_chunks as [|chunk_text rest IH]; intros chunk_idx total server;
    cbn [PDFPageProcessor.process_chunks]; [apply extends_refl|].
  destruct (truthy (generate_single_embedding chunk_text)); [|apply IH].
  match goal with
  | |- context [insert_documents ?c ?s ?d] =>
      pose proof (insert_documents_extends c s d) as Hinsert;
      destruct (insert_documents c s d) as [success server1]
  end.
  cbn [snd] in Hinsert. eapply extends_trans; [exact Hinsert|apply IH].
Qed.

Lemma process_pages_extends self document_id doc page_num total_embeddings server :
  extends server
    (snd (PDFPageProcessor.process_pages self document_id doc page_num
            total_embeddings server)).
Proof.
  revert page_num total_embeddings server.
  induction doc as [|page rest IH]; intros page_num total server;
    cbn [PDFPageProcessor.process_pages]; [apply extends_refl|].
  destruct (Fitz.get_text page) as [text|]; [|apply IH].
  destruct (truthy (strip (PDFPageProcessor._clean_text text))); [|apply IH].
  match goal with
  | |- context [PDFPageProcessor.process_chunks ?a ?b ?c ?d ?e ?f ?g] =>
      pose proof (process_chunks_extends a b c d e f g) as Hpage;
      destruct (PDFPageProcessor.process_chunks a b c d e f g) as [total1 server1]
  end.
  cbn [snd] in Hpage. eapply extends_trans; [exact Hpage|apply IH].
Qed.

(** X21.  [process_pdf_page_by_page] has only appended rows, whatever it answers
    and however many of its inserts failed. *)
Theorem process_pdf_page_by_page_only_appends (self : PDFPageProcessor.t)
    (fs : gmap string Fitz.file) (server : gmap string Collection)
    (pdf_path : string) (document_id : option str) :
  extends server
    (snd (PDFPageProcessor.process_pdf_page_by_page self fs server pdf_path document_id)).
Proof.
  unfold PDFPageProcessor.process_pdf_page_by_page.
  destruct (negb (Fitz.path_exists fs pdf_path)); [apply extends_refl|].
  destruct (Fitz.open fs pdf_path) as [doc|]; [|apply extends_refl].
  match goal with
  | |- context [PDFPageProcessor.process_pages ?a ?b ?c ?d ?e ?f] =>
      pose proof (process_pages_extends a b c d e f) as Hrun;
      destruct (PDFPageProcessor.process_pages a b c d e f) as [total server1]
  end.
  exact Hrun.
Qed.

End PageByPage.

End Append.

Lemma store_pdf_with_progress_only_appends_witness :
  match PDFToMilvusBatch.store_pdf_with_progress (H := Fixtures.ascii_db)
          (H0 := Fixtures.three_dim_model) (H1 := Fixtures.accepting_server)
          (H2 := Fixtures.runtime) 0 Fixtures.ready_batch
          (Fixtures.one_file "scan.pdf" Fixtures.scan_doc) Fixtures.ready_server
          "scan.pdf" None with
  | Some (success, server') =>
      extends Fixtures.ready_server server' /\
      (success, Fixtures.stored_rows server') = (true, [(1, 0); (3, 1)])
  | None => False
  end.
Proof.
  destruct (PDFToMilvusBatch.store_pdf_with_progress (H := Fixtures.ascii_db)
              (H0 := Fixtures.three_dim_model) (H1 := Fixtures.accepting_server)
              (H2 := Fixtures.runtime) 0 Fixtures.ready_batch
              (Fixtures.one_file "scan.pdf" Fixtures.scan_doc) Fixtures.ready_server
              "scan.pdf" None) as [[success server']|] eqn:Hrun;
    [|vm_compute in Hrun; discriminate].
  split.
  - exact (store_pdf_with_progress_only_appends (H := Fixtures.ascii_db)
             (H0 := Fixtures.three_dim_model) (H1 := Fixtures.accepting_server)
             (H2 := Fixtures.runtime) _ _ _ _ _ _ _ _ Hrun).
  - vm_compute in Hrun. injection Hrun as <- <-. vm_compute. reflexivity.
Defined.

Lemma archive_store_pdf_one_insert_witness :
  match PDFToMilvus.store_pdf (H := Fixtures.ascii_db)
          (H0 := Fixtures.three_dim_model) (H1 := Fixtures.accepting_server)
          (H2 := Fixtures.runtime) 0
          {| PDFToMilvus.milvus_client := Fixtures.ready_client;
             PDFToMilvus.pdf_processor := PDFProcessor.init |}
          (Fixtures.one_file "scan.pdf" Fixtures.scan_doc) Fixtures.ready_server
          "scan.pdf" None with
  | Some (success, server') =>
      extends Fixtures.ready_server server' /\
      (success, Fixtures.stored_rows server') = (true, [(1, 0); (3, 1)])
  | None => False
  end /\
  match PDFToMilvus.store_pdf (H := Fixtures.ascii_db)
          (H0 := Fixtures.three_dim_model) (H1 := Fixtures.unflushed_server)
          (H2 := Fixtures.runtime) 0
          {| PDFToMilvus.milvus_client := Fixtures.ready_client;
             PDFToMilvus.pdf_processor := PDFProcessor.init |}
          (Fixtures.one_file "scan.pdf" Fixtures.scan_doc) Fixtures.ready_server
          "scan.pdf" None with
  | Some (success, server') => Some (success, Fixtures.stored_rows server')
  | None => None
  end = Some (false, [(1, 0); (3, 1)]).
Proof.
  split; [|vm_compute; reflexivity].
  destruct (PDFToMilvus.store_pdf (H := Fixtures.ascii_db)
              (H0 := Fixtures.three_dim_model) (H1 := Fixtures.accepting_server)
              (H2 := Fixtures.runtime) 0
              {| PDFToMilvus.milvus_client := Fixtures.ready_client;
                 PDFToMilvus.pdf_processor := PDFProcessor.init |}
              (Fixtures.one_file "scan.pdf" Fixtures.scan_doc) Fixtures.ready_server
              "scan.pdf" None) as [[success server']|] eqn:Hrun;
    [|vm_compute in Hrun; discriminate].
  split.
  - apply (archive_store_pdf_one_insert (H := Fixtures.ascii_db)
             (H0 := Fixtures.three_dim_model) (H1 := Fixtures.accepting_server)
             (H2 := Fixtures.runtime) _ _ _ _ _ _ _ _ Hrun).
  - vm_compute in Hrun. injection Hrun as <- <-. vm_compute. reflexivity.
Defined.

End AppendOnly.

(** ** Page-by-page ingestion: identifiers when no page has too many chunks *)

Module PageIds.

Import PDFProcessor EmbeddingGenerator MilvusClient MilvusFacts.

Lemma sorted_app (l1 l2 : list Z) (bound : Z) :
  StronglySorted Z.lt l1 -> StronglySorted Z.lt l2 ->
  Forall (fun x => x < bound) l1 -> Forall (fun y => bound <= y) l2 ->
  StronglySorted Z.lt (l1 ++ l2).
Proof.
  intros Hs1 Hs2 Hlow Hhigh. induction Hs1 as [|x l1 Hs1 IH Hx]; [exact Hs2|].
  apply Forall_cons in Hlow as [Hxb Hlow]. cbn [app]. constructor; [now apply IH|].
  apply Forall_app. split; [exact Hx|].
  eapply List.Forall_impl; [|exact Hhigh]. cbn. intros y Hy. lia.
Qed.

Section Pages.
Context `{UnicodeDB} `{PDFPageProcessor.TextSplitter} `{Model} `{Server} `{Runtime}.

(** One insert of one document with all five keys adds its row or
    nothing. *)
Lemma insert_single self server d p k t v :
  exists rows,
    rows_of self (snd (insert_documents self server
                         [{| d_document_id := Some d; d_page_number := Some p;
                             d_chunk_id := Some k; d_text := Some t;
                             d_embedding := Some v |}]))
      = rows_of self server ++ rows /\
    (rows = [] \/ rows = [truncated d p k t v]).
Proof.
  unfold insert_documents, rows_of.
  destruct (collection self) as [handle|]; [|exists []; now split; [|left]].
  cbn [truthy negb]. rewrite valid_documents_cons.
  cbn [d_document_id d_page_number d_chunk_id d_text d_embedding valid_documents
       truthy negb].
  destruct (server !! handle) as [c|] eqn:Hc.
  - cbv zeta. destruct (insert_flush c [truncated d p k t v]); cbn [snd].
    + exists [truncated d p k t v]. rewrite lookup_insert_eq. cbn [entities].
      now split; [|right].
    + exists [truncated d p k t v]. rewrite lookup_insert_eq. cbn [entities].
      now split; [|right].
    + exists []. rewrite Hc, app_nil_r. now split; [|left].
  - exists []. cbn [snd]. rewrite Hc. now split; [|left].
Qed.

Lemma process_chunks_rows self document_id page_num chunk_idx page_chunks
    total_embeddings server :
  exists rows,
    rows_of (PDFPageProcessor.milvus_client self)
      (snd (PDFPageProcessor.process_chunks self document_id page_num chunk_idx
              page_chunks total_embeddings server))
      = rows_of (PDFPageProcessor.milvus_client self) server ++ rows /\
    StronglySorted Z.lt (map e_chunk_id rows) /\
    Forall (fun e =>
              page_num * 1000 + chunk_idx <= e_chunk_id e
                < page_num * 1000 + chunk_idx + len page_chunks /\
              e_page_number e = page_num + 1) rows.
Proof.
  revert chunk_idx total_embeddings server.
  induction page_chunks as [|chunk_text rest IH]; intros chunk_idx total server;
    cbn [PDFPageProcessor.process_chunks].
  { exists []. rewrite app_nil_r. repeat constructor. }
  assert (Hlen : len (chunk_text :: rest) = len rest + 1) by (unfold len; cbn [length]; lia).
  assert (Hwiden : forall rows,
            Forall (fun e =>
                      page_num * 1000 + (chunk_idx + 1) <= e_chunk_id e
                        < page_num * 1000 + (chunk_idx + 1) + len rest /\
                      e_page_number e = page_num + 1) rows ->
            Forall (fun e =>
                      page_num * 1000 + chunk_idx <= e_chunk_id e
                        < page_num * 1000 + chunk_idx + len (chunk_text :: rest) /\
                      e_page_number e = page_num + 1) rows).
  { intros rows. apply List.Forall_impl. intros e. lia. }
  destruct (truthy (generate_single_embedding chunk_text)).
  2:{ destruct (IH (chunk_idx + 1) total server) as (rows & Hrows & Hsorted & Hbounds).
      exists rows. split; [exact Hrows|]. split; [exact Hsorted|]. now apply Hwiden. }
  destruct (insert_single (PDFPageProcessor.milvus_client self) server document_id
              (page_num + 1) (page_num * 1000 + chunk_idx) chunk_text
              (generate_single_embedding chunk_text)) as (rows0 & Hrows0 & Hcases).
  destruct (insert_documents _ _ _) as [success server1]. cbn [snd] in Hrows0.
  destruct (IH (chunk_idx + 1) (if success then total + 1 else total) server1)
    as (rows & Hrows & Hsorted & Hbounds).
  exists (rows0 ++ rows). rewrite Hrows, Hrows0, app_assoc. split; [reflexivity|].
  destruct Hcases as [->| ->]; cbn [app map].
  - split; [exact Hsorted|]. now apply Hwiden.
  - cbn [truncated e_chunk_id]. split.
    + constructor; [exact Hsorted|]. apply Forall_map.
      eapply List.Forall_impl; [|exact Hbounds]. cbn. intros e. lia.
    + constructor; [|now apply Hwiden].
      unfold truncated. cbn [e_chunk_id e_page_number].
      assert (0 <= len rest) by (unfold len; lia). lia.
Qed.

Lemma process_pages_rows self document_id doc page_num total_embeddings server :
  Forall (fun page => len (page_chunks page) <= 1000) doc ->
  exists rows,
    rows_of (PDFPageProcessor.milvus_client self)
      (snd (PDFPageProcessor.process_pages self document_id doc page_num
              total_embeddings server))
      = rows_of (PDFPageProcessor.milvus_client self) server ++ rows /\
    StronglySorted Z.lt (map e_chunk_id rows) /\
    Forall (fun e =>
              page_num * 1000 <= e_chunk_id e /\
              (e_page_number e - 1) * 1000 <= e_chunk_id e < e_page_number e * 1000)
      rows.
Proof.
  intros Hsmall. revert page_num total_embeddings server.
  induction Hsmall as [|page rest Hpage _ IH]; intros page_num total server;
    cbn [PDFPageProcessor.process_pages].
  { exists []. rewrite app_nil_r. repeat constructor. }
  assert (Hnext : forall total' server',
            exists rows,
              rows_of (PDFPageProcessor.milvus_client self)
                (snd (PDFPageProcessor.process_pages self document_id rest (page_num + 1)
                        total' server'))
                = rows_of (PDFPageProcessor.milvus_client self) server' ++ rows /\
              StronglySorted Z.lt (map e_chunk_id rows) /\
              Forall (fun e =>
                        (page_num + 1) * 1000 <= e_chunk_id e /\
                        page_num * 1000 <= e_chunk_id e /\
                        (e_page_number e - 1) * 1000 <= e_chunk_id e
                          < e_page_number e * 1000) rows).
  { intros total' server'.
    destruct (IH (page_num + 1) total' server') as (rows & Hrows & Hsorted & Hbounds).
    exists rows. split; [exact Hrows|]. split; [exact Hsorted|].
    eapply List.Forall_impl; [|exact Hbounds]. cbn. intros e. lia. }
  assert (Hskip : forall total' server',
            exists rows,
              rows_of (PDFPageProcessor.milvus_client self)
                (snd (PDFPageProcessor.process_pages self document_id rest (page_num + 1)
                        total' server'))
                = rows_of (PDFPageProcessor.milvus_client self) server' ++ rows /\
              StronglySorted Z.lt (map e_chunk_id rows) /\
              Forall (fun e =>
                        page_num * 1000 <= e_chunk_id e /\
                        (e_page_number e - 1) * 1000 <= e_chunk_id e
                          < e_page_number e * 1000) rows).
  { intros total' server'.
    destruct (Hnext total' server') as (rows & Hrows & Hsorted & Hbounds).
    exists rows. split; [exact Hrows|]. split; [exact Hsorted|].
    eapply List.Forall_impl; [|exact Hbounds]. cbn. intros e. lia. }
  unfold page_chunks in Hpage.
  destruct (Fitz.get_text page) as [text|]; [|apply Hskip].
  cbn zeta in Hpage.
  destruct (truthy (strip (PDFPageProcessor._clean_text text))); [|apply Hskip].
  change (PDFPageProcessor._chunk_text_langchain (PDFPageProcessor._clean_text text) 0)
    with (PDFPageProcessor._chunk_text_langchain (PDFPageProcessor._clean_text text)
            page_num) in Hpage.
  destruct (process_chunks_rows self document_id page_num 0
              (PDFPageProcessor._chunk_text_langchain (PDFPageProcessor._clean_text text)
                 page_num) total server) as (rows0 & Hrows0 & Hsorted0 & Hbounds0).
  destruct (PDFPageProcessor.process_chunks _ _ _ _ _ _ _) as [total1 server1].
  cbn [snd] in Hrows0.
  destruct (Hnext total1 server1) as (rows & Hrows & Hsorted & Hbounds).
  exists (rows0 ++ rows). rewrite Hrows, Hrows0, app_assoc. split; [reflexivity|].
  split.
  - rewrite map_app. apply (sorted_app _ _ ((page_num + 1) * 1000)); try assumption.
    + apply Forall_map. eapply List.Forall_impl; [|exact Hbounds0]. cbn. intros e. lia.
    + apply Forall_map. eapply List.Forall_impl; [|exact Hbounds]. cbn. intros e. lia.
  - apply Forall_app. split.
    + eapply List.Forall_impl; [|exact Hbounds0]. cbn. intros e. lia.
    + eapply List.Forall_impl; [|exact Hbounds]. cbn. intros e. lia.
Qed.

(** X22.  When no page is cut into more than 1000 chunks, the rows one run of
    [process_pdf_page_by_page] appends have strictly increasing chunk
    identifiers, so no two of them share one, and the identifier of a row
    determines its page: it lies in the thousand that starts at
    [(page_number - 1) * 1000]. *)
Theorem page_by_page_ids_increase (self : PDFPageProcessor.t)
    (fs : gmap string Fitz.file) (server : gmap string Collection)
    (pdf_path : string) (document_id : option str) (doc : list Fitz.Page) :
  Fitz.open fs pdf_path = Some doc ->
  Forall (fun page => len (page_chunks page) <= 1000) doc ->
  exists rows,
    rows_of (PDFPageProcessor.milvus_client self)
      (snd (PDFPageProcessor.process_pdf_page_by_page self fs server pdf_path document_id))
      = rows_of (PDFPageProcessor.milvus_client self) server ++ rows /\
    StronglySorted Z.lt (map e_chunk_id rows) /\
    Forall (fun e => e_chunk_id e / 1000 = e_page_number e - 1) rows.
Proof.
  intros Hopen Hsmall. unfold PDFPageProcessor.process_pdf_page_by_page.
  destruct (negb (Fitz.path_exists fs pdf_path)).
  { exists []. rewrite app_nil_r. repeat constructor. }
  rewrite Hopen.
  match goal with
  | |- context [PDFPageProcessor.process_pages ?a ?b ?c ?d ?e ?f] =>
      destruct (process_pages_rows a b c d e f Hsmall) as (rows & Hrows & Hsorted & Hbounds);
      destruct (PDFPageProcessor.process_pages a b c d e f) as [total server1]
  end.
  exists rows. split; [exact Hrows|]. split; [exact Hsorted|].
  eapply List.Forall_impl; [|exact Hbounds]. cbn. intros e (_ & Hlow & Hhigh).
  symmetry. apply (Z.div_unique _ _ _ (e_chunk_id e - (e_page_number e - 1) * 1000)); lia.
Qed.

End Pages.

Lemma page_by_page_ids_increase_witness :
  Fitz.open (Fixtures.one_file "scan.pdf" Fixtures.scan_doc) "scan.pdf"
    = Some Fixtures.scan_doc /\
  Fixtures.stored_rows
    (snd (PDFPageProcessor.process_pdf_page_by_page (H := Fixtures.ascii_db)
            (H0 := Fixtures.shipped_splitter) (H1 := Fixtures.three_dim_model)
            (H2 := Fixtures.accepting_server) (H3 := Fixtures.runtime)
            {| PDFPageProcessor.milvus_client := Fixtures.ready_client |}
            (Fixtures.one_file "scan.pdf" Fixtures.scan_doc) Fixtures.ready_server
            "scan.pdf" None))
    = [(1, 0); (3, 2000)] /\
  exists rows,
    rows_of Fixtures.ready_client
      (snd (PDFPageProcessor.process_pdf_page_by_page (H := Fixtures.ascii_db)
              (H0 := Fixtures.shipped_splitter) (H1 := Fixtures.three_dim_model)
              (H2 := Fixtures.accepting_server) (H3 := Fixtures.runtime)
              {| PDFPageProcessor.milvus_client := Fixtures.ready_client |}
              (Fixtures.one_file "scan.pdf" Fixtures.scan_doc) Fixtures.ready_server
              "scan.pdf" None))
      = rows_of Fixtures.ready_client Fixtures.ready_server ++ rows /\
    StronglySorted Z.lt (map e_chunk_id rows) /\
    Forall (fun e => e_chunk_id e / 1000 = e_page_number e - 1) rows.
Proof.
  split; [reflexivity|]. split; [vm_compute; reflexivity|].
  apply (page_by_page_ids_increase (H := Fixtures.ascii_db)
           (H0 := Fixtures.shipped_splitter) (H1 := Fixtures.three_dim_model)
           (H2 := Fixtures.accepting_server) (H3 := Fixtures.runtime)
           {| PDFPageProcessor.milvus_client := Fixtures.ready_client |}
           (Fixtures.one_file "scan.pdf" Fixtures.scan_doc) Fixtures.ready_server
           "scan.pdf" None Fixtures.scan_doc); [reflexivity|].
  vm_compute. repeat constructor; discriminate.
Defined.

End PageIds.

(** ** The archive's streaming processor *)

Module StreamingFacts.

Import PDFProcessor PyFacts CleanerFacts ChunkerFacts ExtractionFacts ProcessFacts
  ChunkerAgreement.

Lemma ids_from_S id n : ids_from id (S n) = id :: ids_from (id + 1) n.
Proof.
  unfold ids_from. cbn [seq map]. rewrite Z.add_0_r. f_equal.
  rewrite <- seq_shift, map_map. apply map_ext. intros k. lia.
Qed.

(** Suspended inside the loop, the generator goes on yielding windows. *)
Lemma islice_loop (n : nat) self text chunk_id start end_ chunk_counter :
  0 < Streaming.chunk_overlap self < Streaming.chunk_size self ->
  Streaming.chunk_size self < len (split text) ->
  Streaming.chunk_size self <= end_ <= len (split text) ->
  length (Streaming.islice n self text chunk_id
            (Streaming.AtLoopYield start end_ chunk_counter)) = n /\
  map PDFProcessor.chunk_id (Streaming.islice n self text chunk_id
                  (Streaming.AtLoopYield start end_ chunk_counter))
    = ids_from (chunk_id + chunk_counter + 1) n /\
  Forall (fun chunk =>
            0 <= start_word chunk < end_word chunk /\
            end_word chunk <= len (split text) /\
            PDFProcessor.text chunk
              = join [SPACE] (slice (split text) (start_word chunk) (end_word chunk)))
    (Streaming.islice n self text chunk_id
       (Streaming.AtLoopYield start end_ chunk_counter)).
Proof.
  intros Hcfg Hlong. revert start end_ chunk_counter.
  induction n as [|n IH]; intros start end_ chunk_counter Hend;
    [repeat split; constructor|].
  cbn [Streaming.islice Streaming.next].
  destruct (Z.geb_spec (end_ - Streaming.chunk_overlap self) (len (split text))); [lia|].
  unfold Streaming.loop_test.
  destruct (Z.ltb_spec (end_ - Streaming.chunk_overlap self) (len (split text))); [|lia].
  set (start' := end_ - Streaming.chunk_overlap self).
  set (end' := Z.min (start' + Streaming.chunk_size self) (len (split text))).
  destruct (IH start' end' (chunk_counter + 1)) as (Hlen & Hids & Hwin);
    [subst start' end'; lia|].
  cbn [length map]. rewrite Hlen, Hids, ids_from_S.
  split; [reflexivity|].
  split; [cbn [new_chunk PDFProcessor.chunk_id]; f_equal; [lia|f_equal; lia]|].
  constructor; [|exact Hwin].
  cbn [new_chunk start_word end_word PDFProcessor.text]. subst start' end'.
  repeat split; lia.
Qed.

(** X23.  With [0 < chunk_overlap < chunk_size] the generator never stops on a
    text of more than [chunk_size] words: asked for [n] chunks it yields
    [n], numbered consecutively from [chunk_id], each a non-empty window of
    the text's words. *)
Theorem chunk_text_streaming_yields_forever (n : nat) (self : Streaming.t)
    (text : str) (chunk_id : Z) :
  0 < Streaming.chunk_overlap self < Streaming.chunk_size self ->
  Streaming.chunk_size self < len (split text) ->
  length (Streaming.islice n self text chunk_id Streaming.NotStarted) = n /\
  map PDFProcessor.chunk_id (Streaming.islice n self text chunk_id Streaming.NotStarted)
    = ids_from chunk_id n /\
  Forall (fun chunk =>
            0 <= start_word chunk < end_word chunk /\
            end_word chunk <= len (split text) /\
            PDFProcessor.text chunk
              = join [SPACE] (slice (split text) (start_word chunk) (end_word chunk)))
    (Streaming.islice n self text chunk_id Streaming.NotStarted).
Proof.
  intros Hcfg Hlong. destruct n as [|n]; [repeat split; constructor|].
  cbn [Streaming.islice Streaming.next].
  destruct (strip text) eqn:Hstrip.
  { apply strip_nil_split in Hstrip. rewrite Hstrip in Hlong.
    change (len (@nil str)) with 0 in Hlong. lia. }
  cbn [truthy negb].
  destruct (Z.leb_spec (len (split text)) (Streaming.chunk_size self)); [lia|].
  unfold Streaming.loop_test.
  destruct (Z.ltb_spec 0 (len (split text))); [|lia].
  set (end' := Z.min (0 + Streaming.chunk_size self) (len (split text))).
  destruct (islice_loop n self text chunk_id 0 end' 0 Hcfg Hlong) as (Hlen & Hids & Hwin);
    [subst end'; lia|].
  cbn [length map]. rewrite Hlen, Hids, ids_from_S.
  split; [reflexivity|].
  split; [cbn [new_chunk PDFProcessor.chunk_id]; f_equal; [lia|f_equal; lia]|].
  constructor; [|exact Hwin].
  cbn [new_chunk start_word end_word PDFProcessor.text]. subst end'.
  repeat split; lia.
Qed.

Lemma chunk_text_streaming_yields_forever_witness :
  0 < Streaming.chunk_overlap Streaming.init < Streaming.chunk_size Streaming.init /\
  Streaming.chunk_size Streaming.init < len (split (words_text 1001)) /\
  length (Streaming.islice 50 Streaming.init (words_text 1001) 0 Streaming.NotStarted)
    = 50%nat /\
  map chunk_id (Streaming.islice 50 Streaming.init (words_text 1001) 0 Streaming.NotStarted)
    = ids_from 0 50.
Proof.
  assert (Hcfg : 0 < Streaming.chunk_overlap Streaming.init
                   < Streaming.chunk_size Streaming.init) by (split; reflexivity).
  assert (Hlong : Streaming.chunk_size Streaming.init < len (split (words_text 1001)))
    by (vm_compute; reflexivity).
  split; [exact Hcfg|]. split; [exact Hlong|].
  destruct (chunk_text_streaming_yields_forever 50 Streaming.init (words_text 1001) 0
              Hcfg Hlong) as (Hlen & Hids & _).
  split; [exact Hlen|exact Hids].
Defined.

(** *** [process_pdf_ultra_optimized] *)

Lemma Forall_removelast {A} (P : A -> Prop) (l : list A) :
  Forall P l -> Forall P (removelast l).
Proof.
  induction 1 as [|x l Hx Hl IH]; [constructor|]. cbn [removelast].
  destruct l; [constructor|]. now constructor.
Qed.

Lemma add_to_batch_spec document_id page chunks batch_chunks chunk_counter yielded :
  len batch_chunks < 20 ->
  Forall (fun batch => len batch = 20) yielded ->
  exists batch' yielded',
    Streaming.add_to_batch document_id page chunks batch_chunks chunk_counter yielded
      = (batch', chunk_counter + len chunks, yielded') /\
    len batch' < 20 /\
    Forall (fun batch => len batch = 20) yielded' /\
    concat yielded' ++ batch'
      = (concat yielded ++ batch_chunks)
          ++ map (fun chunk => update chunk document_id page) chunks.
Proof.
  revert batch_chunks chunk_counter yielded.
  induction chunks as [|chunk rest IH]; intros batch counter yielded Hbatch Hyielded;
    cbn [Streaming.add_to_batch].
  { exists batch, yielded. change (len (@nil Chunk)) with 0.
    rewrite Z.add_0_r, app_nil_r. repeat split; assumption. }
  assert (Hlen : len (batch ++ [update chunk document_id page]) = len batch + 1)
    by (unfold len; rewrite length_app; cbn [length]; lia).
  assert (Hcount : counter + 1 + len rest = counter + len (chunk :: rest))
    by (unfold len; cbn [length]; lia).
  destruct (Z.geb_spec (len (batch ++ [update chunk document_id page])) 20) as [Hfull|Hroom].
  - destruct (IH [] (counter + 1) (yielded ++ [batch ++ [update chunk document_id page]]))
      as (batch' & yielded' & Hrun & Hb & Hy & Hcat).
    { unfold len. cbn. lia. }
    { apply Forall_app. split; [exact Hyielded|]. constructor; [lia|constructor]. }
    exists batch', yielded'. rewrite Hrun, Hcount. repeat split; try assumption.
    rewrite Hcat, concat_app. cbn [concat map]. now rewrite !app_nil_r, <- !app_assoc.
  - destruct (IH (batch ++ [update chunk document_id page]) (counter + 1) yielded)
      as (batch' & yielded' & Hrun & Hb & Hy & Hcat); [lia|exact Hyielded|].
    exists batch', yielded'. rewrite Hrun, Hcount. repeat split; try assumption.
    rewrite Hcat. cbn [map]. now rewrite <- !app_assoc.
Qed.

Lemma ultra_pages_batches fuel self document_id pages batch_chunks chunk_counter
    yielded batches :
  len batch_chunks < 20 ->
  Forall (fun batch => len batch = 20) yielded ->
  Streaming.ultra_pages fuel self document_id pages batch_chunks chunk_counter yielded
    = Some batches ->
  Forall (fun batch => 0 < len batch <= 20) batches /\
  Forall (fun batch => len batch = 20) (removelast batches).
Proof.
  revert batch_chunks chunk_counter yielded.
  induction pages as [|page rest IH]; intros batch counter yielded Hbatch Hyielded;
    cbn [Streaming.ultra_pages].
  - assert (Hsizes : Forall (fun b : list Chunk => 0 < len b <= 20) yielded).
    { eapply List.Forall_impl; [|exact Hyielded]. cbn. intros b. lia. }
    destruct batch as [|chunk batch]; cbn [truthy]; intros [= <-].
    + split; [exact Hsizes|now apply Forall_removelast].
    + split.
      * apply Forall_app. split; [exact Hsizes|].
        constructor; [|constructor]. unfold len in *. cbn [length] in *. lia.
      * now rewrite removelast_last.
  - destruct (Streaming.chunk_text_streaming fuel self (pt_text page) counter)
      as [chunks|]; [|discriminate].
    destruct (add_to_batch_spec document_id page chunks batch counter yielded
                Hbatch Hyielded) as (batch' & yielded' & -> & Hb & Hy & _).
    now apply IH.
Qed.

Lemma ultra_pages_agree fuel self document_id pages batch_chunks chunk_counter yielded
    all_chunks out :
  Forall (fun p => split (pt_text p) <> []) pages ->
  len batch_chunks < 20 ->
  Forall (fun batch => len batch = 20) yielded ->
  concat yielded ++ batch_chunks = all_chunks ->
  process_pages fuel self document_id pages chunk_counter all_chunks = Some out ->
  exists batches,
    Streaming.ultra_pages (S (S fuel)) (streaming_of self) document_id pages
      batch_chunks chunk_counter yielded = Some batches /\
    concat batches = out.
Proof.
  intros Hwords. revert batch_chunks chunk_counter yielded all_chunks.
  induction Hwords as [|page rest Hpage _ IH];
    intros batch counter yielded all_chunks Hbatch Hyielded Hcat;
    cbn [process_pages Streaming.ultra_pages].
  - intros [= <-]. eexists. split; [reflexivity|].
    destruct batch; cbn [truthy]; [now rewrite app_nil_r in Hcat|].
    rewrite concat_app. cbn [concat]. now rewrite app_nil_r.
  - destruct (chunk_text fuel self (pt_text page) counter) as [chunks|] eqn:Hchunks;
      [|discriminate].
    rewrite (chunk_text_as_stream _ _ _ _ _ Hpage Hchunks).
    destruct (add_to_batch_spec document_id page chunks batch counter yielded
                Hbatch Hyielded) as (batch' & yielded' & -> & Hb & Hy & Hcat').
    apply (IH batch' _ yielded'); [exact Hb|exact Hy|]. now rewrite Hcat', Hcat.
Qed.

Section Ultra.
Context `{UnicodeDB}.

Lemma streaming_pages_words doc page_num :
  Forall (fun p => split (pt_text p) <> []) (Streaming.streaming_pages doc page_num).
Proof.
  apply List.Forall_forall. intros p Hp.
  apply streaming_pages_In in Hp as (i & page & raw & _ & _ & Hne & ->).
  cbn [new_page pt_text]. intros Hblank. apply Hne.
  rewrite <- strip_clean_text. now apply split_nil_strip.
Qed.

(** X24.  Whenever [process_pdf_ultra_optimized] comes to its end, every batch it
    yielded but the last has exactly 20 chunks, and the last has between 1
    and 20. *)
Theorem process_pdf_ultra_optimized_batches_of_20 (fuel : nat) (self : Streaming.t)
    (fs : gmap string Fitz.file) (pdf_path : string) (document_id : str)
    (batches : list (list Chunk)) :
  Streaming.process_pdf_ultra_optimized fuel self fs pdf_path document_id = Some batches ->
  Forall (fun batch => 0 < len batch <= 20) batches /\
  Forall (fun batch => len batch = 20) (removelast batches).
Proof.
  unfold Streaming.process_pdf_ultra_optimized.
  apply ultra_pages_batches; [reflexivity|constructor].
Qed.

(** X25.  On a document that opens and whose pages can all be read, the batches of
    [process_pdf_ultra_optimized], put end to end, are the chunks
    [process_pdf] returns: the same texts, identifiers and page tags in the
    same order. *)
Theorem process_pdf_ultra_optimized_agrees (fuel : nat) (self : PDFProcessor.t)
    (fs : gmap string Fitz.file) (pdf_path : string) (document_id : str)
    (doc : list Fitz.Page) (chunks : list Chunk) :
  Fitz.open fs pdf_path = Some doc ->
  Forall (fun page => Fitz.get_text page <> None) doc ->
  process_pdf fuel self fs pdf_path document_id = Some chunks ->
  exists batches,
    Streaming.process_pdf_ultra_optimized (S (S fuel)) (streaming_of self) fs pdf_path
      document_id = Some batches /\
    concat batches = chunks.
Proof.
  intros Hopen Hreadable. unfold process_pdf, Streaming.process_pdf_ultra_optimized,
    Streaming.extract_text_from_pdf_streaming.
  rewrite (extract_text_from_pdf_readable _ _ _ Hopen Hreadable), Hopen.
  destruct (Streaming.streaming_pages doc 0) as [|p ps] eqn:Hpages; cbn [truthy negb].
  { intros [= <-]. now exists []. }
  rewrite <- Hpages. apply ultra_pages_agree; try reflexivity; [|constructor].
  apply streaming_pages_words.
Qed.

End Ultra.

Lemma process_pdf_ultra_optimized_batches_of_20_witness :
  match Streaming.process_pdf_ultra_optimized (H := Fixtures.ascii_db) 2 Streaming.init
          (Fixtures.one_file "many.pdf" (repeat (Fixtures.page "one page") 45)) "many.pdf"
          (of_string "d") with
  | Some batches =>
      Forall (fun batch => len batch = 20) (removelast batches) /\
      map len batches = [20; 20; 5]
  | None => False
  end.
Proof.
  destruct (Streaming.process_pdf_ultra_optimized (H := Fixtures.ascii_db) 2 Streaming.init
              (Fixtures.one_file "many.pdf" (repeat (Fixtures.page "one page") 45))
              "many.pdf" (of_string "d")) as [batches|] eqn:Hrun;
    [|vm_compute in Hrun; discriminate].
  split.
  - apply (process_pdf_ultra_optimized_batches_of_20 (H := Fixtures.ascii_db)
             _ _ _ _ _ _ Hrun).
  - vm_compute in Hrun. injection Hrun as <-. reflexivity.
Defined.

Lemma process_pdf_ultra_optimized_agrees_witness :
  exists batches,
    Streaming.process_pdf_ultra_optimized (H := Fixtures.ascii_db) 2
      (streaming_of PDFProcessor.init)
      (Fixtures.one_file "scan.pdf" Fixtures.scan_doc) "scan.pdf" (of_string "d")
      = Some batches /\
    Some (concat batches)
      = process_pdf (H := Fixtures.ascii_db) 0 PDFProcessor.init
          (Fixtures.one_file "scan.pdf" Fixtures.scan_doc) "scan.pdf" (of_string "d").
Proof.
  destruct (process_pdf (H := Fixtures.ascii_db) 0 PDFProcessor.init
              (Fixtures.one_file "scan.pdf" Fixtures.scan_doc) "scan.pdf" (of_string "d"))
    as [chunks|] eqn:Hrun; [|vm_compute in Hrun; discriminate].
  destruct (process_pdf_ultra_optimized_agrees (H := Fixtures.ascii_db) 0
              PDFProcessor.init (Fixtures.one_file "scan.pdf" Fixtures.scan_doc)
              "scan.pdf" (of_string "d") Fixtures.scan_doc chunks)
    as (batches & Hbatches & Hcat).
  - reflexivity.
  - vm_compute. repeat constructor; discriminate.
  - exact Hrun.
  - exists batches. split; [exact Hbatches|]. now rewrite Hcat.
Defined.

End StreamingFacts.

(** ** The batch pipeline when every collaborator answers *)

Module CompleteRun.

Import PDFProcessor EmbeddingGenerator MilvusClient PDFToMilvusBatch.
Import MilvusFacts EmbeddingFacts ProcessFacts.

Lemma embedded_tagged chunk chunk' : embedded chunk chunk' -> tagged chunk -> tagged chunk'.
Proof. now intros [e ->]. Qed.

Lemma valid_documents_rows chunks :
  Forall (fun chunk => tagged chunk /\ exists e, embedding chunk = Some e) chunks ->
  valid_documents (map as_document chunks) [] = map row_of chunks.
Proof.
  induction 1 as [|chunk rest (((d & Hd) & (p & Hp)) & (e & He)) _ IH]; [reflexivity|].
  cbn [map]. rewrite valid_documents_cons, IH. unfold as_document, row_of, get_embedding.
  cbn [d_document_id d_page_number d_chunk_id d_text d_embedding].
  now rewrite Hd, Hp, He.
Qed.

Lemma process_pages_tagged fuel self document_id pages chunk_counter all_chunks out :
  Forall tagged all_chunks ->
  process_pages fuel self document_id pages chunk_counter all_chunks = Some out ->
  Forall tagged out.
Proof.
  revert chunk_counter all_chunks.
  induction pages as [|page rest IH]; intros chunk_counter all_chunks Htagged;
    cbn [process_pages]; [now intros [= <-]|].
  destruct (chunk_text fuel self (pt_text page) chunk_counter) as [page_chunks|];
    [|discriminate].
  apply IH. apply Forall_app. split; [exact Htagged|].
  apply List.Forall_forall. intros chunk Hchunk.
  apply in_map_iff in Hchunk as (c & <- & _). split; cbn; eauto.
Qed.

Lemma Forall2_In_right {A B} (R : A -> B -> Prop) l l' y :
  Forall2 R l l' -> In y l' -> exists x, In x l /\ R x y.
Proof.
  induction 1 as [|x y' l l' Hxy _ IH]; [now cbn|]. intros [<-|Hin].
  - exists x. now split; [left|].
  - destruct (IH Hin) as (x' & Hx' & HR). exists x'. now split; [right|].
Qed.

Lemma zip_with_set_embedding_In batch (es : list (list number)) chunk' :
  In chunk' (zip_with set_embedding batch es) ->
  exists e, In e es /\ embedding chunk' = Some e.
Proof.
  revert es. induction batch as [|chunk rest IH]; intros es; [now cbn|].
  destruct es as [|e es]; [now cbn|]. cbn [zip_with]. intros [<-|Hin].
  - exists e. now split; [left|].
  - destruct (IH es Hin) as (e' & He' & Hemb). exists e'. now split; [right|].
Qed.

(** The windows [range(0, len(l), b)] cuts a non-empty list into. *)
Lemma slices_tile {A} (l : list A) (b : Z) (P : A -> Prop) :
  0 < b -> l <> [] -> Forall P l ->
  exists starts,
    range 0 (len l) b = Some starts /\
    concat (map (fun i => slice l i (i + b)) starts) = l /\
    Forall (fun i => slice l i (i + b) <> [] /\ Forall P (slice l i (i + b))) starts.
Proof.
  intros Hb Hne HP.
  assert (Hlen : 0 < len l) by (destruct l; [congruence|unfold len; cbn; lia]).
  destruct (BatchTiling.range_tight (len l) b ltac:(lia) Hb)
    as (m & Hrange & Hcover & Htight).
  exists (map (fun k => Z.of_nat k * b) (seq 0 m)). split; [exact Hrange|].
  assert (Hwindow : forall k,
            slice l (Z.of_nat k * b) (Z.of_nat k * b + b)
            = take (Z.to_nat b) (drop (k * Z.to_nat b) l)).
  { intros k. rewrite slice_window by lia. now rewrite Z2Nat.inj_mul, Nat2Z.id by lia. }
  split.
  - rewrite map_map. rewrite (map_ext _ _ Hwindow).
    apply windows_concat; [lia|]. unfold len in Hcover. nia.
  - apply List.Forall_forall. intros i Hi. apply in_map_iff in Hi as (k & <- & Hk).
    apply in_seq in Hk. rewrite Hwindow. split.
    + intros Hnil. apply (f_equal (@length A)) in Hnil.
      rewrite length_take, length_drop in Hnil. cbn [length] in Hnil.
      unfold len in *. nia.
    + now apply Forall_take, Forall_drop.
Qed.

Lemma rows_of_chunks chunks rows :
  Forall2 (fun chunk row => exists chunk', embedded chunk chunk' /\ row = row_of chunk')
    chunks rows ->
  map e_chunk_id rows = map chunk_id chunks /\
  map e_text rows
    = map (fun chunk => firstn (Z.to_nat Config.MAX_TEXT_LENGTH) (text chunk)) chunks /\
  map e_document_id rows
    = map (fun chunk => firstn 100 (default [] (document_id chunk))) chunks.
Proof.
  induction 1 as [|chunk row l l' (chunk' & [e ->] & ->) _ (IHid & IHtext & IHdoc)];
    [repeat split|].
  cbn [map]. rewrite IHid, IHtext, IHdoc. repeat split.
Qed.

Section Complete.
Context `{UnicodeDB} `{Model} `{Server} `{Runtime}.
Variable self : PDFToMilvusBatch.t.
Variable handle : string.
Hypothesis Hbatch : 0 < batch_size self.
Hypothesis Hsub : 0 < embedding_batch_size self.
Hypothesis Hmodel : forall texts, length (generate_embeddings texts) = length texts.
Hypothesis Hvalid :
  forall texts e, In e (generate_embeddings texts) -> validate_embedding e = true.
Hypothesis Haccepts : forall c rows, accepts c rows = true.
Hypothesis Hclient : collection (milvus_client self) = Some handle.

Lemma embeddings_complete batch :
  Forall2 embedded batch (fst (generate_embeddings_in_batches self batch)) /\
  Forall (fun chunk' => exists e, embedding chunk' = Some e /\ validate_embedding e = true)
    (fst (generate_embeddings_in_batches self batch)).
Proof.
  destruct (generate_embeddings_in_batches_spec self batch Hsub)
    as (batches & Htile & _ & ->). cbn [fst]. split.
  - destruct (EmbeddingCollaborator.kept_of_complete batches Hmodel) as [Hkept _].
    now rewrite Htile in Hkept.
  - apply List.Forall_forall. intros chunk' Hin.
    apply in_concat in Hin as (kept & Hkept & Hin).
    apply in_map_iff in Hkept as (b & <- & _).
    apply zip_with_set_embedding_In in Hin as (e & He & Hemb).
    exists e. split; [exact Hemb|]. now apply (Hvalid (map text b)).
Qed.

(** Batch after batch every chunk gets a vector, passes validation and is
    inserted. *)
Lemma store_batches_complete all_chunks starts successful_chunks failed_chunks server c :
  server !! handle = Some c ->
  Forall (fun i => slice all_chunks i (i + batch_size self) <> [] /\
                   Forall tagged (slice all_chunks i (i + batch_size self))) starts ->
  exists server' c' rows,
    store_batches self all_chunks starts successful_chunks failed_chunks server
      = (successful_chunks
           + len (concat (map (fun i => slice all_chunks i (i + batch_size self)) starts)),
         failed_chunks, server') /\
    server' !! handle = Some c' /\
    entities c' = entities c ++ rows /\
    Forall2 (fun chunk row => exists chunk', embedded chunk chunk' /\ row = row_of chunk')
      (concat (map (fun i => slice all_chunks i (i + batch_size self)) starts)) rows.
Proof.
  intros Hc Hstarts. revert successful_chunks failed_chunks server c Hc.
  induction Hstarts as [|i rest [Hne Htagged] _ IH]; intros s f server c Hc;
    cbn [store_batches map concat].
  { exists server, c, []. change (len (@nil Chunk)) with 0.
    rewrite Z.add_0_r, app_nil_r. repeat split; [exact Hc|constructor]. }
  set (batch := slice all_chunks i (i + batch_size self)) in *.
  destruct (embeddings_complete batch) as [Hemb Hok].
  set (out := fst (generate_embeddings_in_batches self batch)) in *.
  assert (Hlen : length out = length batch) by (symmetry; eapply Forall2_length, Hemb).
  assert (Hout : out <> []).
  { intros Hnil. rewrite Hnil in Hlen. destruct batch; [congruence|discriminate]. }
  assert (Hfilter : List.filter (fun chunk => validate_embedding (get_embedding chunk)) out
                    = out).
  { apply PyFacts.filter_all. eapply List.Forall_impl; [|exact Hok].
    cbn. intros chunk' (e & He & Hv). unfold get_embedding. now rewrite He. }
  assert (Hrows : valid_documents (map as_document out) [] = map row_of out).
  { apply valid_documents_rows. apply List.Forall_forall. intros chunk' Hin. split.
    - apply (Forall2_In_right _ _ _ _ Hemb) in Hin as (chunk & Hchunk & Hembedded).
      apply (embedded_tagged _ _ Hembedded).
      rewrite List.Forall_forall in Htagged. now apply Htagged.
    - rewrite List.Forall_forall in Hok. destruct (Hok _ Hin) as (e & He & _). eauto. }
  assert (Hmapped : Forall2 (fun chunk row =>
                               exists chunk', embedded chunk chunk' /\ row = row_of chunk')
                      batch (map row_of out)).
  { clear -Hemb. induction Hemb as [|x y l l' Hxy _ IHl]; [constructor|].
    cbn [map]. constructor; [now exists y|exact IHl]. }
  destruct out as [|chunk0 out0] eqn:Hout_eq; [congruence|]. cbn [truthy negb].
  rewrite Hfilter. cbn [truthy negb]. unfold insert_documents. rewrite Hclient.
  cbn [map truthy negb]. change (as_document chunk0 :: map as_document out0)
    with (map as_document (chunk0 :: out0)). rewrite Hrows. cbn [map truthy negb].
  rewrite Hc. cbv zeta.
  pose proof (Haccepts c (row_of chunk0 :: map row_of out0)) as Hstored.
  unfold accepts in Hstored.
  destruct (insert_flush c (row_of chunk0 :: map row_of out0)); try discriminate.
  clear Hstored.
  set (c1 := {| schema := schema c;
                entities := entities c ++ row_of chunk0 :: map row_of out0;
                index := index c |}).
  destruct (IH (s + len (chunk0 :: out0)) f (<[handle := c1]> server) c1)
    as (server' & c' & rows & Hrun & Hc' & Hentities & Hnew); [apply lookup_insert_eq|].
  exists server', c', ((row_of chunk0 :: map row_of out0) ++ rows).
  rewrite Hrun. split; [|split; [exact Hc'|split]].
  - f_equal. f_equal. unfold len in *. rewrite length_app, Hlen. lia.
  - rewrite Hentities. subst c1. cbn [entities]. now rewrite <- app_assoc.
  - apply Forall2_app; [exact Hmapped|exact Hnew].
Qed.

(** X26.  With positive batch sizes, a collaborator that answers every list of
    texts with as many vectors, all of which pass validation, a server that
    accepts every insert and a client bound to a collection the server
    holds, [store_pdf_with_progress] stores every chunk of [process_pdf]:
    it answers [True], and the collection has gained one row per chunk, in
    order, with the chunk identifiers 0, 1, 2, ..., the texts cut to
    [MAX_TEXT_LENGTH] characters and the document id cut to 100. *)
Theorem store_pdf_with_progress_stores_every_chunk (fuel : nat)
    (fs : gmap string Fitz.file) (server : gmap string Collection)
    (pdf_path : string) (document_id : option str) (c : Collection)
    (all_chunks : list Chunk) :
  server !! handle = Some c ->
  process_pdf fuel (pdf_processor self) fs pdf_path (effective_id document_id)
    = Some all_chunks ->
  all_chunks <> [] ->
  exists server' c' rows,
    store_pdf_with_progress fuel self fs server pdf_path document_id
      = Some (true, server') /\
    server' !! handle = Some c' /\
    entities c' = entities c ++ rows /\
    length rows = length all_chunks /\
    map e_chunk_id rows = ids_from 0 (length all_chunks) /\
    map e_text rows
      = map (fun chunk => firstn (Z.to_nat Config.MAX_TEXT_LENGTH) (text chunk))
          all_chunks /\
    map e_document_id rows
      = map (fun _ => firstn 100 (effective_id document_id)) all_chunks.
Proof.
  intros Hc Hrun Hne.
  assert (Hexists : Fitz.path_exists fs pdf_path = true).
  { unfold process_pdf, extract_text_from_pdf, Fitz.open in Hrun.
    unfold Fitz.path_exists. destruct (fs !! pdf_path); [reflexivity|].
    cbn in Hrun. congruence. }
  assert (Htagged : Forall (fun chunk =>
                              tagged chunk /\
                              PDFProcessor.document_id chunk = Some (effective_id document_id))
                      all_chunks).
  { unfold process_pdf in Hrun. destruct (negb (truthy _)); [congruence|].
    revert Hrun. generalize 0 at 1. generalize (extract_text_from_pdf fs pdf_path).
    assert (Hnil : Forall (fun chunk =>
                             tagged chunk /\
                             PDFProcessor.document_id chunk = Some (effective_id document_id))
                     (@nil Chunk)) by constructor.
    revert Hnil. generalize (@nil Chunk).
    intros acc Hacc pages. revert acc Hacc.
    induction pages as [|page rest IH]; intros acc Hacc counter;
      cbn [process_pages]; [now intros [= <-]|].
    destruct (chunk_text fuel (pdf_processor self) (pt_text page) counter)
      as [page_chunks|]; [|discriminate].
    apply IH. apply Forall_app. split; [exact Hacc|].
    apply List.Forall_forall. intros chunk Hchunk.
    apply in_map_iff in Hchunk as (c0 & <- & _). repeat split; cbn; eauto. }
  assert (Htags : Forall tagged all_chunks).
  { eapply List.Forall_impl; [|exact Htagged]. now intros chunk [Ht _]. }
  destruct (slices_tile all_chunks (batch_size self) tagged Hbatch Hne Htags)
    as (starts & Hrange & Htile & Hslices).
  destruct (store_batches_complete all_chunks starts 0 0 server c Hc Hslices)
    as (server' & c' & rows & Hstore & Hc' & Hentities & Hrows).
  rewrite Htile in Hstore, Hrows.
  exists server', c', rows.
  assert (Hpos : 0 < len all_chunks) by (destruct all_chunks; [congruence|unfold len; cbn; lia]).
  split; [|split; [exact Hc'|split; [exact Hentities|]]].
  - unfold store_pdf_with_progress. rewrite Hexists. cbn [negb].
    fold (effective_id document_id). rewrite Hrun.
    destruct all_chunks as [|chunk0 rest0]; [congruence|]. cbn [truthy negb].
    rewrite Hrange, Hstore.
    destruct (Z.eqb_spec (0 + len (chunk0 :: rest0) + 0) 0) as [Hzero|_]; [lia|].
    destruct (Z.gtb_spec (0 + len (chunk0 :: rest0)) 0); [reflexivity|lia].
  - destruct (rows_of_chunks _ _ Hrows) as (Hids & Htexts & Hdocs).
    split; [symmetry; eapply Forall2_length, Hrows|].
    split; [rewrite Hids; now apply (process_pdf_ids _ _ _ _ _ _ Hrun)|].
    split; [exact Htexts|]. rewrite Hdocs. apply map_ext_in. intros chunk Hin.
    rewrite List.Forall_forall in Htagged. destruct (Htagged _ Hin) as [_ ->].
    reflexivity.
Qed.

End Complete.

Lemma store_pdf_with_progress_stores_every_chunk_witness :
  exists server' c' rows,
    store_pdf_with_progress (H := Fixtures.ascii_db) (H0 := Fixtures.three_dim_model)
      (H1 := Fixtures.accepting_server) (H2 := Fixtures.runtime) 0 Fixtures.ready_batch
      (Fixtures.one_file "scan.pdf" Fixtures.scan_doc) Fixtures.ready_server
      "scan.pdf" (Some (of_string "scan")) = Some (true, server') /\
    server' !! Config.COLLECTION_NAME = Some c' /\
    entities c' = [] ++ rows /\
    length rows = 2%nat /\
    map e_chunk_id rows = ids_from 0 2.
Proof.
  destruct (process_pdf (H := Fixtures.ascii_db) 0
              (pdf_processor Fixtures.ready_batch)
              (Fixtures.one_file "scan.pdf" Fixtures.scan_doc) "scan.pdf"
              (effective_id (H := Fixtures.runtime) (Some (of_string "scan"))))
    as [all_chunks|] eqn:Hrun; [|vm_compute in Hrun; discriminate].
  assert (Hlen : length all_chunks = 2%nat)
    by (vm_compute in Hrun; injection Hrun as <-; reflexivity).
  assert (Hne : all_chunks <> []) by (intros ->; discriminate).
  destruct (store_pdf_with_progress_stores_every_chunk (H := Fixtures.ascii_db)
              (H0 := Fixtures.three_dim_model) (H1 := Fixtures.accepting_server)
              (H2 := Fixtures.runtime) Fixtures.ready_batch Config.COLLECTION_NAME)
    with (fuel := 0%nat) (fs := Fixtures.one_file "scan.pdf" Fixtures.scan_doc)
         (server := Fixtures.ready_server) (pdf_path := "scan.pdf")
         (document_id := Some (of_string "scan"))
         (c := {| schema := expected_schema (MilvusClient.init false); entities := [];
                  index := Some {| field_name := "embedding"; metric_type := "COSINE";
                                   index_type := "IVF_FLAT"; nlist := 1024 |} |})
         (all_chunks := all_chunks)
    as (server' & c' & rows & Hstore & Hc' & Hentities & Hrows & Hids & _).
  - reflexivity.
  - reflexivity.
  - intros texts. cbn. apply length_map.
  - intros texts e Hin. cbn in Hin. apply in_map_iff in Hin as (t & <- & _).
    vm_compute. reflexivity.
  - reflexivity.
  - reflexivity.
  - reflexivity.
  - exact Hrun.
  - exact Hne.
  - exists server', c', rows. rewrite Hlen in Hrows, Hids. now repeat split.
Defined.

End CompleteRun.

(** ** The batch pipeline: start-up and clearing *)

Module PipelineLifecycle.

Import MilvusClient PDFToMilvusBatch MilvusLifecycle.




(** A legacy collection, and a server on which re-creating raises: the
    answer is [False], and the legacy collection with its row is gone. *)
Example initialize_can_lose_the_collection :
  row_count (with_collection (MilvusClient.init false) Config.COLLECTION_NAME)
    legacy_server = 1 /\
  (let '(ok, _, server1) :=
     initialize true (Some CreateCollection) (PDFToMilvusBatch.init false) legacy_server in
   (ok, server1 !! Config.COLLECTION_NAME)) = (false, None).
Proof. split; reflexivity. Qed.

End PipelineLifecycle.
